(** * The blog publication pipeline of [src/routes/blog.js]

    A shallow embedding of the blog router: the slug computation, the
    embed validator, the configuration handed to DOMPurify and the
    sanitising pass it drives, the [blog_posts] table, the route
    handlers that read and write it and the order in which the router
    tries them; and of the statistics handlers of
    [src/routes/monitor.js].

    Conventions.
    - A JavaScript string is a sequence of UTF-16 code units; this
      development covers strings whose code units are below 256 and
      writes one [ascii] per code unit.
    - SQL text comparisons ([slug = ?], [id = ?], [status = 'published'])
      are equality of the stored strings.
    - A route handler is an operation on the table; [serve] is the
      router, which runs the handler of the first route, in the order of
      registration, that matches the method and the path of a request.
    - Code that is not part of this repository (jsdom's parser and
      serialiser, DOMPurify's built-in tables) and the declaration of the
      [blog_posts] table ([db/init.js]) enter as parameters, see
      [platform] and [table_decl]. *)

From Stdlib Require Import Bool ZArith NArith Lia List Ascii String.
From Stdlib Require Import Sorted Permutation.
Import ListNotations.

Local Open Scope string_scope.
Local Open Scope list_scope.

Set Warnings "-register-all".

(* ================================================================== *)
(** * Part I. Definitions                                              *)
(* ================================================================== *)

(** ** JavaScript strings *)

Definition code (c : ascii) : N := N_of_ascii c.

Definition between (lo hi : N) (c : ascii) : bool :=
  ((lo <=? code c) && (code c <=? hi))%N.

Definition is_upper (c : ascii) : bool := between 65 90 c.
Definition is_lower (c : ascii) : bool := between 97 122 c.
Definition is_digit (c : ascii) : bool := between 48 57 c.
Definition is_letter (c : ascii) : bool := is_lower c || is_upper c.
(** [\w] *)
Definition is_word (c : ascii) : bool :=
  is_letter c || is_digit c || Ascii.eqb c "_".

Definition lower_ascii (c : ascii) : ascii :=
  if is_upper c then ascii_of_N (code c + 32) else c.
Definition upper_ascii (c : ascii) : ascii :=
  if is_lower c then ascii_of_N (code c - 32) else c.

(** [String.prototype.toLowerCase] on code units below 256: the ASCII
    capitals and the capitals of the Latin-1 block (U+00C0..U+00DE apart
    from the multiplication sign U+00D7) move up by 32. *)
Definition toLowerCase_unit (c : ascii) : ascii :=
  if is_upper c || (between 192 222 c && negb (code c =? 215)%N)
  then ascii_of_N (code c + 32) else c.

Fixpoint toLowerCase (s : string) : string :=
  match s with
  | EmptyString => EmptyString
  | String c s' => String (toLowerCase_unit c) (toLowerCase s')
  end.

(** White space of [String.prototype.trim] below 256: TAB, LF, VT, FF, CR,
    SPACE and NBSP. *)
Definition is_space (c : ascii) : bool :=
  between 9 13 c || (code c =? 32)%N || (code c =? 160)%N.

Fixpoint trimStart (s : string) : string :=
  match s with
  | String c s' => if is_space c then trimStart s' else s
  | EmptyString => EmptyString
  end.

Fixpoint trimEnd (s : string) : string :=
  match s with
  | EmptyString => EmptyString
  | String c s' =>
      match trimEnd s' with
      | EmptyString => if is_space c then EmptyString else String c EmptyString
      | t => String c t
      end
  end.

Definition trim (s : string) : string := trimEnd (trimStart s).

(** [s.indexOf(c) !== -1] *)
Fixpoint includes_unit (c : ascii) (s : string) : bool :=
  match s with
  | EmptyString => false
  | String d s' => Ascii.eqb c d || includes_unit c s'
  end.

(** [s.indexOf(t) !== -1] for a string [t] *)
Fixpoint includes (t s : string) : bool :=
  String.prefix t s ||
  match s with
  | EmptyString => false
  | String _ s' => includes t s'
  end.

Definition mem (x : string) (l : list string) : bool :=
  existsb (String.eqb x) l.

Definition option_eqb {A} (eqb : A -> A -> bool) (x y : option A) : bool :=
  match x, y with
  | None, None => true
  | Some a, Some b => eqb a b
  | _, _ => false
  end.

(** ** Regular expressions

    The fragment of JavaScript regular expressions that the literals of
    the module are written in.  Every literal modelled here starts with
    [^], so a test is a match at the start of the subject; [$] is [Eos]. *)

Inductive regex : Type :=
| Eps
| Chr (c : ascii)
| Cls (negated : bool) (p : ascii -> bool)
| Eos
| Cat (a b : regex)
| Alt (a b : regex)
| Opt (a : regex)
| Plus (a : regex).

Fixpoint lit (s : string) : regex :=
  match s with
  | EmptyString => Eps
  | String c s' => Cat (Chr c) (lit s')
  end.

Fixpoint alts (l : list regex) : regex :=
  match l with
  | [] => Cls false (fun _ => false)
  | [r] => r
  | r :: l' => Alt r (alts l')
  end.

Definition Star (a : regex) : regex := Opt (Plus a).

(** Under the [i] flag two code units match when they canonicalise to
    the same unit; below 256 that identifies exactly the two cases of an
    ASCII letter with a pattern made of ASCII characters. *)
Definition same_unit (i : bool) (c d : ascii) : bool :=
  if i then Ascii.eqb (lower_ascii c) (lower_ascii d) else Ascii.eqb c d.

Definition in_class (i : bool) (p : ascii -> bool) (d : ascii) : bool :=
  if i then p d || p (lower_ascii d) || p (upper_ascii d) else p d.

(** One or more rounds of [body], as many as possible first: after each
    round either another round follows or the continuation [k] takes
    over.  A round consumes at least one code unit, so there are never
    more rounds than [fuel] has units. *)
Fixpoint iterate (body : string -> (string -> bool) -> bool)
    (fuel s : string) (k : string -> bool) {struct fuel} : bool :=
  body s (fun s' =>
            match fuel with
            | String _ f => iterate body f s' k
            | EmptyString => false
            end || k s').

(** Backtracking match of [r] at the start of [s], continuing with [k] on
    what is left. *)
Fixpoint exec (i : bool) (r : regex) (s : string) (k : string -> bool)
  {struct r} : bool :=
  match r with
  | Eps => k s
  | Chr c =>
      match s with
      | String d s' => same_unit i c d && k s'
      | EmptyString => false
      end
  | Cls negated p =>
      match s with
      | String d s' => xorb negated (in_class i p d) && k s'
      | EmptyString => false
      end
  | Eos => match s with EmptyString => k s | _ => false end
  | Cat a b => exec i a s (fun s' => exec i b s' k)
  | Alt a b => exec i a s k || exec i b s k
  | Opt a => exec i a s k || k s
  | Plus a => iterate (exec i a) s s k
  end.

Record RegExp : Type := { source : regex; ignoreCase : bool }.

(** [re.test(s)] *)
Definition test (re : RegExp) (s : string) : bool :=
  exec (ignoreCase re) (source re) s (fun _ => true).

(** [re.test(s)] for a pattern that does not start with [^]: a match at
    some position of the subject. *)
Fixpoint search (re : RegExp) (s : string) : bool :=
  test re s
  || match s with
     | String _ s' => search re s'
     | EmptyString => false
     end.

(** ** Slug generation

    Both the create and the update handler compute
[[
    title.toLowerCase().replace(/[^a-z0-9]+/g, '-').replace(/(^-|-$)/g, '')
]] *)

(** [[a-z0-9]] *)
Definition slug_unit (c : ascii) : bool := is_lower c || is_digit c.

(** [.replace(/[^a-z0-9]+/g, '-')]: every maximal run of units outside
    the class becomes one hyphen.  [in_run] tells that the unit before
    was already part of the run being replaced. *)
Fixpoint hyphenate (in_run : bool) (s : string) : string :=
  match s with
  | EmptyString => EmptyString
  | String c s' =>
      if slug_unit c then String c (hyphenate false s')
      else if in_run then hyphenate true s'
      else String "-" (hyphenate true s')
  end.

Definition drop_leading_hyphen (s : string) : string :=
  match s with
  | String "-" s' => s'
  | _ => s
  end.

Fixpoint drop_trailing_hyphen (s : string) : string :=
  match s with
  | EmptyString => EmptyString
  | String c EmptyString => if Ascii.eqb c "-" then EmptyString else s
  | String c s' => String c (drop_trailing_hyphen s')
  end.

(** [.replace(/(^-|-$)/g, '')]: a hyphen at index 0 and a hyphen at the
    last index are removed (one hyphen that is both is removed once). *)
Definition strip_hyphens (s : string) : string :=
  drop_trailing_hyphen (drop_leading_hyphen s).

Definition slugify (title : string) : string :=
  strip_hyphens (hyphenate false (toLowerCase title)).

(** ** The embed validator *)

(** [/^https?:\/\/(www\.)?youtube\.com\/embed\/[a-zA-Z0-9_-]+/] *)
Definition youtube_embed : RegExp :=
  {| source :=
       Cat (lit "http") (Cat (Opt (Chr "s")) (Cat (lit "://")
       (Cat (Opt (lit "www.")) (Cat (lit "youtube.com/embed/")
       (Plus (Cls false (fun c => is_letter c || is_digit c
                                  || Ascii.eqb c "_" || Ascii.eqb c "-")))))));
     ignoreCase := false |}.

(** [url.match(...)] read as a condition: a match array is truthy, [null]
    is not. *)
Definition isValidYouTubeUrl (url : string) : bool := test youtube_embed url.

(** ** The DOM and the third-party parameters *)

Inductive node : Type :=
| Text (data : string)
| Comment (data : string)
| Element (tagName : string) (attributes : list (string * string))
          (childNodes : list node).

(** What the module takes from code outside this repository.
    - [parseHTML] and [serializeHTML]: jsdom; the children of the body
      that the library gets from the parser for a string, and [innerHTML]
      of a body with the given children.
    - [innerHTML]: jsdom; [innerHTML] of an element, the serialisation of
      its children, in which the text of an element such as [iframe] or
      [style] is written as it is and other text is escaped.
    - [in_document]: the names that are properties of jsdom's document or
      of a form element.
    - [DEFAULT_ALLOWED_TAGS], [DEFAULT_ALLOWED_ATTR]: DOMPurify's
      built-in allowlists. *)
Record platform : Type := {
  parseHTML : string -> list node;
  serializeHTML : list node -> string;
  innerHTML : node -> string;
  in_document : string -> bool;
  DEFAULT_ALLOWED_TAGS : list string;
  DEFAULT_ALLOWED_ATTR : list string
}.

(** Induction over a node and, through [Forall], its children. *)
Section NodeInduction.

Variable Q : node -> Prop.
Hypothesis Q_text : forall d, Q (Text d).
Hypothesis Q_comment : forall d, Q (Comment d).
Hypothesis Q_element :
  forall tagName a children, Forall Q children -> Q (Element tagName a children).


End NodeInduction.

Definition is_element (n : node) : bool :=
  match n with
  | Element _ _ _ => true
  | _ => false
  end.

(** [node.textContent]: the text of the node and of its descendants,
    comments left out. *)
Fixpoint textContent (n : node) : string :=
  match n with
  | Text d => d
  | Comment _ => EmptyString
  | Element _ _ children =>
      (fix all (l : list node) : string :=
         match l with
         | [] => EmptyString
         | n' :: l' => (textContent n' ++ all l')%string
         end) children
  end.

(** ** DOMPurify, as far as this module drives it

    The configuration object is a record with one optional field per key
    that the module writes in either of its two object literals.
    [transformTags] is carried along as the source writes it.

    The pass below is the allowlist filter of the library: which nodes
    stay, which are replaced by their children, which attributes stay,
    with the two guards of the library that look at text: an element
    without element children whose text reads as markup is removed, and
    so is an attribute whose value holds the end of a comment or of a
    [style] or [title] element, and an [attributename] attribute that
    names [href].  An [is] attribute that is removed is
    put back with an empty value.  Of the library's guards, the one for
    form controls that shadow DOM properties and the namespace check
    are not modelled; they take more nodes away. *)

Definition attribs : Type := list (string * string).

Fixpoint get_attr (k : string) (a : attribs) : option string :=
  match a with
  | [] => None
  | (k', v) :: a' => if String.eqb k k' then Some v else get_attr k a'
  end.

(** Writing a property: an existing key keeps its position, a new key
    goes last. *)
Fixpoint set_attr (k v : string) (a : attribs) : attribs :=
  match a with
  | [] => [(k, v)]
  | (k', v') :: a' =>
      if String.eqb k k' then (k', v) :: a' else (k', v') :: set_attr k v a'
  end.

(** The object a [transformTags] callback returns. *)
Record frame : Type := {
  frame_tagName : string;
  frame_attribs : option attribs;
  frame_text : option string
}.

Inductive thrown : Type := TypeError.

Record CustomElementHandling : Type := {
  tagNameCheck : option RegExp;
  attributeNameCheck : option RegExp;
  allowCustomizedBuiltInElements : bool
}.

Record Config : Type := {
  ADD_TAGS : option (list string);
  ADD_ATTR : option (list string);
  ALLOWED_URI_REGEXP : option RegExp;
  ALLOWED_TAGS : option (list string);
  CUSTOM_ELEMENT_HANDLING : option CustomElementHandling;
  FORBID_ATTR : option (list string);
  FORBID_TAGS : option (list string);
  ALLOW_UNKNOWN_PROTOCOLS : option bool;
  transformTags : list (string * (string -> attribs -> thrown + frame))
}.

(** What [_parseConfig] leaves in the library's variables. *)
Record Settings : Type := {
  allowed_tags : list string;
  allowed_attr : list string;
  forbid_tags : list string;
  forbid_attr : list string;
  is_allowed_uri : RegExp;
  allow_unknown_protocols : bool;
  custom_elements : CustomElementHandling
}.

(** Built-in constants of the library. *)

(** [/<[/\w!]/g], the test for markup inside text. *)
Definition MARKUP_IN_TEXT : RegExp :=
  {| source :=
       Cat (Chr "<")
           (Cls false (fun c => Ascii.eqb c "/" || is_word c || Ascii.eqb c "!"));
     ignoreCase := false |}.

(** [/((--!?|])>)|<\/(style|title)/i], the test for an attribute value
    that would end a comment or a raw text element. *)
Definition COMMENT_IN_ATTR : RegExp :=
  {| source :=
       Alt (Cat (Alt (Cat (lit "--") (Opt (Chr "!"))) (Chr "]")) (Chr ">"))
           (Cat (lit "</") (Alt (lit "style") (lit "title")));
     ignoreCase := true |}.

Definition FORBID_CONTENTS : list string :=
  ["annotation-xml"; "audio"; "colgroup"; "desc"; "foreignobject"; "head";
   "iframe"; "math"; "mi"; "mn"; "mo"; "ms"; "mtext"; "noembed"; "noframes";
   "noscript"; "plaintext"; "script"; "style"; "svg"; "template"; "thead";
   "title"; "video"; "xmp"].

Definition URI_SAFE_ATTRIBUTES : list string :=
  ["alt"; "class"; "for"; "id"; "label"; "name"; "pattern"; "placeholder";
   "role"; "summary"; "title"; "value"; "style"; "xmlns"].

Definition DATA_URI_TAGS : list string :=
  ["audio"; "video"; "img"; "source"; "image"; "track"].

Definition uri_scheme_unit (c : ascii) : bool :=
  is_lower c || Ascii.eqb c "+" || Ascii.eqb c "." || Ascii.eqb c "-".

(** The tail shared by the library's default and by the module's own
    pattern: [|[^a-z]|[a-z+.\-]+(?:[^a-z+.\-:]|$)] *)
Definition uri_without_scheme : regex :=
  Alt (Cls true is_lower)
      (Cat (Plus (Cls false uri_scheme_unit))
           (Alt (Cls true (fun c => uri_scheme_unit c || Ascii.eqb c ":")) Eos)).

(** [/^(?:(?:(?:f|ht)tps?|mailto|tel|callto|sms|cid|xmpp|matrix):|[^a-z]|[a-z+.\-]+(?:[^a-z+.\-:]|$))/i] *)
Definition IS_ALLOWED_URI : RegExp :=
  {| source :=
       Alt (Cat (alts [Cat (Alt (lit "f") (lit "ht")) (Cat (lit "tp") (Opt (Chr "s")));
                       lit "mailto"; lit "tel"; lit "callto"; lit "sms";
                       lit "cid"; lit "xmpp"; lit "matrix"])
                (Chr ":"))
           uri_without_scheme;
     ignoreCase := true |}.

Definition name_unit (c : ascii) : bool := Ascii.eqb c "-" || is_word c.

(** [/^data-[\-\w.\u00B7-\uFFFF]+$/] *)
Definition DATA_ATTR : RegExp :=
  {| source :=
       Cat (lit "data-")
           (Cat (Plus (Cls false (fun c => name_unit c || Ascii.eqb c "."
                                           || between 183 255 c)))
                Eos);
     ignoreCase := false |}.

(** [/^aria-[\-\w]+$/] *)
Definition ARIA_ATTR : RegExp :=
  {| source := Cat (lit "aria-") (Cat (Plus (Cls false name_unit)) Eos);
     ignoreCase := false |}.

(** [/^(?:\w+script|data):/i] *)
Definition IS_SCRIPT_OR_DATA : RegExp :=
  {| source :=
       Cat (Alt (Cat (Plus (Cls false is_word)) (lit "script")) (lit "data"))
           (Chr ":");
     ignoreCase := true |}.

(** [/^[a-z][.\w]*(-[.\w]+)+$/i] *)
Definition CUSTOM_ELEMENT : RegExp :=
  let dot_word := Cls false (fun c => Ascii.eqb c "." || is_word c) in
  {| source :=
       Cat (Cls false is_lower)
           (Cat (Star dot_word)
                (Cat (Plus (Cat (Chr "-") (Plus dot_word))) Eos));
     ignoreCase := true |}.

(** [value.replace(ATTR_WHITESPACE, '')]: below 256 the class holds the
    units up to U+0020 and U+00A0. *)
Fixpoint strip_whitespace (s : string) : string :=
  match s with
  | EmptyString => EmptyString
  | String c s' =>
      if between 0 32 c || (code c =? 160)%N then strip_whitespace s'
      else String c (strip_whitespace s')
  end.

Definition addToSet (set l : list string) : list string :=
  set ++ map toLowerCase l.

Definition no_custom_elements : CustomElementHandling :=
  {| tagNameCheck := None; attributeNameCheck := None;
     allowCustomizedBuiltInElements := false |}.

Definition from_option {A} (d : A) (o : option A) : A :=
  match o with Some a => a | None => d end.

(** [_parseConfig(cfg)]: the keys it reads are exactly the ones read
    below; no other property of [cfg] is looked at. *)
Definition _parseConfig (P : platform) (cfg : Config) : Settings :=
  let tags :=
    match ALLOWED_TAGS cfg with
    | Some l => addToSet [] l
    | None => DEFAULT_ALLOWED_TAGS P
    end in
  let attrs := DEFAULT_ALLOWED_ATTR P in
  let tags := from_option tags (option_map (addToSet tags) (ADD_TAGS cfg)) in
  let attrs := from_option attrs (option_map (addToSet attrs) (ADD_ATTR cfg)) in
  {| allowed_tags := addToSet tags ["#text"];
     allowed_attr := attrs;
     forbid_tags := addToSet [] (from_option [] (FORBID_TAGS cfg));
     forbid_attr := addToSet [] (from_option [] (FORBID_ATTR cfg));
     is_allowed_uri := from_option IS_ALLOWED_URI (ALLOWED_URI_REGEXP cfg);
     allow_unknown_protocols := from_option false (ALLOW_UNKNOWN_PROTOCOLS cfg);
     custom_elements :=
       from_option no_custom_elements (CUSTOM_ELEMENT_HANDLING cfg) |}.

Definition check (o : option RegExp) (s : string) : bool :=
  match o with
  | Some re => test re s
  | None => false
  end.

Definition _isBasicCustomElement (tagName : string) : bool :=
  negb (String.eqb tagName "annotation-xml") && test CUSTOM_ELEMENT tagName.

Section Pass.

Variable P : platform.
Variable C : Settings.

Definition _isValidAttribute (lcTag lcName value : string) : bool :=
  let ce := custom_elements C in
  if mem lcName ["id"; "name"] && in_document P value then false
  else if negb (mem lcName (forbid_attr C)) && test DATA_ATTR lcName then true
  else if test ARIA_ATTR lcName then true
  else if negb (mem lcName (allowed_attr C)) || mem lcName (forbid_attr C) then
    (_isBasicCustomElement lcTag
     && check (tagNameCheck ce) lcTag
     && check (attributeNameCheck ce) lcName)
    || (String.eqb lcName "is"
        && allowCustomizedBuiltInElements ce
        && check (tagNameCheck ce) value)
  else if mem lcName URI_SAFE_ATTRIBUTES then true
  else if test (is_allowed_uri C) (strip_whitespace value) then true
  else if mem lcName ["src"; "xlink:href"; "href"]
          && negb (String.eqb lcTag "script")
          && String.prefix "data:" value
          && mem lcTag DATA_URI_TAGS then true
  else if allow_unknown_protocols C
          && negb (test IS_SCRIPT_OR_DATA (strip_whitespace value)) then true
  else String.eqb value "".

(** [_removeAttribute(name, currentNode)], given the attributes that
    the element keeps otherwise: the attribute is taken off, and an [is]
    attribute is then set again with an empty value, which puts it
    last. *)
Definition _removeAttribute (name : string) (kept : attribs) : attribs :=
  if String.eqb name "is" then kept ++ [("is", "")] else kept.

(** [_sanitizeAttributes]: an attribute stays, with its value trimmed,
    when its value passes the test for comment ends, it is not an
    [attributename] that names [href], and [_isValidAttribute] accepts
    it, and is removed otherwise.  The kept
    attributes stay in the order of the input, as in the current
    releases of the library; earlier releases took every attribute off
    and put the kept ones back, which reverses their order. *)
Fixpoint _sanitizeAttributes (lcTag : string) (a : attribs) : attribs :=
  match a with
  | [] => []
  | (name, value) :: a' =>
      let lcName := toLowerCase name in
      let value := if String.eqb name "value" then value else trim value in
      if search COMMENT_IN_ATTR value
         || (String.eqb lcName "attributename" && includes "href" value)
      then _removeAttribute name (_sanitizeAttributes lcTag a')
      else if _isValidAttribute lcTag lcName value
      then (lcName, value) :: _sanitizeAttributes lcTag a'
      else _removeAttribute name (_sanitizeAttributes lcTag a')
  end.

Definition tag_allowed (lcTag : string) : bool :=
  mem lcTag (allowed_tags C) && negb (mem lcTag (forbid_tags C)).

(** The guard against markup that hides in text: the node has children,
    none of them an element, and both its [innerHTML] and its
    [textContent] have a [<] followed by [/], [!] or a word character. *)
Definition text_reads_as_markup (n : node) : bool :=
  match n with
  | Element _ _ [] => false
  | Element _ _ children =>
      negb (existsb is_element children)
      && search MARKUP_IN_TEXT (innerHTML P n)
      && search MARKUP_IN_TEXT (textContent n)
  | _ => false
  end.

(** [_sanitizeElements] followed by [_sanitizeAttributes] over the
    subtree of one node, in the order of the node iterator: an element
    whose text reads as markup is removed with its content; a node that
    is not allowed is removed, and unless its tag is in
    [FORBID_CONTENTS] its children take its place and are visited in
    turn. *)
Fixpoint _sanitizeNode (n : node) : list node :=
  match n with
  | Text _ => if tag_allowed "#text" then [n] else []
  | Comment _ => if tag_allowed "#comment" then [n] else []
  | Element tagName a children =>
      let lcTag := toLowerCase tagName in
      let children := flat_map _sanitizeNode children in
      if text_reads_as_markup n then []
      else if tag_allowed lcTag
         || (negb (mem lcTag (forbid_tags C))
             && _isBasicCustomElement lcTag
             && check (tagNameCheck (custom_elements C)) lcTag)
      then [Element tagName (_sanitizeAttributes lcTag a) children]
      else if negb (mem lcTag FORBID_CONTENTS) then children
      else []
  end.

Definition _sanitizeBody (body : list node) : list node :=
  flat_map _sanitizeNode body.

End Pass.

(** A DOMPurify instance: whether [setConfig] has been called, and the
    settings in force. *)
Record purifier : Type := { SET_CONFIG : bool; CONFIG : Settings }.

Definition empty_config : Config :=
  {| ADD_TAGS := None; ADD_ATTR := None; ALLOWED_URI_REGEXP := None;
     ALLOWED_TAGS := None; CUSTOM_ELEMENT_HANDLING := None;
     FORBID_ATTR := None; FORBID_TAGS := None;
     ALLOW_UNKNOWN_PROTOCOLS := None; transformTags := [] |}.

Definition createDOMPurify (P : platform) : purifier :=
  {| SET_CONFIG := false; CONFIG := _parseConfig P empty_config |}.

Definition setConfig (P : platform) (cfg : Config) (_ : purifier) : purifier :=
  {| SET_CONFIG := true; CONFIG := _parseConfig P cfg |}.

(** [DOMPurify.sanitize(dirty, cfg)] with a string [dirty].  [cfg] is
    parsed only when no configuration has been set on the instance; a
    string without ['<'] is returned as it is. *)
Definition sanitize (P : platform) (D : purifier) (dirty : string)
    (cfg : Config) : string :=
  let settings := if SET_CONFIG D then CONFIG D else _parseConfig P cfg in
  let dirty := if String.eqb dirty "" then "<!-->" else dirty in
  if negb (includes_unit "<" dirty) then dirty
  else serializeHTML P (_sanitizeBody P settings (parseHTML P dirty)).

(** ** The sanitiser of the blog module *)

(** The argument of [DOMPurify.setConfig] at module load. *)

(** [/^(?:(?:(?:f|ht)tps?|mailto|tel|callto|cid|xmpp|xxx):|[^a-z]|[a-z+.\-]+(?:[^a-z+.\-:]|$))/i] *)
Definition module_uri_regexp : RegExp :=
  {| source :=
       Alt (Cat (alts [Cat (Alt (lit "f") (lit "ht")) (Cat (lit "tp") (Opt (Chr "s")));
                       lit "mailto"; lit "tel"; lit "callto";
                       lit "cid"; lit "xmpp"; lit "xxx"])
                (Chr ":"))
           uri_without_scheme;
     ignoreCase := true |}.

Definition module_config : Config :=
  {| ADD_TAGS := Some ["iframe"];
     ADD_ATTR := Some ["allow"; "allowfullscreen"; "frameborder"; "scrolling";
                       "src"; "title"; "width"; "height"];
     ALLOWED_URI_REGEXP := Some module_uri_regexp;
     ALLOWED_TAGS := Some ["a"; "b"; "br"; "div"; "em"; "h1"; "h2"; "h3"; "h4";
                           "h5"; "h6"; "i"; "iframe"; "img"; "li"; "ol"; "p";
                           "span"; "strong"; "ul"];
     CUSTOM_ELEMENT_HANDLING := None;
     FORBID_ATTR := None;
     FORBID_TAGS := None;
     ALLOW_UNKNOWN_PROTOCOLS := None;
     transformTags := [] |}.

(** [const DOMPurify = createDOMPurify(window); DOMPurify.setConfig({...})] *)
Definition DOMPurify (P : platform) : purifier :=
  setConfig P module_config (createDOMPurify P).

(** The function stored under [transformTags.iframe]. [attribs.src] of an
    iframe without [src] is [undefined], and [undefined.match] throws. *)
Definition iframe_rule (tagName : string) (a : attribs) : thrown + frame :=
  match get_attr "src" a with
  | None => inl TypeError
  | Some src =>
      if negb (isValidYouTubeUrl src) then
        inr {| frame_tagName := "p"; frame_attribs := None;
               frame_text := Some "[Invalid video embed]" |}
      else
        inr {| frame_tagName := "iframe";
               frame_attribs :=
                 Some (set_attr "allowfullscreen" ""
                      (set_attr "allow" "accelerometer; autoplay; clipboard-write; encrypted-media; gyroscope; picture-in-picture"
                      (set_attr "frameborder" "0"
                      (set_attr "height" "400"
                      (set_attr "width" "100%" a)))));
               frame_text := None |}
  end.

(** The second argument of [DOMPurify.sanitize] in [sanitizeContent]. *)
Definition call_config : Config :=
  {| ADD_TAGS := None;
     ADD_ATTR := None;
     ALLOWED_URI_REGEXP := None;
     ALLOWED_TAGS := None;
     CUSTOM_ELEMENT_HANDLING :=
       Some {| tagNameCheck :=
                 Some {| source := Cat (lit "iframe") Eos; ignoreCase := false |};
               attributeNameCheck :=
                 Some {| source :=
                           Cat (alts [lit "src"; lit "width"; lit "height";
                                      lit "frameborder"; lit "allow";
                                      lit "allowfullscreen"]) Eos;
                         ignoreCase := false |};
               allowCustomizedBuiltInElements := true |};
     FORBID_ATTR := Some [];
     FORBID_TAGS := Some [];
     ALLOW_UNKNOWN_PROTOCOLS := Some true;
     transformTags := [("iframe", iframe_rule)] |}.

Definition sanitizeContent (P : platform) (content : string) : string :=
  sanitize P (DOMPurify P) content call_config.

(** ** The [blog_posts] table *)

(** One row.  A column that may hold SQL [NULL] is an [option]. *)
Record post : Type := {
  id : string;
  title : string;
  slug : string;
  content : string;
  category : string;
  meta_title : option string;
  meta_description : option string;
  keywords : option string;
  featured_image : option string;
  status : option string;
  author : option string;
  created_at : Z;
  updated_at : Z;
  is_featured : option bool;
  is_trending : option bool;
  featured_order : option Z;
  trending_order : option Z
}.

(** The declaration of the table is in [db/init.js], which is not among
    the sources.  The one property of it that the effect of the handlers
    depends on is whether [updated_at] is declared
    [ON UPDATE CURRENT_TIMESTAMP]. *)
Record table_decl : Type := { updated_at_on_update : bool }.

Definition same_row (p q : post) : bool :=
  String.eqb (id p) (id q) && String.eqb (title p) (title q)
  && String.eqb (slug p) (slug q) && String.eqb (content p) (content q)
  && String.eqb (category p) (category q)
  && option_eqb String.eqb (meta_title p) (meta_title q)
  && option_eqb String.eqb (meta_description p) (meta_description q)
  && option_eqb String.eqb (keywords p) (keywords q)
  && option_eqb String.eqb (featured_image p) (featured_image q)
  && option_eqb String.eqb (status p) (status q)
  && option_eqb String.eqb (author p) (author q)
  && Z.eqb (created_at p) (created_at q)
  && Z.eqb (updated_at p) (updated_at q)
  && option_eqb Bool.eqb (is_featured p) (is_featured q)
  && option_eqb Bool.eqb (is_trending p) (is_trending q)
  && option_eqb Z.eqb (featured_order p) (featured_order q)
  && option_eqb Z.eqb (trending_order p) (trending_order q).

Definition with_updated_at (t : Z) (p : post) : post :=
  {| id := id p; title := title p; slug := slug p; content := content p;
     category := category p; meta_title := meta_title p;
     meta_description := meta_description p; keywords := keywords p;
     featured_image := featured_image p; status := status p;
     author := author p; created_at := created_at p; updated_at := t;
     is_featured := is_featured p; is_trending := is_trending p;
     featured_order := featured_order p; trending_order := trending_order p |}.

(** [UPDATE blog_posts SET ... WHERE ...] at time [now].  [SET] gives the
    assigned columns their new values; [assigns_updated_at] tells whether
    [updated_at] is among them.  A column declared
    [ON UPDATE CURRENT_TIMESTAMP] that the statement does not assign is
    set to [now] in the rows where some other column changes value. *)
Definition UPDATE (T : table_decl) (now : Z) (assigns_updated_at : bool)
    (SET : post -> post) (WHERE : post -> bool) (table : list post)
    : list post :=
  map (fun r =>
         if WHERE r then
           let r' := SET r in
           if updated_at_on_update T && negb assigns_updated_at
              && negb (same_row r r')
           then with_updated_at now r' else r'
         else r) table.

Definition SELECT (WHERE : post -> bool) (table : list post) : list post :=
  filter WHERE table.

Definition DELETE (WHERE : post -> bool) (table : list post) : list post :=
  filter (fun r => negb (WHERE r)) table.

Definition INSERT (r : post) (table : list post) : list post := table ++ [r].

(** [ORDER BY]: a stable insertion sort by the order [le] of the clause. *)
Fixpoint place {A} (le : A -> A -> bool) (x : A) (l : list A) : list A :=
  match l with
  | [] => [x]
  | y :: l' => if le x y then x :: l else y :: place le x l'
  end.

Definition ORDER_BY {A} (le : A -> A -> bool) (l : list A) : list A :=
  fold_right (place le) [] l.

(** [ASC] on a nullable integer column: MySQL sorts [NULL] before every
    value in ascending order. *)
Definition asc (a b : option Z) : comparison :=
  match a, b with
  | None, None => Eq
  | None, Some _ => Lt
  | Some _, None => Gt
  | Some x, Some y => Z.compare x y
  end.

(** [ORDER BY created_at DESC] *)
Definition created_at_desc (p q : post) : bool :=
  (created_at q <=? created_at p)%Z.

(** [ORDER BY <order column> ASC, created_at DESC] *)
Definition order_asc_created_desc (col : post -> option Z) (p q : post) : bool :=
  match asc (col p) (col q) with
  | Lt => true
  | Gt => false
  | Eq => created_at_desc p q
  end.

Definition published (p : post) : bool :=
  option_eqb String.eqb (status p) (Some "published").

(** ** Requests and responses *)

(** One element of [req.body.posts] in a reorder request. *)
Record entry : Type := { entry_id : string; entry_order : option Z }.

(** [req.body], at the types the handlers use its properties at; [None]
    is a property that is missing.  For a property that the handlers
    only test with [!] or bind to a statement, [null] behaves as a
    missing property does and [None] stands for both.  The three
    properties that the create handler gives a default other than
    [null] tell the two apart, since a default applies to a missing
    property only: there [None] is missing, [Some None] is [null] and
    [Some (Some v)] is the value [v]. *)
Record body : Type := {
  b_title : option string;
  b_content : option string;
  b_category : option string;
  b_meta_title : option string;
  b_meta_description : option string;
  b_keywords : option string;
  b_featured_image : option string;
  b_status : option (option string);
  b_author : option string;
  b_is_featured : option (option bool);
  b_is_trending : option (option bool);
  b_featured_order : option Z;
  b_trending_order : option Z;
  b_posts : option (list entry);
  b_type : option string
}.

Record request : Type := {
  admin_access : option string;      (* req.headers['admin-access'] *)
  params : string;                   (* req.params.id, req.params.slug *)
  req_body : body
}.

(** What a handler reads from its surroundings: the environment variable,
    the clock of the database and the next [uuidv4()]. *)
Record env : Type := {
  ADMIN_PASSPHRASE : option string;
  NOW : Z;
  uuidv4 : string
}.

Inductive json : Type :=
| error_ (error : string)
| created_ (message id_ slug_ : string)
| updated_ (message slug_ : string)
| message_ (message : string)
| posts_ (rows : list post)
| post_ (row : post)
| categories_ (rows : list string).

Record response : Type := { http_status : nat; payload : json }.

(** The failures of the specification, as the handlers answer them. *)
Definition Unauthorized : response :=
  {| http_status := 403; payload := error_ "Unauthorized" |}.
Definition ValidationError : response :=
  {| http_status := 400;
     payload := error_ "Title, content and category are required" |}.
Definition DuplicateSlug : response :=
  {| http_status := 400;
     payload := error_ "A post with this title already exists" |}.
Definition NotFound : response :=
  {| http_status := 404; payload := error_ "Blog post not found" |}.
Definition InternalError (what : string) : response :=
  {| http_status := 500; payload := error_ what |}.
Definition ok (j : json) : response := {| http_status := 200; payload := j |}.

(** [req.headers['admin-access'] === process.env.ADMIN_PASSPHRASE] *)
Definition checkAdminPassphrase (E : env) (req : request) : bool :=
  option_eqb String.eqb (admin_access req) (ADMIN_PASSPHRASE E).

(** What a statement gets for a property bound to a [?]: [NULL] for a
    missing property and for [null]. *)
Definition bound {A} (x : option (option A)) : option A :=
  match x with
  | Some sent => sent
  | None => None
  end.

(** [{ x = d } = req.body]: the default [d] stands in for a missing
    property, not for [null]. *)
Definition with_default {A} (d : A) (x : option (option A)) : option A :=
  match x with
  | Some sent => sent
  | None => Some d
  end.

(** [!x] for a text property: missing or empty. *)
Definition falsy (x : option string) : bool :=
  match x with
  | None => true
  | Some s => String.eqb s ""
  end.

(** ** The route handlers

    Each handler maps the request and the table to the response and the
    table it leaves.  Queries are taken to succeed, so the [catch] branch
    of a handler is reached only where the handler itself throws. *)

Section Router.

Variable P : platform.
Variable T : table_decl.

Definition text (x : option string) : string := from_option "" x.

Definition has_id (i : string) (r : post) : bool := String.eqb (id r) i.
Definition has_slug (s : string) (r : post) : bool := String.eqb (slug r) s.

(** [router.post('/posts')] *)
Definition post_posts (E : env) (req : request) (table : list post)
    : response * list post :=
  if negb (checkAdminPassphrase E req) then (Unauthorized, table) else
  let b := req_body req in
  if falsy (b_title b) || falsy (b_content b) || falsy (b_category b)
  then (ValidationError, table) else
  let slug := slugify (text (b_title b)) in
  match SELECT (has_slug slug) table with
  | _ :: _ => (DuplicateSlug, table)
  | [] =>
      let sanitizedContent := sanitizeContent P (text (b_content b)) in
      let id := uuidv4 E in
      (ok (created_ "Blog post created successfully" id slug),
       INSERT {| id := id; title := text (b_title b); slug := slug;
                 content := sanitizedContent;
                 category := text (b_category b);
                 meta_title := b_meta_title b;
                 meta_description := b_meta_description b;
                 keywords := b_keywords b;
                 featured_image := b_featured_image b;
                 status := with_default "draft" (b_status b);
                 author := b_author b;
                 created_at := NOW E; updated_at := NOW E;
                 is_featured := with_default false (b_is_featured b);
                 is_trending := with_default false (b_is_trending b);
                 featured_order := b_featured_order b;
                 trending_order := b_trending_order b |} table)
  end.

(** [router.get('/posts')] *)
Definition get_posts (E : env) (req : request) (table : list post)
    : response * list post :=
  let WHERE r := if negb (checkAdminPassphrase E req) then published r else true in
  (ok (posts_ (ORDER_BY created_at_desc (SELECT WHERE table))), table).

(** [router.get('/posts/:slug')] *)
Definition get_post_by_slug (E : env) (req : request) (table : list post)
    : response * list post :=
  let WHERE r :=
    has_slug (params req) r
    && (if negb (checkAdminPassphrase E req) then published r else true) in
  match SELECT WHERE table with
  | [] => (NotFound, table)
  | r :: _ => (ok (post_ r), table)
  end.

(** The assignments of the [UPDATE] in [router.put('/posts/:id')]. *)
Definition put_assignments (E : env) (b : body) (slug sanitizedContent : string)
    (r : post) : post :=
  {| id := id r; title := text (b_title b); slug := slug;
     content := sanitizedContent; category := text (b_category b);
     meta_title := b_meta_title b;
     meta_description := b_meta_description b;
     keywords := b_keywords b; featured_image := b_featured_image b;
     status := bound (b_status b); author := b_author b;
     created_at := created_at r; updated_at := NOW E;
     is_featured := is_featured r; is_trending := is_trending r;
     featured_order := featured_order r;
     trending_order := trending_order r |}.

(** [router.put('/posts/:id')] *)
Definition put_post (E : env) (req : request) (table : list post)
    : response * list post :=
  if negb (checkAdminPassphrase E req) then (Unauthorized, table) else
  let b := req_body req in
  if falsy (b_title b) || falsy (b_content b) || falsy (b_category b)
  then (ValidationError, table) else
  match SELECT (has_id (params req)) table with
  | [] => (NotFound, table)
  | _ :: _ =>
      let slug := slugify (text (b_title b)) in
      match SELECT (fun r => has_slug slug r && negb (has_id (params req) r))
                   table with
      | _ :: _ => (DuplicateSlug, table)
      | [] =>
          let sanitizedContent := sanitizeContent P (text (b_content b)) in
          (ok (updated_ "Blog post updated successfully" slug),
           UPDATE T (NOW E) true (put_assignments E b slug sanitizedContent)
                  (has_id (params req)) table)
      end
  end.

(** [router.delete('/posts/:id')] *)
Definition delete_post (E : env) (req : request) (table : list post)
    : response * list post :=
  if negb (checkAdminPassphrase E req) then (Unauthorized, table) else
  match SELECT (has_id (params req)) table with
  | [] => (NotFound, table)
  | _ :: _ =>
      (ok (message_ "Blog post deleted successfully"),
       DELETE (has_id (params req)) table)
  end.

(** [router.get('/categories')] *)
Definition get_categories (E : env) (req : request) (table : list post)
    : response * list post :=
  let WHERE r := if negb (checkAdminPassphrase E req) then published r else true in
  (ok (categories_
         (ORDER_BY String.leb
            (nodup string_dec (map category (SELECT WHERE table))))),
   table).

(** The assignments of the [UPDATE] in [router.patch('/posts/:id/status')]. *)
Definition status_assignments (b : body) (r : post) : post :=
  {| id := id r; title := title r; slug := slug r; content := content r;
     category := category r; meta_title := meta_title r;
     meta_description := meta_description r; keywords := keywords r;
     featured_image := featured_image r; status := status r;
     author := author r; created_at := created_at r;
     updated_at := updated_at r;
     is_featured := bound (b_is_featured b);
     is_trending := bound (b_is_trending b);
     featured_order := b_featured_order b;
     trending_order := b_trending_order b |}.

(** [router.patch('/posts/:id/status')] *)
Definition patch_post_status (E : env) (req : request) (table : list post)
    : response * list post :=
  if negb (checkAdminPassphrase E req) then (Unauthorized, table) else
  (ok (message_ "Post status updated successfully"),
   UPDATE T (NOW E) false (status_assignments (req_body req))
          (has_id (params req)) table).

(** The two columns a reorder request can write. *)
Inductive order_column : Type := featured_order_col | trending_order_col.

(** [type === 'trending' ? 'trending_order' : 'featured_order'] *)
Definition orderField (type : option string) : order_column :=
  if option_eqb String.eqb type (Some "trending")
  then trending_order_col else featured_order_col.

(** [SET ${orderField} = ?] *)
Definition order_assignment (f : order_column) (v : option Z) (r : post)
    : post :=
  {| id := id r; title := title r; slug := slug r; content := content r;
     category := category r; meta_title := meta_title r;
     meta_description := meta_description r; keywords := keywords r;
     featured_image := featured_image r; status := status r;
     author := author r; created_at := created_at r;
     updated_at := updated_at r;
     is_featured := is_featured r; is_trending := is_trending r;
     featured_order :=
       match f with featured_order_col => v | _ => featured_order r end;
     trending_order :=
       match f with trending_order_col => v | _ => trending_order r end |}.

(** The body of [for (const post of posts)]: one [UPDATE] per entry, in
    the order of the list. *)
Definition reorder_loop (E : env) (f : order_column) (posts : list entry)
    (table : list post) : list post :=
  fold_left
    (fun table e =>
       UPDATE T (NOW E) false (order_assignment f (entry_order e))
              (has_id (entry_id e)) table)
    posts table.

(** [router.post('/posts/reorder')]; iterating over a missing [posts]
    throws, which the handler catches. *)
Definition post_posts_reorder (E : env) (req : request) (table : list post)
    : response * list post :=
  if negb (checkAdminPassphrase E req) then (Unauthorized, table) else
  let orderField := orderField (b_type (req_body req)) in
  match b_posts (req_body req) with
  | None => (InternalError "Failed to reorder posts", table)
  | Some posts =>
      (ok (message_ "Posts reordered successfully"),
       reorder_loop E orderField posts table)
  end.

Definition flagged (col : post -> option bool) (r : post) : bool :=
  option_eqb Bool.eqb (col r) (Some true).

(** [router.get('/posts/featured')] *)
Definition get_posts_featured (E : env) (req : request) (table : list post)
    : response * list post :=
  (ok (posts_ (ORDER_BY (order_asc_created_desc featured_order)
                        (SELECT (flagged is_featured) table))),
   table).

(** [router.get('/posts/trending')] *)
Definition get_posts_trending (E : env) (req : request) (table : list post)
    : response * list post :=
  (ok (posts_ (ORDER_BY (order_asc_created_desc trending_order)
                        (SELECT (flagged is_trending) table))),
   table).

End Router.

(** ** Notions used to state the properties *)

(** The position [ORDER BY <col> ASC, created_at DESC] gives to two
    rows: a row without an order value comes before a row with one, two
    order values compare as integers, and with equal order values (or
    none on either side) the more recently created row comes first. *)
Definition precedes (col : post -> option Z) (p q : post) : Prop :=
  match col p, col q with
  | None, Some _ => True
  | Some _, None => False
  | Some x, Some y => (x < y \/ (x = y /\ created_at q <= created_at p))%Z
  | None, None => (created_at q <= created_at p)%Z
  end.

(** The same with rows without an order value placed last, as the
    specification words the order of the featured and trending lists. *)
Definition precedes_nulls_last (col : post -> option Z) (p q : post) : Prop :=
  match col p, col q with
  | None, Some _ => False
  | Some _, None => True
  | Some x, Some y => (x < y \/ (x = y /\ created_at q <= created_at p))%Z
  | None, None => (created_at q <= created_at p)%Z
  end.

(** No two posts with different ids share a slug. *)
Definition unique_slugs (table : list post) : Prop :=
  forall r1 r2, In r1 table -> In r2 table -> slug r1 = slug r2 -> id r1 = id r2.

(** The value a reorder request leaves in the order column of the post
    with id [i] that held [old]: the order of the last entry naming [i],
    if there is one. *)
Definition last_order (posts : list entry) (i : string) (old : option Z)
    : option Z :=
  fold_left (fun v e => if String.eqb i (entry_id e) then entry_order e else v)
            posts old.

(** What one [UPDATE] of the reorder loop does to one row. *)
Definition reorder_step (T : table_decl) (E : env) (f : order_column)
    (r : post) (e : entry) : post :=
  if has_id (entry_id e) r then
    let r' := order_assignment f (entry_order e) r in
    if updated_at_on_update T && negb false && negb (same_row r r')
    then with_updated_at (NOW E) r' else r'
  else r.

(** ASCII lower case of a whole string, for comparing schemes. *)
Fixpoint lower_string (s : string) : string :=
  match s with
  | EmptyString => EmptyString
  | String c s' => String (lower_ascii c) (lower_string s')
  end.



(** The tags of [ALLOWED_TAGS] in the module's configuration. *)
Definition module_tags : list string :=
  ["a"; "b"; "br"; "div"; "em"; "h1"; "h2"; "h3"; "h4"; "h5"; "h6"; "i";
   "iframe"; "img"; "li"; "ol"; "p"; "span"; "strong"; "ul"].

(** The names in the library's set of allowed tags once the module's
    configuration is parsed: the tags of [ALLOWED_TAGS], and the node
    name of text, which the library adds. *)
Definition allowed_names : list string := module_tags ++ ["#text"].



(** ** Concrete data for the examples *)

Definition quot : string := String "034"%char EmptyString.

(** [<iframe src="..."></iframe>] *)
Definition iframe_html (src : string) : string :=
  ("<iframe src=" ++ quot ++ src ++ quot ++ "></iframe>")%string.

Definition iframe_element (a : attribs) : node := Element "iframe" a [].

(** The HTML serialisation of a list of nodes: text and attribute values
    escaped, no end tag for void elements, the text inside raw text
    elements as it is. *)
Fixpoint escape (in_attribute : bool) (s : string) : string :=
  match s with
  | EmptyString => EmptyString
  | String c s' =>
      let rest := escape in_attribute s' in
      if Ascii.eqb c "&" then ("&amp;" ++ rest)%string
      else if (code c =? 160)%N then ("&nbsp;" ++ rest)%string
      else if in_attribute then
        if Ascii.eqb c "034" then ("&quot;" ++ rest)%string else String c rest
      else if Ascii.eqb c "<" then ("&lt;" ++ rest)%string
      else if Ascii.eqb c ">" then ("&gt;" ++ rest)%string
      else String c rest
  end.

Definition void_elements : list string :=
  ["area"; "base"; "br"; "col"; "embed"; "hr"; "img"; "input"; "link";
   "meta"; "source"; "track"; "wbr"].

Definition raw_text_elements : list string :=
  ["style"; "script"; "xmp"; "iframe"; "noembed"; "noframes"; "plaintext"].

Fixpoint serialize_attributes (a : attribs) : string :=
  match a with
  | [] => EmptyString
  | (n, v) :: a' =>
      (" " ++ n ++ "=" ++ quot ++ escape true v ++ quot
           ++ serialize_attributes a')%string
  end.

Fixpoint serialize_node (raw : bool) (n : node) : string :=
  match n with
  | Text d => if raw then d else escape false d
  | Comment d => ("<!--" ++ d ++ "-->")%string
  | Element tagName a children =>
      ("<" ++ tagName ++ serialize_attributes a ++ ">"
       ++ (if mem tagName void_elements then EmptyString
           else
             ((fix all (l : list node) : string :=
                 match l with
                 | [] => EmptyString
                 | n' :: l' =>
                     (serialize_node (mem tagName raw_text_elements) n'
                      ++ all l')%string
                 end) children
              ++ "</" ++ tagName ++ ">")))%string
  end.

Definition serialize (body : list node) : string :=
  fold_right (fun n acc => (serialize_node false n ++ acc)%string) "" body.

(** An instance of the third-party parameters, for applying theorems to
    concrete data.  Its parser knows two strings with markup and takes
    every other input for text; its allowlists are short. *)
Definition sample_markup : string := "<b onclick=x>hi</b>".

(** [<img src="x1:javascript:alert(1)">] *)
Definition sample_image : string :=
  ("<img src=" ++ quot ++ "x1:javascript:alert(1)" ++ quot ++ ">")%string.

Definition sample_platform : platform :=
  {| parseHTML :=
       fun s =>
         if String.eqb s sample_markup
         then [Element "b" [("onclick", "x")] [Text "hi"]]
         else if String.eqb s sample_image
         then [Element "img" [("src", "x1:javascript:alert(1)")] []]
         else [Text s];
     serializeHTML := serialize;
     innerHTML :=
       fun n =>
         match n with
         | Element tagName _ children =>
             fold_right
               (fun n' acc =>
                  (serialize_node (mem tagName raw_text_elements) n' ++ acc)%string)
               "" children
         | _ => EmptyString
         end;
     in_document := fun _ => false;
     DEFAULT_ALLOWED_TAGS := ["a"; "b"; "p"];
     DEFAULT_ALLOWED_ATTR := ["class"; "href"; "src"; "title"] |}.

(** The two declarations that [updated_at] can have: an ordinary
    column, and a column declared [ON UPDATE CURRENT_TIMESTAMP].  Which
    of the two [db/init.js] has is not known. *)
Definition plain_table : table_decl := {| updated_at_on_update := false |}.
Definition auto_table : table_decl := {| updated_at_on_update := true |}.

Definition at_time (t : Z) : env :=
  {| ADMIN_PASSPHRASE := Some "secret"; NOW := t; uuidv4 := "uuid-1" |}.

Definition no_body : body :=
  {| b_title := None; b_content := None; b_category := None;
     b_meta_title := None; b_meta_description := None; b_keywords := None;
     b_featured_image := None; b_status := None; b_author := None;
     b_is_featured := None; b_is_trending := None;
     b_featured_order := None; b_trending_order := None;
     b_posts := None; b_type := None |}.

(** A request without the admin header. *)
Definition anonymous (param : string) : request :=
  {| admin_access := None; params := param; req_body := no_body |}.

Definition as_admin (param : string) (b : body) : request :=
  {| admin_access := Some "secret"; params := param; req_body := b |}.

(** A body with the three required fields. *)
Definition fields (title content category : string) : body :=
  {| b_title := Some title; b_content := Some content;
     b_category := Some category;
     b_meta_title := None; b_meta_description := None; b_keywords := None;
     b_featured_image := None; b_status := None; b_author := None;
     b_is_featured := None; b_is_trending := None;
     b_featured_order := None; b_trending_order := None;
     b_posts := None; b_type := None |}.

(** The body [b] with the property [status] as given. *)
Definition with_status (sent : option (option string)) (b : body) : body :=
  {| b_title := b_title b; b_content := b_content b;
     b_category := b_category b; b_meta_title := b_meta_title b;
     b_meta_description := b_meta_description b; b_keywords := b_keywords b;
     b_featured_image := b_featured_image b; b_status := sent;
     b_author := b_author b;
     b_is_featured := b_is_featured b; b_is_trending := b_is_trending b;
     b_featured_order := b_featured_order b;
     b_trending_order := b_trending_order b;
     b_posts := b_posts b; b_type := b_type b |}.

Definition flags (f t : option bool) (fo to : option Z) : body :=
  {| b_title := None; b_content := None; b_category := None;
     b_meta_title := None; b_meta_description := None; b_keywords := None;
     b_featured_image := None; b_status := None; b_author := None;
     b_is_featured := option_map Some f; b_is_trending := option_map Some t;
     b_featured_order := fo; b_trending_order := to;
     b_posts := None; b_type := None |}.

Definition reordering (posts : option (list entry)) (type : option string) : body :=
  {| b_title := None; b_content := None; b_category := None;
     b_meta_title := None; b_meta_description := None; b_keywords := None;
     b_featured_image := None; b_status := None; b_author := None;
     b_is_featured := None; b_is_trending := None;
     b_featured_order := None; b_trending_order := None;
     b_posts := posts; b_type := type |}.

(** A stored post: id, slug, status, the featured and trending flag with
    their order values, and the creation time. *)
Definition stored (i s st : string) (f t : bool) (fo to : option Z) (c : Z)
    : post :=
  {| id := i; title := s; slug := s; content := "text"; category := "news";
     meta_title := None; meta_description := None; keywords := None;
     featured_image := None; status := Some st; author := None;
     created_at := c; updated_at := c;
     is_featured := Some f; is_trending := Some t;
     featured_order := fo; trending_order := to |}.

(** Three featured posts with the order values 2, none and 1. *)
Definition shelf : list post :=
  [ stored "p2" "two" "published" true false (Some 2%Z) None 10;
    stored "p0" "none" "published" true false None None 20;
    stored "p1" "one" "published" true false (Some 1%Z) None 30 ].

(** A draft that carries both flags. *)
Definition hidden_draft : post :=
  stored "d1" "secret-plans" "draft" true true None None 5.

(** A heading inside a section inside a heading, the same without the
    section, and the two headings side by side. *)
Definition heading_in_section : list node :=
  [Element "h1" [] [Element "section" [] [Element "h2" [] [Text "x"]]]].
Definition heading_in_heading : list node :=
  [Element "h1" [] [Element "h2" [] [Text "x"]]].
Definition headings_side_by_side : list node :=
  [Element "h1" [] []; Element "h2" [] [Text "x"]].

(** ** Further notions: the shape of slugs and of embed addresses *)

(** Every code unit of [s] satisfies [p]. *)
Fixpoint all_units (p : ascii -> bool) (s : string) : bool :=
  match s with
  | EmptyString => true
  | String c s' => p c && all_units p s'
  end.

(** Some code unit of [s] satisfies [p]. *)
Fixpoint any_unit (p : ascii -> bool) (s : string) : bool :=
  match s with
  | EmptyString => false
  | String c s' => p c || any_unit p s'
  end.

Definition is_hyphen (c : ascii) : bool := Ascii.eqb c "-".

(** The units of [s] are lower-case ASCII letters, digits and hyphens,
    and no hyphen follows a hyphen; with [after_hyphen] set, [s] is read
    as the continuation of a string that ended in a hyphen. *)
Fixpoint hyphenated (after_hyphen : bool) (s : string) : bool :=
  match s with
  | EmptyString => true
  | String c s' =>
      if is_hyphen c then negb after_hyphen && hyphenated true s'
      else slug_unit c && hyphenated false s'
  end.

Fixpoint ends_with_hyphen (s : string) : bool :=
  match s with
  | EmptyString => false
  | String c EmptyString => is_hyphen c
  | String _ s' => ends_with_hyphen s'
  end.

Definition starts_with_hyphen (s : string) : bool :=
  match s with
  | String c _ => is_hyphen c
  | EmptyString => false
  end.

(** [[a-zA-Z0-9_-]], the class that ends the embed pattern. *)
Definition video_id_unit (c : ascii) : bool :=
  is_letter c || is_digit c || Ascii.eqb c "_" || Ascii.eqb c "-".

(** The four ways an accepted embed address can start. *)
Definition embed_prefixes : list string :=
  ["http://youtube.com/embed/"; "https://youtube.com/embed/";
   "http://www.youtube.com/embed/"; "https://www.youtube.com/embed/"].

(** The five attributes the iframe rule writes. *)
Definition forced_attributes : list string :=
  ["width"; "height"; "frameborder"; "allow"; "allowfullscreen"].

(** The request [req] sent again with another route parameter. *)
Definition with_params (p : string) (req : request) : request :=
  {| admin_access := admin_access req; params := p; req_body := req_body req |}.

(** ** The monitor router ([src/routes/monitor.js])

    The statistics handlers read three tables of the mail service and
    write none.  The columns are the ones the queries name. *)

Module Monitor.

Record user : Type := {
  user_id : string;
  user_email : string;
  user_created_at : Z;
  last_login : option Z
}.

Record temp_email : Type := {
  te_id : string;
  te_email : string;
  te_user_id : option string;      (* NULL for an address without owner *)
  te_created_at : Z;
  expires_at : Z
}.

Record received_email : Type := {
  re_id : string;
  temp_email_id : string;
  received_at : Z
}.

Record database : Type := {
  users : list user;
  temp_emails : list temp_email;
  received_emails : list received_email
}.

(** The environment variable and the clock of the database: [NOW()] and
    the calendar day [DATE(t)] of a time, so that [CURDATE()] is
    [DATE(NOW())]. *)
Record env : Type := {
  ADMIN_PASSPHRASE : option string;
  NOW : Z;
  DATE : Z -> Z
}.

Record request : Type := {
  admin_access : option string;      (* req.headers['admin-access'] *)
  query_email : option string        (* req.query.email *)
}.

(** The object of [/stats]. *)
Record statistics : Type := {
  users_total : nat;
  users_today : nat;
  tempEmails_total : nat;
  tempEmails_active : nat;
  receivedEmails_total : nat;
  receivedEmails_today : nat
}.

(** A row of [/recent-users]. *)
Record recent_user : Type := {
  ru_id : string;
  ru_email : string;
  ru_created_at : Z;
  ru_last_login : option Z;
  ru_email_count : nat
}.

(** A row of [/top-users]. *)
Record top_user : Type := {
  tu_id : string;
  tu_email : string;
  tu_email_count : nat;
  tu_received_count : nat
}.

(** The object of [/lookup-temp-email]. *)
Record lookup : Type := {
  tempEmail : string;
  ownerEmail : option string;
  lk_created_at : Z;
  lk_expires_at : Z;
  isActive : bool
}.

Inductive json : Type :=
| error_ (error : string)
| statistics_ (s : statistics)
| recent_users_ (rows : list recent_user)
| top_users_ (rows : list top_user)
| lookup_ (row : lookup).

Record response : Type := { http_status : nat; payload : json }.

Definition Unauthorized : response :=
  {| http_status := 403; payload := error_ "Unauthorized" |}.
Definition ok (j : json) : response := {| http_status := 200; payload := j |}.

(** [req.headers['admin-access'] === process.env.ADMIN_PASSPHRASE] *)
Definition checkAdminPassphrase (E : env) (req : request) : bool :=
  option_eqb String.eqb (admin_access req) (ADMIN_PASSPHRASE E).

(** [SELECT COUNT( * ) ... WHERE ...] *)
Definition COUNT {A} (WHERE : A -> bool) (table : list A) : nat :=
  List.length (filter WHERE table).

(** [router.get('/stats')] *)
Definition get_stats (E : env) (req : request) (db : database) : response :=
  if negb (checkAdminPassphrase E req) then Unauthorized else
  ok (statistics_
        {| users_total := COUNT (fun _ => true) (users db);
           users_today :=
             COUNT (fun u => Z.eqb (DATE E (user_created_at u)) (DATE E (NOW E)))
                   (users db);
           tempEmails_total := COUNT (fun _ => true) (temp_emails db);
           tempEmails_active :=
             COUNT (fun t => Z.ltb (NOW E) (expires_at t)) (temp_emails db);
           receivedEmails_total := COUNT (fun _ => true) (received_emails db);
           receivedEmails_today :=
             COUNT (fun m => Z.eqb (DATE E (received_at m)) (DATE E (NOW E)))
                   (received_emails db) |}).

(** [te.user_id = u.id]: a [NULL] owner equals no id. *)
Definition owned_by (u : user) (t : temp_email) : bool :=
  option_eqb String.eqb (te_user_id t) (Some (user_id u)).

(** The select list of [/recent-users], with its counting subquery. *)
Definition recent_row (db : database) (u : user) : recent_user :=
  {| ru_id := user_id u; ru_email := user_email u;
     ru_created_at := user_created_at u; ru_last_login := last_login u;
     ru_email_count := COUNT (owned_by u) (temp_emails db) |}.

(** [router.get('/recent-users')]: [ORDER BY created_at DESC LIMIT 50] *)
Definition get_recent_users (E : env) (req : request) (db : database)
    : response :=
  if negb (checkAdminPassphrase E req) then Unauthorized else
  ok (recent_users_
        (firstn 50
           (ORDER_BY (fun a b => (ru_created_at b <=? ru_created_at a)%Z)
                     (map (recent_row db) (users db))))).

(** The rows that the two [LEFT JOIN]s of [/top-users] give for one user
    and one of the user's addresses: one row per mail the address has
    received, and one row with [NULL] for the mail when there is none. *)
Definition mails_of (db : database) (t : temp_email) : list received_email :=
  filter (fun m => String.eqb (te_id t) (temp_email_id m)) (received_emails db).

Definition joined_mails (db : database) (t : temp_email)
    : list (temp_email * option received_email) :=
  match mails_of db t with
  | [] => [(t, None)]
  | ms => map (fun m => (t, Some m)) ms
  end.

(** The joined rows of one user: the rows of each address of the user,
    and one row with [NULL] for address and mail when the user has no
    address. *)
Definition joined_rows (db : database) (u : user)
    : list (option temp_email * option received_email) :=
  match filter (owned_by u) (temp_emails db) with
  | [] => [(None, None)]
  | ts =>
      flat_map (fun t => map (fun tm => (Some (fst tm), snd tm))
                             (joined_mails db t)) ts
  end.

(** [COUNT(te.id)]: the rows in which the address is not [NULL]. *)
Definition count_addresses
    (rows : list (option temp_email * option received_email)) : nat :=
  List.length (filter (fun row => match fst row with Some _ => true | None => false end)
                      rows).

(** [COUNT(DISTINCT re.id)] *)
Definition count_distinct_mails
    (rows : list (option temp_email * option received_email)) : nat :=
  List.length
    (nodup string_dec
       (flat_map (fun row => match snd row with Some m => [re_id m] | None => [] end)
                 rows)).

Definition same_group (u v : user) : bool :=
  String.eqb (user_id u) (user_id v) && String.eqb (user_email u) (user_email v).

(** [GROUP BY u.id, u.email]: one group per pair that occurs, made of the
    joined rows of every user with that pair; groups are listed by their
    first user. *)
Fixpoint group_heads (seen : list user) (us : list user) : list user :=
  match us with
  | [] => []
  | u :: us' =>
      if existsb (same_group u) seen then group_heads seen us'
      else u :: group_heads (u :: seen) us'
  end.

Definition group_rows (db : database) (u : user)
    : list (option temp_email * option received_email) :=
  flat_map (joined_rows db) (filter (same_group u) (users db)).

Definition top_row (db : database) (u : user) : top_user :=
  {| tu_id := user_id u; tu_email := user_email u;
     tu_email_count := count_addresses (group_rows db u);
     tu_received_count := count_distinct_mails (group_rows db u) |}.

(** [router.get('/top-users')]: [ORDER BY email_count DESC LIMIT 20] *)
Definition get_top_users (E : env) (req : request) (db : database) : response :=
  if negb (checkAdminPassphrase E req) then Unauthorized else
  ok (top_users_
        (firstn 20
           (ORDER_BY (fun a b => (tu_email_count b <=? tu_email_count a)%nat)
                     (map (top_row db) (group_heads [] (users db)))))).

(** The rows of the query of [/lookup-temp-email]: each address with the
    given name joined to each user with the id of its owner, or to
    [NULL] when there is no such user. *)
Definition lookup_rows (E : env) (db : database) (email : string) : list lookup :=
  flat_map
    (fun t =>
       let row owner :=
         {| tempEmail := te_email t; ownerEmail := owner;
            lk_created_at := te_created_at t; lk_expires_at := expires_at t;
            isActive := Z.ltb (NOW E) (expires_at t) |} in
       match filter (fun u => owned_by u t) (users db) with
       | [] => [row None]
       | us => map (fun u => row (Some (user_email u))) us
       end)
    (filter (fun t => String.eqb (te_email t) email) (temp_emails db)).

Definition no_owner : string := "Public/Anonymous Email (No registered user)".

(** [router.get('/lookup-temp-email')] *)
Definition get_lookup_temp_email (E : env) (req : request) (db : database)
    : response :=
  if negb (checkAdminPassphrase E req) then Unauthorized else
  if falsy (query_email req) then
    {| http_status := 400; payload := error_ "Email parameter is required" |}
  else
    match lookup_rows E db (from_option "" (query_email req)) with
    | [] => {| http_status := 404; payload := error_ "Temporary email not found" |}
    | row :: _ =>
        ok (lookup_
              {| tempEmail := tempEmail row;
                 ownerEmail :=
                   if falsy (ownerEmail row) then Some no_owner
                   else ownerEmail row;
                 lk_created_at := lk_created_at row;
                 lk_expires_at := lk_expires_at row;
                 isActive := isActive row |})
    end.

(** What [email_count] of [/top-users] comes to for one user: for every
    address of the user, the number of mails it has received, or one
    when it has received none. *)
Definition counted_addresses (db : database) (u : user) : nat :=
  list_sum
    (map (fun t => Nat.max 1 (List.length (mails_of db t)))
         (filter (owned_by u) (temp_emails db))).

(** A database for the examples: one user with one address that has
    received three mails. *)
Definition busy_address : database :=
  {| users := [ {| user_id := "u1"; user_email := "ann@example.org";
                   user_created_at := 1; last_login := None |} ];
     temp_emails := [ {| te_id := "t1"; te_email := "x@tmp.example";
                         te_user_id := Some "u1"; te_created_at := 2;
                         expires_at := 100 |};
                      {| te_id := "t2"; te_email := "free@tmp.example";
                         te_user_id := None; te_created_at := 3;
                         expires_at := 5 |} ];
     received_emails := [ {| re_id := "m1"; temp_email_id := "t1"; received_at := 4 |};
                          {| re_id := "m2"; temp_email_id := "t1"; received_at := 5 |};
                          {| re_id := "m3"; temp_email_id := "t1"; received_at := 6 |} ] |}.

Definition at_time (t : Z) : env :=
  {| ADMIN_PASSPHRASE := Some "secret"; NOW := t; DATE := fun x => (x / 86400)%Z |}.

Definition as_admin (email : option string) : request :=
  {| admin_access := Some "secret"; query_email := email |}.

End Monitor.

(** The schemes that the first alternative of the module's URI pattern
    names: [(?:f|ht)tps?], [mailto], [tel], [callto], [cid], [xmpp],
    [xxx]. *)
Definition listed_schemes : list string :=
  ["ftp"; "ftps"; "http"; "https"; "mailto"; "tel"; "callto"; "cid"; "xmpp";
   "xxx"].

Definition starts_with_letter (s : string) : bool :=
  match s with
  | String c _ => is_letter c
  | EmptyString => false
  end.

(** ** The routes of the blog router

    Express tries the routes of a router in the order in which they were
    registered and runs the handler of the first one whose method and
    path match; no handler of this module hands the request on with
    [next()].  A path is given by its segments.  A literal segment of a
    route matches without regard to case, as routers do unless they are
    configured otherwise, and a parameter matches any segment. *)

Inductive method : Type := GET | POST | PUT | DEL | PATCH.

Definition method_eqb (a b : method) : bool :=
  match a, b with
  | GET, GET | POST, POST | PUT, PUT | DEL, DEL | PATCH, PATCH => true
  | _, _ => false
  end.

Inductive segment : Type :=
| Lit (s : string)
| Param.                             (* [:slug], [:id] *)

Inductive handler : Type :=
| h_post_posts
| h_get_posts
| h_get_post_by_slug
| h_put_post
| h_delete_post
| h_get_categories
| h_patch_post_status
| h_post_posts_reorder
| h_get_posts_featured
| h_get_posts_trending.

(** The ten calls of [router.post], [router.get], ... from top to bottom. *)
Definition routes : list (method * list segment * handler) :=
  [ (POST, [Lit "posts"], h_post_posts);
    (GET, [Lit "posts"], h_get_posts);
    (GET, [Lit "posts"; Param], h_get_post_by_slug);
    (PUT, [Lit "posts"; Param], h_put_post);
    (DEL, [Lit "posts"; Param], h_delete_post);
    (GET, [Lit "categories"], h_get_categories);
    (PATCH, [Lit "posts"; Param; Lit "status"], h_patch_post_status);
    (POST, [Lit "posts"; Lit "reorder"], h_post_posts_reorder);
    (GET, [Lit "posts"; Lit "featured"], h_get_posts_featured);
    (GET, [Lit "posts"; Lit "trending"], h_get_posts_trending) ].

(** Whether a path matches the path of a route, and the value of the
    parameter of the route if it has one. *)
Fixpoint matches (pattern : list segment) (path : list string)
    : option (option string) :=
  match pattern, path with
  | [], [] => Some None
  | Lit s :: pattern', x :: path' =>
      if String.eqb (lower_string x) s then matches pattern' path' else None
  | Param :: pattern', x :: path' =>
      match matches pattern' path' with
      | Some _ => Some (Some x)
      | None => None
      end
  | _, _ => None
  end.

(** The first route that matches, with the value of its parameter. *)
Fixpoint first_match (rs : list (method * list segment * handler))
    (m : method) (path : list string) : option (handler * option string) :=
  match rs with
  | [] => None
  | (m', pattern, h) :: rs' =>
      match (if method_eqb m m' then matches pattern path else None) with
      | Some p => Some (h, p)
      | None => first_match rs' m path
      end
  end.

Definition dispatch (m : method) (path : list string)
    : option (handler * option string) :=
  first_match routes m path.

Definition run (P : platform) (T : table_decl) (h : handler)
    : env -> request -> list post -> response * list post :=
  match h with
  | h_post_posts => post_posts P
  | h_get_posts => get_posts
  | h_get_post_by_slug => get_post_by_slug
  | h_put_post => put_post P T
  | h_delete_post => delete_post
  | h_get_categories => get_categories
  | h_patch_post_status => patch_post_status T
  | h_post_posts_reorder => post_posts_reorder T
  | h_get_posts_featured => get_posts_featured
  | h_get_posts_trending => get_posts_trending
  end.

(** What the router does with a request: the answer and the table of the
    handler of the first matching route, which finds the parameter of the
    route in [req.params]; nothing when no route matches. *)
Definition serve (P : platform) (T : table_decl) (E : env) (m : method)
    (path : list string) (req : request) (table : list post)
    : option (response * list post) :=
  match dispatch m path with
  | Some (h, p) => Some (run P T h E (with_params (from_option "" p) req) table)
  | None => None
  end.

(** The posts that an answer shows to the caller. *)
Definition shown (j : json) : list post :=
  match j with
  | posts_ rows => rows
  | post_ row => [row]
  | _ => []
  end.

(* ================================================================== *)
(** * Part II. Properties                                              *)
(* ================================================================== *)

(** ** Lists, [ORDER BY] *)

Section Ordering.

Variable A : Type.
Variable le : A -> A -> bool.
Hypothesis le_total : forall a b, le a b = true \/ le b a = true.

Lemma place_perm (x : A) (l : list A) : Permutation (place le x l) (x :: l).
Proof.
  induction l as [|y l IH]; simpl.
  - reflexivity.
  - destruct (le x y).
    + reflexivity.
    + rewrite IH. apply perm_swap.
Qed.

Lemma ORDER_BY_perm (l : list A) : Permutation (ORDER_BY le l) l.
Proof.
  induction l as [|x l IH]; simpl.
  - constructor.
  - unfold ORDER_BY in *. simpl. rewrite place_perm. now constructor.
Qed.

Lemma place_sorted (x : A) (l : list A) : Sorted (fun a b => le a b = true) l ->
  Sorted (fun a b => le a b = true) (place le x l).
Proof.
  induction 1 as [|y l Hs IH Hhd]; simpl.
  - repeat constructor.
  - destruct (le x y) eqn:Hxy.
    + constructor; [now constructor | now constructor].
    + constructor; [exact IH|].
      destruct (le_total x y) as [Hc|Hyx]; [congruence|].
      destruct l as [|z l]; simpl.
      * now constructor.
      * destruct (le x z); constructor; [exact Hyx | now inversion Hhd].
Qed.

Lemma ORDER_BY_sorted (l : list A) :
  Sorted (fun a b => le a b = true) (ORDER_BY le l).
Proof.
  induction l as [|x l IH]; unfold ORDER_BY in *; simpl.
  - constructor.
  - now apply place_sorted.
Qed.

Hypothesis le_trans : forall a b c, le a b = true -> le b c = true -> le a c = true.

Lemma ORDER_BY_strongly_sorted (l : list A) :
  StronglySorted (fun a b => le a b = true) (ORDER_BY le l).
Proof.
  apply Sorted_StronglySorted.
  - intros a b c. apply le_trans.
  - apply ORDER_BY_sorted.
Qed.

End Ordering.

Lemma asc_created_spec (col : post -> option Z) (p q : post) :
  order_asc_created_desc col p q = true <-> precedes col p q.
Proof.
  unfold order_asc_created_desc, precedes, asc, created_at_desc.
  destruct (col p) as [x|], (col q) as [y|]; simpl.
  - destruct (Z.compare_spec x y); rewrite ?Z.leb_le; split; intros; try lia; try discriminate.
  - split; [discriminate | contradiction].
  - tauto.
  - now rewrite Z.leb_le.
Qed.

Lemma precedes_total (col : post -> option Z) (p q : post) :
  precedes col p q \/ precedes col q p.
Proof.
  unfold precedes. destruct (col p), (col q); try tauto; lia.
Qed.

Lemma precedes_trans (col : post -> option Z) (p q r : post) :
  precedes col p q -> precedes col q r -> precedes col p r.
Proof.
  unfold precedes. destruct (col p), (col q), (col r); try tauto; lia.
Qed.

Lemma clause_sorted (col : post -> option Z) (l : list post) :
  StronglySorted (precedes col) (ORDER_BY (order_asc_created_desc col) l).
Proof.
  assert (H : StronglySorted (fun a b => order_asc_created_desc col a b = true)
                (ORDER_BY (order_asc_created_desc col) l)).
  { apply ORDER_BY_strongly_sorted.
    - intros a b. rewrite !asc_created_spec. apply precedes_total.
    - intros a b c. rewrite !asc_created_spec. apply precedes_trans. }
  induction H as [|a l' Hs IH Hall]; constructor; auto.
  eapply Forall_impl; [|exact Hall]. intros b. apply asc_created_spec.
Qed.

(** The handler registered for the featured listing, called on its own
    with three posts that have the order values 2, none, 1: the list
    starts with the post without an order value and is not in the order
    that puts such posts last. *)
Lemma featured_listing_puts_null_first :
  exists rows,
    get_posts_featured (at_time 100) (anonymous "") shelf = (ok (posts_ rows), shelf)
    /\ map featured_order rows = [None; Some 1%Z; Some 2%Z]
    /\ ~ StronglySorted (precedes_nulls_last featured_order) rows.
Proof.
  eexists. split; [reflexivity|]. split; [reflexivity|].
  intros H. inversion H as [|a l Hs Hall]; subst.
  inversion Hall as [|b l' Hb _]; subst. exact Hb.
Qed.

(** The two handlers, called on their own, return exactly the flagged
    posts, sorted by the order integer ascending with the posts that
    have no order value first, ties broken by [created_at] descending;
    three featured posts with the order values 2, none, 1 come back as
    none, 1, 2. *)
Lemma featured_trending_sorted (E : env) (req : request) (table : list post) :
  (exists rows,
      get_posts_featured E req table = (ok (posts_ rows), table)
      /\ Permutation rows (filter (flagged is_featured) table)
      /\ StronglySorted (precedes featured_order) rows)
  /\ (exists rows,
      get_posts_trending E req table = (ok (posts_ rows), table)
      /\ Permutation rows (filter (flagged is_trending) table)
      /\ StronglySorted (precedes trending_order) rows)
  /\ (exists rows,
      get_posts_featured E req shelf = (ok (posts_ rows), shelf)
      /\ map featured_order rows = [None; Some 1%Z; Some 2%Z]).
Proof.
  split; [|split].
  - eexists. split; [reflexivity|]. split.
    + apply ORDER_BY_perm.
    + apply clause_sorted.
  - eexists. split; [reflexivity|]. split.
    + apply ORDER_BY_perm.
    + apply clause_sorted.
  - eexists. split; reflexivity.
Qed.

(** C7: the sorted listings are not served.  The path of the featured
    and of the trending listing is answered by the slug lookup, which is
    registered first: for the three featured posts with the order
    values 2, none, 1 the answer is 404, where the claim has the three
    posts in the order 1, 2, none; no request for a path [/posts/x] is
    answered with a list.  The query of the featured handler would
    return the three posts as none, 1, 2. *)
Theorem ordered_listings_not_served (P : platform) (T : table_decl) (E : env)
    (req : request) :
  serve P T E GET ["posts"; "featured"] req shelf = Some (NotFound, shelf)
  /\ serve P T E GET ["posts"; "trending"] req shelf = Some (NotFound, shelf)
  /\ (forall table x rows,
        serve P T E GET ["posts"; x] req table <> Some (ok (posts_ rows), table))
  /\ map featured_order
         (shown (payload (fst (get_posts_featured E req shelf))))
     = [None; Some 1%Z; Some 2%Z].
Proof.
  split; [reflexivity|]. split; [reflexivity|]. split; [|reflexivity].
  intros table x rows.
  change (serve P T E GET ["posts"; x] req table)
    with (Some (get_post_by_slug E (with_params x req) table)).
  unfold get_post_by_slug. destruct (SELECT _ table); intros H; discriminate H.
Qed.

(** ** Queries *)

Lemma filter_none {A} (f : A -> bool) (l : list A) :
  (forall x, In x l -> f x = false) -> filter f l = [].
Proof.
  induction l as [|x l IH]; simpl; intros H; [reflexivity|].
  rewrite (H x) by now left. apply IH. intros y Hy. apply H. now right.
Qed.

Lemma filter_some {A} (f : A -> bool) (l : list A) (x : A) :
  In x l -> f x = true -> exists y l', filter f l = y :: l'.
Proof.
  intros Hin Hf. destruct (filter f l) as [|y l'] eqn:E; [|eauto].
  assert (H : In x (filter f l)) by (apply filter_In; auto).
  rewrite E in H. destruct H.
Qed.

Lemma UPDATE_no_match (T : table_decl) (now : Z) (a : bool)
    (SET : post -> post) (WHERE : post -> bool) (table : list post) :
  (forall r, In r table -> WHERE r = false) ->
  UPDATE T now a SET WHERE table = table.
Proof.
  unfold UPDATE. induction table as [|r table IH]; simpl; intros H; [reflexivity|].
  rewrite (H r) by now left. f_equal. apply IH. intros r' Hr'. apply H. now right.
Qed.

Lemma has_id_true (i : string) (r : post) : has_id i r = true <-> id r = i.
Proof. unfold has_id. apply String.eqb_eq. Qed.

Lemma has_id_false (i : string) (r : post) : has_id i r = false <-> id r <> i.
Proof. unfold has_id. apply String.eqb_neq. Qed.

Lemma has_slug_true (s : string) (r : post) : has_slug s r = true <-> slug r = s.
Proof. unfold has_slug. apply String.eqb_eq. Qed.

Lemma has_slug_false (s : string) (r : post) : has_slug s r = false <-> slug r <> s.
Proof. unfold has_slug. apply String.eqb_neq. Qed.

(** ** Visibility of drafts (C1) *)

(** Without the admin header, the post listing returns published posts
    only. *)
Lemma get_posts_published_only (E : env) (req : request) (table : list post) :
  checkAdminPassphrase E req = false ->
  exists rows, get_posts E req table = (ok (posts_ rows), table)
               /\ Forall (fun r => published r = true) rows.
Proof.
  intros Hno. unfold get_posts. rewrite Hno. simpl. eexists. split; [reflexivity|].
  eapply Permutation_Forall.
  - symmetry. apply ORDER_BY_perm.
  - apply Forall_forall. intros r Hr. now apply filter_In in Hr.
Qed.

(** Without the admin header, the slug lookup answers [NotFound] or with a
    published post. *)
Lemma get_post_by_slug_published_only (E : env) (req : request) (table : list post) :
  checkAdminPassphrase E req = false ->
  get_post_by_slug E req table = (NotFound, table)
  \/ exists r, get_post_by_slug E req table = (ok (post_ r), table)
               /\ In r table /\ slug r = params req /\ published r = true.
Proof.
  intros Hno. unfold get_post_by_slug, SELECT. rewrite Hno. simpl.
  destruct (filter _ table) as [|r rows] eqn:Hsel; [now left|right].
  exists r. split; [reflexivity|].
  assert (Hin : In r (filter (fun r => has_slug (params req) r && published r) table))
    by (rewrite Hsel; now left).
  apply filter_In in Hin. destruct Hin as [Hin Hc].
  apply andb_true_iff in Hc. destruct Hc as [Hs Hp].
  apply has_slug_true in Hs. auto.
Qed.

(** Without the admin header, the category listing names categories of
    published posts only. *)
Lemma get_categories_published_only (E : env) (req : request) (table : list post) :
  checkAdminPassphrase E req = false ->
  exists names, get_categories E req table = (ok (categories_ names), table)
    /\ forall c, In c names ->
         exists r, In r table /\ published r = true /\ category r = c.
Proof.
  intros Hno. unfold get_categories, SELECT. rewrite Hno. simpl.
  eexists. split; [reflexivity|]. intros c Hc.
  apply (Permutation_in _ (ORDER_BY_perm _ String.leb _)) in Hc.
  apply nodup_In in Hc. apply in_map_iff in Hc. destruct Hc as [r [Hcat Hr]].
  apply filter_In in Hr. exists r. tauto.
Qed.

(** The featured listing returns every post whose featured flag is set,
    whatever its status and whoever asks. *)
Lemma get_posts_featured_any_status (E : env) (req : request)
    (table : list post) (r : post) :
  In r table -> is_featured r = Some true ->
  exists rows, get_posts_featured E req table = (ok (posts_ rows), table)
               /\ In r rows.
Proof.
  intros Hin Hf. eexists. split; [reflexivity|].
  apply (Permutation_in _ (Permutation_sym (ORDER_BY_perm _ _ _))).
  apply filter_In. split; [exact Hin|]. unfold flagged. now rewrite Hf.
Qed.

Lemma get_posts_trending_any_status (E : env) (req : request)
    (table : list post) (r : post) :
  In r table -> is_trending r = Some true ->
  exists rows, get_posts_trending E req table = (ok (posts_ rows), table)
               /\ In r rows.
Proof.
  intros Hin Hf. eexists. split; [reflexivity|].
  apply (Permutation_in _ (Permutation_sym (ORDER_BY_perm _ _ _))).
  apply filter_In. split; [exact Hin|]. unfold flagged. now rewrite Hf.
Qed.

(** The two handlers, called on their own, hand a draft to a caller
    without the admin header.  No request reaches them, see below. *)
Lemma featured_trending_handlers_show_draft :
  checkAdminPassphrase (at_time 100) (anonymous "") = false
  /\ published hidden_draft = false
  /\ get_posts_featured (at_time 100) (anonymous "") [hidden_draft]
     = (ok (posts_ [hidden_draft]), [hidden_draft])
  /\ get_posts_trending (at_time 100) (anonymous "") [hidden_draft]
     = (ok (posts_ [hidden_draft]), [hidden_draft]).
Proof. repeat split. Qed.

(** The route [/posts/:slug] is registered before [/posts/featured] and
    [/posts/trending], so the router selects neither of the two handlers
    for any request. *)
Lemma dispatch_never_lists (m : method) (path : list string) (h : handler)
    (p : option string) :
  dispatch m path = Some (h, p) ->
  h <> h_get_posts_featured /\ h <> h_get_posts_trending.
Proof.
  unfold dispatch, routes.
  destruct path as [|a [|b [|c [|d l]]]]; destruct m;
    cbn [first_match method_eqb matches];
    repeat match goal with
           | |- context [String.eqb ?x ?y] => destruct (String.eqb x y)
           end;
    intros H; first [discriminate H | injection H as <- _; split; discriminate].
Qed.

(** What a caller without the admin header gets from a handler that the
    router can select. *)
Lemma handler_shows_no_draft (P : platform) (T : table_decl) (E : env)
    (h : handler) (req : request) (table : list post) :
  checkAdminPassphrase E req = false ->
  h <> h_get_posts_featured -> h <> h_get_posts_trending ->
  snd (run P T h E req table) = table
  /\ (forall r, In r (shown (payload (fst (run P T h E req table)))) ->
                In r table /\ published r = true)
  /\ (forall names c,
        payload (fst (run P T h E req table)) = categories_ names ->
        In c names ->
        exists r, In r table /\ published r = true /\ category r = c).
Proof.
  intros Hno Hf Ht.
  assert (Hrefused : forall x : response * list post,
            x = (Unauthorized, table) ->
            snd x = table
            /\ (forall r, In r (shown (payload (fst x))) ->
                          In r table /\ published r = true)
            /\ (forall names c, payload (fst x) = categories_ names ->
                               In c names ->
                               exists r, In r table /\ published r = true
                                         /\ category r = c)).
  { intros x ->. split; [reflexivity|]. split.
    - intros r [].
    - intros names c H. discriminate H. }
  destruct h; cbn [run]; try (now contradiction);
    try (apply Hrefused;
         unfold post_posts, put_post, delete_post, patch_post_status,
           post_posts_reorder;
         now rewrite Hno).
  - unfold get_posts. rewrite Hno. cbn [negb fst snd payload ok shown].
    split; [reflexivity|]. split.
    + intros r Hr. apply (Permutation_in _ (ORDER_BY_perm _ _ _)) in Hr.
      unfold SELECT in Hr. now apply filter_In in Hr.
    + intros names c H. discriminate H.
  - destruct (get_post_by_slug_published_only E req table Hno)
      as [->|[r [-> [Hin [_ Hp]]]]].
    + split; [reflexivity|]. split; [intros r [] | intros names c H; discriminate H].
    + split; [reflexivity|]. split.
      * cbn [fst snd payload ok shown]. intros r' [<-|[]]. now split.
      * intros names c H. discriminate H.
  - destruct (get_categories_published_only E req table Hno) as [names [-> Hall]].
    split; [reflexivity|]. split; [intros r []|].
    cbn [fst payload ok]. intros names' c H. injection H as <-. apply Hall.
Qed.

(** C1: whatever a caller without the admin header requests, the answer
    shows no post that is not published and names no category but those
    of published posts, and the table stays as it is.  The post
    listing, the slug lookup and the category listing are the handlers
    that answer the read paths; the paths of the featured and of the
    trending listing are answered by the slug lookup. *)
Theorem anonymous_requests_see_no_draft (P : platform) (T : table_decl)
    (E : env) (m : method) (path : list string) (req : request)
    (table : list post) :
  checkAdminPassphrase E req = false ->
  (forall answer table',
     serve P T E m path req table = Some (answer, table') ->
     table' = table
     /\ (forall r, In r (shown (payload answer)) ->
                   In r table /\ published r = true)
     /\ (forall names c, payload answer = categories_ names -> In c names ->
                         exists r, In r table /\ published r = true
                                   /\ category r = c))
  /\ serve P T E GET ["posts"] req table
     = Some (get_posts E (with_params "" req) table)
  /\ serve P T E GET ["categories"] req table
     = Some (get_categories E (with_params "" req) table)
  /\ (forall x, serve P T E GET ["posts"; x] req table
                = Some (get_post_by_slug E (with_params x req) table)).
Proof.
  intros Hno. split; [|repeat split].
  intros answer table' H. unfold serve in H.
  destruct (dispatch m path) as [[h p]|] eqn:Hd; [|discriminate H].
  destruct (dispatch_never_lists m path h p Hd) as [Hf Ht].
  pose proof (handler_shows_no_draft P T E h
                (with_params (from_option "" p) req) table Hno Hf Ht) as Hh.
  injection H as H. rewrite H in Hh. exact Hh.
Qed.

Lemma anonymous_requests_see_no_draft_witness :
  let serve_ := serve sample_platform plain_table (at_time 100) in
  (forall answer table',
     serve_ GET ["posts"; "featured"] (anonymous "") [hidden_draft]
     = Some (answer, table') ->
     table' = [hidden_draft]
     /\ (forall r, In r (shown (payload answer)) ->
                   In r [hidden_draft] /\ published r = true)
     /\ (forall names c, payload answer = categories_ names -> In c names ->
                         exists r, In r [hidden_draft] /\ published r = true
                                   /\ category r = c))
  /\ serve_ GET ["posts"] (anonymous "") [hidden_draft]
     = Some (get_posts (at_time 100) (with_params "" (anonymous "")) [hidden_draft])
  /\ serve_ GET ["categories"] (anonymous "") [hidden_draft]
     = Some (get_categories (at_time 100) (with_params "" (anonymous ""))
               [hidden_draft])
  /\ (forall x, serve_ GET ["posts"; x] (anonymous "") [hidden_draft]
                = Some (get_post_by_slug (at_time 100)
                          (with_params x (anonymous "")) [hidden_draft])).
Proof.
  intros serve_.
  apply (anonymous_requests_see_no_draft sample_platform plain_table
           (at_time 100) GET ["posts"; "featured"] (anonymous "") [hidden_draft]).
  reflexivity.
Defined.

(** ** Slugs in create and update (C5, C6) *)

Example slugify_hello : slugify "Hello, World!" = "hello-world".
Proof. reflexivity. Qed.

Example slugify_punctuation : slugify "  ---  " = "".
Proof. reflexivity. Qed.

Section Slugs.

Variable P : platform.
Variable T : table_decl.
Variable E : env.
Variable req : request.
Variable table : list post.

Hypothesis admin : checkAdminPassphrase E req = true.
Hypothesis required :
  falsy (b_title (req_body req)) || falsy (b_content (req_body req))
  || falsy (b_category (req_body req)) = false.

Lemma create_duplicate :
  (exists r, In r table /\ slug r = slugify (text (b_title (req_body req)))) ->
  post_posts P E req table = (DuplicateSlug, table).
Proof.
  intros [r [Hin Hs]]. unfold post_posts. rewrite admin, required. simpl.
  destruct (filter_some (has_slug (slugify (text (b_title (req_body req))))) table r Hin)
    as [y [l' Hsel]]; [now apply has_slug_true|].
  unfold SELECT. now rewrite Hsel.
Qed.

Lemma create_fresh :
  (forall r, In r table -> slug r <> slugify (text (b_title (req_body req)))) ->
  exists row,
    post_posts P E req table
    = (ok (created_ "Blog post created successfully" (uuidv4 E)
                    (slugify (text (b_title (req_body req))))),
       table ++ [row])
    /\ id row = uuidv4 E
    /\ slug row = slugify (text (b_title (req_body req)))
    /\ content row = sanitizeContent P (text (b_content (req_body req)))
    /\ created_at row = NOW E /\ updated_at row = NOW E.
Proof.
  intros Hfresh. unfold post_posts. rewrite admin, required. simpl.
  unfold SELECT. rewrite filter_none.
  - eexists. split; [reflexivity|]. simpl. auto.
  - intros r Hr. apply has_slug_false. now apply Hfresh.
Qed.

Lemma update_missing :
  (forall r, In r table -> id r <> params req) ->
  put_post P T E req table = (NotFound, table).
Proof.
  intros Hnone. unfold put_post. rewrite admin, required. simpl.
  unfold SELECT. rewrite filter_none; [reflexivity|].
  intros r Hr. apply has_id_false. now apply Hnone.
Qed.

Lemma update_duplicate :
  (exists r, In r table /\ id r = params req) ->
  (exists r, In r table /\ slug r = slugify (text (b_title (req_body req)))
             /\ id r <> params req) ->
  put_post P T E req table = (DuplicateSlug, table).
Proof.
  intros [r [Hin Hid]] [r' [Hin' [Hs Hother]]].
  unfold put_post. rewrite admin, required. simpl. unfold SELECT.
  destruct (filter_some (has_id (params req)) table r Hin) as [y [l Hsel]];
    [now apply has_id_true|]. rewrite Hsel.
  destruct (filter_some
              (fun r => has_slug (slugify (text (b_title (req_body req)))) r
                        && negb (has_id (params req) r)) table r' Hin')
    as [y' [l' Hsel']].
  - apply andb_true_iff. split; [now apply has_slug_true|].
    apply negb_true_iff. now apply has_id_false.
  - now rewrite Hsel'.
Qed.

Lemma update_accepted :
  (exists r, In r table /\ id r = params req) ->
  (forall r, In r table -> slug r = slugify (text (b_title (req_body req))) ->
             id r = params req) ->
  put_post P T E req table
  = (ok (updated_ "Blog post updated successfully"
                  (slugify (text (b_title (req_body req))))),
     UPDATE T (NOW E) true
            (put_assignments E (req_body req)
               (slugify (text (b_title (req_body req))))
               (sanitizeContent P (text (b_content (req_body req)))))
            (has_id (params req)) table).
Proof.
  intros [r [Hin Hid]] Hown.
  unfold put_post. rewrite admin, required. simpl. unfold SELECT.
  destruct (filter_some (has_id (params req)) table r Hin) as [y [l Hsel]];
    [now apply has_id_true|]. rewrite Hsel.
  rewrite filter_none; [reflexivity|].
  intros r' Hr'. apply andb_false_iff.
  destruct (String.eqb_spec (slug r') (slugify (text (b_title (req_body req)))))
    as [Hs|Hs].
  - right. apply negb_false_iff. apply has_id_true. now apply Hown.
  - left. now apply has_slug_false.
Qed.

End Slugs.

(** Create and update with a required field missing or empty. *)
Lemma required_fields (P : platform) (T : table_decl) (E : env) (req : request)
    (table : list post) :
  checkAdminPassphrase E req = true ->
  falsy (b_title (req_body req)) || falsy (b_content (req_body req))
  || falsy (b_category (req_body req)) = true ->
  post_posts P E req table = (ValidationError, table)
  /\ put_post P T E req table = (ValidationError, table).
Proof.
  intros Ha Hf. unfold post_posts, put_post. now rewrite Ha, Hf.
Qed.

(** C5: with the required fields present, create answers [DuplicateSlug]
    when some post owns the slug of the title; update of an existing post
    answers [DuplicateSlug] when a post with another id owns the slug of
    the new title, and succeeds, in a table with unique slugs, when that
    slug is the one the updated post has. *)
Theorem slug_uniqueness_enforced (P : platform) (T : table_decl) (E : env)
    (req : request) (table : list post) :
  checkAdminPassphrase E req = true ->
  falsy (b_title (req_body req)) || falsy (b_content (req_body req))
  || falsy (b_category (req_body req)) = false ->
  let s := slugify (text (b_title (req_body req))) in
  ((exists r, In r table /\ slug r = s) ->
   post_posts P E req table = (DuplicateSlug, table))
  /\ ((exists r, In r table /\ id r = params req) ->
      (exists r, In r table /\ slug r = s /\ id r <> params req) ->
      put_post P T E req table = (DuplicateSlug, table))
  /\ (unique_slugs table ->
      (exists r, In r table /\ id r = params req /\ slug r = s) ->
      put_post P T E req table
      = (ok (updated_ "Blog post updated successfully" s),
         UPDATE T (NOW E) true
                (put_assignments E (req_body req) s
                   (sanitizeContent P (text (b_content (req_body req)))))
                (has_id (params req)) table)).
Proof.
  intros Ha Hreq s. split; [|split].
  - now apply create_duplicate.
  - now apply update_duplicate.
  - intros Huniq [r [Hin [Hid Hs]]]. apply update_accepted; auto.
    + exists r. auto.
    + intros r' Hin' Hs'. rewrite <- Hid. apply Huniq; auto.
      unfold s in Hs. congruence.
Qed.

Lemma slug_uniqueness_enforced_witness :
  let table := [ stored "a" "hello-world" "draft" false false None None 1;
                 stored "b" "second-post" "draft" false false None None 2 ] in
  post_posts sample_platform (at_time 9)
             (as_admin "" (fields "Hello, World!" "text" "news")) table
  = (DuplicateSlug, table)
  /\ put_post sample_platform plain_table (at_time 9)
              (as_admin "b" (fields "Hello World" "text" "news")) table
     = (DuplicateSlug, table)
  /\ fst (put_post sample_platform plain_table (at_time 9)
                   (as_admin "a" (fields "HELLO world" "text" "news")) table)
     = ok (updated_ "Blog post updated successfully" "hello-world").
Proof.
  intros table. split; [|split].
  - apply (slug_uniqueness_enforced sample_platform plain_table (at_time 9)
             (as_admin "" (fields "Hello, World!" "text" "news")) table);
      [reflexivity | reflexivity |].
    exists (stored "a" "hello-world" "draft" false false None None 1).
    split; [now left | reflexivity].
  - apply (slug_uniqueness_enforced sample_platform plain_table (at_time 9)
             (as_admin "b" (fields "Hello World" "text" "news")) table);
      [reflexivity | reflexivity | |].
    + exists (stored "b" "second-post" "draft" false false None None 2).
      split; [right; now left | reflexivity].
    + exists (stored "a" "hello-world" "draft" false false None None 1).
      split; [now left | split; [reflexivity | discriminate]].
  - rewrite (proj2 (proj2 (slug_uniqueness_enforced sample_platform plain_table
               (at_time 9) (as_admin "a" (fields "HELLO world" "text" "news"))
               table eq_refl eq_refl))).
    + reflexivity.
    + intros r1 r2 [H1|[H1|[]]] [H2|[H2|[]]]; subst r1 r2; simpl;
        intros H; try reflexivity; discriminate H.
    + exists (stored "a" "hello-world" "draft" false false None None 1).
      split; [now left | split; reflexivity].
Defined.

(** C6, as stated, fails: a title of punctuation is not empty, its slug
    is, and create answers with success and stores the post under the
    empty slug; update does the same to an existing post. *)
Lemma empty_slug_is_persisted :
  let create := as_admin "" (fields "  ---  " "text" "news") in
  let update := as_admin "a" (fields "!!!" "text" "news") in
  let table := [stored "a" "first" "draft" false false None None 1] in
  falsy (b_title (req_body create)) = false
  /\ slugify (text (b_title (req_body create))) = ""
  /\ fst (post_posts sample_platform (at_time 9) create [])
     = ok (created_ "Blog post created successfully" "uuid-1" "")
  /\ fst (post_posts sample_platform (at_time 9) create []) <> ValidationError
  /\ map slug (snd (post_posts sample_platform (at_time 9) create [])) = [""]
  /\ fst (put_post sample_platform plain_table (at_time 9) update table)
     = ok (updated_ "Blog post updated successfully" "")
  /\ map slug (snd (put_post sample_platform plain_table (at_time 9) update table))
     = [""].
Proof.
  cbv zeta. repeat split; try reflexivity. discriminate.
Qed.

(** C6 (amended): create and update fail with [ValidationError], leaving
    the table as it is, when the title, the content or the category is
    missing or empty.  A title that is not empty and has an empty slug
    passes that check: when no post has the empty slug, create stores
    the post under it; when no other post has it, update writes it. *)
Theorem validation_is_on_fields (P : platform) (T : table_decl) (E : env)
    (req : request) (table : list post) :
  checkAdminPassphrase E req = true ->
  let b := req_body req in
  (falsy (b_title b) || falsy (b_content b) || falsy (b_category b) = true ->
   post_posts P E req table = (ValidationError, table)
   /\ put_post P T E req table = (ValidationError, table))
  /\ (falsy (b_title b) || falsy (b_content b) || falsy (b_category b) = false ->
      slugify (text (b_title b)) = "" ->
      ((forall r, In r table -> slug r <> "") ->
       exists row,
         post_posts P E req table
         = (ok (created_ "Blog post created successfully" (uuidv4 E) ""),
            table ++ [row])
         /\ slug row = "")
      /\ ((exists r, In r table /\ id r = params req) ->
          (forall r, In r table -> slug r = "" -> id r = params req) ->
          put_post P T E req table
          = (ok (updated_ "Blog post updated successfully" ""),
             UPDATE T (NOW E) true
                    (put_assignments E b ""
                       (sanitizeContent P (text (b_content b))))
                    (has_id (params req)) table))).
Proof.
  intros Ha b. split.
  - intros Hf. now apply required_fields.
  - intros Hf Hslug. split.
    + intros Hfree.
      destruct (create_fresh P E req table Ha Hf) as [row [Hrun [_ [Hs _]]]].
      * fold b. now rewrite Hslug.
      * fold b in Hrun, Hs. rewrite Hslug in Hrun, Hs. eauto.
    + intros Hex Hown.
      pose proof (update_accepted P T E req table Ha Hf Hex) as Hrun.
      fold b in Hrun. rewrite Hslug in Hrun. now apply Hrun.
Qed.

Lemma validation_is_on_fields_witness :
  let table := [stored "a" "first" "draft" false false None None 1] in
  (post_posts sample_platform (at_time 9)
              (as_admin "a" (fields "" "text" "news")) table
   = (ValidationError, table)
   /\ put_post sample_platform plain_table (at_time 9)
               (as_admin "a" (fields "" "text" "news")) table
      = (ValidationError, table))
  /\ (exists row,
        post_posts sample_platform (at_time 9)
                   (as_admin "a" (fields "  ---  " "text" "news")) table
        = (ok (created_ "Blog post created successfully" "uuid-1" ""),
           table ++ [row])
        /\ slug row = "")
  /\ fst (put_post sample_platform plain_table (at_time 9)
                   (as_admin "a" (fields "  ---  " "text" "news")) table)
     = ok (updated_ "Blog post updated successfully" "").
Proof.
  intros table. split; [|split].
  - apply (validation_is_on_fields sample_platform plain_table (at_time 9)
             (as_admin "a" (fields "" "text" "news")) table eq_refl).
    reflexivity.
  - apply (validation_is_on_fields sample_platform plain_table (at_time 9)
             (as_admin "a" (fields "  ---  " "text" "news")) table eq_refl);
      [reflexivity | reflexivity |].
    intros r [Hr|[]]; subst r; discriminate.
  - rewrite (proj2 (proj2 (validation_is_on_fields sample_platform plain_table
               (at_time 9) (as_admin "a" (fields "  ---  " "text" "news"))
               table eq_refl) eq_refl eq_refl)).
    + reflexivity.
    + exists (stored "a" "first" "draft" false false None None 1).
      split; [now left | reflexivity].
    + intros r [Hr|[]]; subst r; simpl; intros H; discriminate H.
Defined.

(** *** The handlers keep slugs unique *)

Lemma filter_nil_inv {A} (f : A -> bool) (l : list A) :
  filter f l = [] -> forall x, In x l -> f x = false.
Proof.
  intros H x Hin. destruct (f x) eqn:Hf; [|reflexivity].
  assert (Hx : In x (filter f l)) by (apply filter_In; auto).
  rewrite H in Hx. destruct Hx.
Qed.

Lemma create_keeps_unique_slugs (P : platform) (E : env) (req : request)
    (table : list post) :
  unique_slugs table -> unique_slugs (snd (post_posts P E req table)).
Proof.
  intros Hu. unfold post_posts. destruct (negb _); [exact Hu|].
  destruct (_ || _); [exact Hu|].
  destruct (SELECT _ table) eqn:Hsel; [|exact Hu]. simpl. unfold INSERT.
  pose proof (filter_nil_inv _ _ Hsel) as Hfree.
  intros r1 r2 H1 H2 Hs. apply in_app_iff in H1. apply in_app_iff in H2.
  destruct H1 as [H1|[<-|[]]], H2 as [H2|[<-|[]]]; simpl in *.
  - now apply Hu.
  - apply Hfree in H1. apply has_slug_false in H1. contradiction.
  - apply Hfree in H2. apply has_slug_false in H2. congruence.
  - reflexivity.
Qed.

Lemma update_keeps_unique_slugs (P : platform) (T : table_decl) (E : env)
    (req : request) (table : list post) :
  unique_slugs table -> unique_slugs (snd (put_post P T E req table)).
Proof.
  intros Hu. unfold put_post. destruct (negb _); [exact Hu|].
  destruct (_ || _); [exact Hu|].
  destruct (SELECT (has_id _) table); [exact Hu|].
  destruct (SELECT _ table) eqn:Hsel; [|exact Hu]. simpl.
  pose proof (filter_nil_inv _ _ Hsel) as Hfree. unfold UPDATE.
  intros r1' r2' H1 H2 Hs.
  apply in_map_iff in H1. destruct H1 as [r1 [<- H1]].
  apply in_map_iff in H2. destruct H2 as [r2 [<- H2]].
  rewrite andb_false_r in *. cbv iota in *.
  pose proof (Hfree r1 H1) as F1. pose proof (Hfree r2 H2) as F2. cbv beta in F1, F2.
  destruct (has_id (params req) r1) eqn:I1, (has_id (params req) r2) eqn:I2;
    simpl in *.
  - apply has_id_true in I1. apply has_id_true in I2. congruence.
  - rewrite andb_true_r in F2. apply has_slug_false in F2. congruence.
  - rewrite andb_true_r in F1. apply has_slug_false in F1. congruence.
  - now apply Hu.
Qed.

Lemma delete_keeps_unique_slugs (E : env) (req : request) (table : list post) :
  unique_slugs table -> unique_slugs (snd (delete_post E req table)).
Proof.
  intros Hu. unfold delete_post. destruct (negb _); [exact Hu|].
  destruct (SELECT _ table); [exact Hu|]. simpl. unfold DELETE.
  intros r1 r2 H1 H2. apply filter_In in H1. apply filter_In in H2.
  apply Hu; tauto.
Qed.

(** ** Flags and order values (C9, C10) *)

(** C9: with the admin header, a status request whose id no post has
    is answered with success, not with [NotFound], and the table is
    left as it was. *)
Theorem setFlags_without_existence_check (T : table_decl) (E : env)
    (req : request) (table : list post) :
  checkAdminPassphrase E req = true ->
  (forall r, In r table -> id r <> params req) ->
  patch_post_status T E req table
  = (ok (message_ "Post status updated successfully"), table)
  /\ fst (patch_post_status T E req table) <> NotFound.
Proof.
  intros Ha Hnone. unfold patch_post_status. rewrite Ha. simpl.
  rewrite UPDATE_no_match.
  - split; [reflexivity | discriminate].
  - intros r Hr. apply has_id_false. now apply Hnone.
Qed.

Lemma setFlags_without_existence_check_witness :
  let table := [stored "a" "first" "draft" false false None None 1] in
  patch_post_status auto_table (at_time 9)
    (as_admin "zz" (flags (Some true) (Some true) (Some 1%Z) None)) table
  = (ok (message_ "Post status updated successfully"), table)
  /\ fst (patch_post_status auto_table (at_time 9)
            (as_admin "zz" (flags (Some true) (Some true) (Some 1%Z) None)) table)
     <> NotFound.
Proof.
  intros table.
  apply (setFlags_without_existence_check auto_table (at_time 9)
           (as_admin "zz" (flags (Some true) (Some true) (Some 1%Z) None)) table).
  - reflexivity.
  - intros r [Hr|[]]; subst r; discriminate.
Defined.

Section Columns.

Variable T : table_decl.
Variable E : env.

Lemma reorder_loop_rows (f : order_column) (posts : list entry) (table : list post) :
  reorder_loop T E f posts table
  = map (fun r => fold_left (reorder_step T E f) posts r) table.
Proof.
  unfold reorder_loop. revert table.
  induction posts as [|e posts IH]; intros table; simpl.
  - now rewrite map_id.
  - rewrite IH. unfold UPDATE. rewrite map_map. reflexivity.
Qed.

Lemma reorder_step_id (f : order_column) (r : post) (e : entry) :
  id (reorder_step T E f r e) = id r.
Proof.
  unfold reorder_step. destruct (has_id _ r); [|reflexivity].
  destruct (_ && _); reflexivity.
Qed.

Lemma reorder_step_written (f : order_column) (r : post) (e : entry) :
  match f with
  | featured_order_col =>
      featured_order (reorder_step T E f r e)
      = (if String.eqb (id r) (entry_id e) then entry_order e else featured_order r)
      /\ trending_order (reorder_step T E f r e) = trending_order r
  | trending_order_col =>
      trending_order (reorder_step T E f r e)
      = (if String.eqb (id r) (entry_id e) then entry_order e else trending_order r)
      /\ featured_order (reorder_step T E f r e) = featured_order r
  end.
Proof.
  unfold reorder_step, has_id.
  destruct f; destruct (String.eqb (id r) (entry_id e)); simpl;
    try (destruct (_ && _)); simpl; auto.
Qed.

Lemma reorder_rows_featured (posts : list entry) (r : post) :
  id (fold_left (reorder_step T E featured_order_col) posts r) = id r
  /\ featured_order (fold_left (reorder_step T E featured_order_col) posts r)
     = last_order posts (id r) (featured_order r)
  /\ trending_order (fold_left (reorder_step T E featured_order_col) posts r)
     = trending_order r.
Proof.
  unfold last_order. revert r.
  induction posts as [|e posts IH]; intros r; simpl; [auto|].
  destruct (IH (reorder_step T E featured_order_col r e)) as [Hi [Hf Ht]].
  destruct (reorder_step_written featured_order_col r e) as [Hf' Ht'].
  rewrite Hi, Hf, Ht, reorder_step_id, Hf', Ht'. auto.
Qed.

Lemma reorder_rows_trending (posts : list entry) (r : post) :
  id (fold_left (reorder_step T E trending_order_col) posts r) = id r
  /\ trending_order (fold_left (reorder_step T E trending_order_col) posts r)
     = last_order posts (id r) (trending_order r)
  /\ featured_order (fold_left (reorder_step T E trending_order_col) posts r)
     = featured_order r.
Proof.
  unfold last_order. revert r.
  induction posts as [|e posts IH]; intros r; simpl; [auto|].
  destruct (IH (reorder_step T E trending_order_col r e)) as [Hi [Hf Ht]].
  destruct (reorder_step_written trending_order_col r e) as [Hf' Ht'].
  rewrite Hi, Hf, Ht, reorder_step_id, Hf', Ht'. auto.
Qed.

End Columns.

Lemma orderField_trending (type : option string) :
  orderField type = trending_order_col <-> type = Some "trending".
Proof.
  unfold orderField. destruct type as [s|]; simpl.
  - destruct (String.eqb_spec s "trending") as [->|Hne]; split;
      intros H; try reflexivity; try discriminate. congruence.
  - split; discriminate.
Qed.

(** C10: a reorder request writes the order values of its entries into
    [trending_order], leaving [featured_order] alone, when its type is
    the string trending; with any other type, or none, it writes them
    into [featured_order] and leaves [trending_order] alone. *)
Theorem reorder_selects_column (T : table_decl) (E : env) (req : request)
    (table : list post) (posts : list entry) :
  checkAdminPassphrase E req = true ->
  b_posts (req_body req) = Some posts ->
  let table' := snd (post_posts_reorder T E req table) in
  fst (post_posts_reorder T E req table)
  = ok (message_ "Posts reordered successfully")
  /\ (b_type (req_body req) = Some "trending" ->
      map trending_order table'
      = map (fun r => last_order posts (id r) (trending_order r)) table
      /\ map featured_order table' = map featured_order table)
  /\ (b_type (req_body req) <> Some "trending" ->
      map featured_order table'
      = map (fun r => last_order posts (id r) (featured_order r)) table
      /\ map trending_order table' = map trending_order table).
Proof.
  intros Ha Hposts. unfold post_posts_reorder. rewrite Ha, Hposts. simpl.
  split; [reflexivity|]. split.
  - intros Ht. apply orderField_trending in Ht. rewrite Ht.
    rewrite reorder_loop_rows, !map_map. split; apply map_ext; intros r;
      now destruct (reorder_rows_trending T E posts r) as [_ [? ?]].
  - intros Ht. destruct (orderField (b_type (req_body req))) eqn:Hf.
    + rewrite reorder_loop_rows, !map_map. split; apply map_ext; intros r;
        now destruct (reorder_rows_featured T E posts r) as [_ [? ?]].
    + apply orderField_trending in Hf. contradiction.
Qed.

Lemma reorder_selects_column_witness :
  let table := [stored "a" "first" "published" true true (Some 5%Z) (Some 6%Z) 1;
                stored "b" "second" "published" true true None None 2] in
  let posts := [ {| entry_id := "b"; entry_order := Some 1%Z |};
                 {| entry_id := "a"; entry_order := Some 2%Z |} ] in
  (map trending_order
       (snd (post_posts_reorder plain_table (at_time 9)
               (as_admin "" (reordering (Some posts) (Some "trending"))) table))
   = [Some 2%Z; Some 1%Z]
   /\ map featured_order
        (snd (post_posts_reorder plain_table (at_time 9)
                (as_admin "" (reordering (Some posts) (Some "trending"))) table))
      = [Some 5%Z; None])
  /\ (map featured_order
        (snd (post_posts_reorder plain_table (at_time 9)
                (as_admin "" (reordering (Some posts) (Some "Trending"))) table))
      = [Some 2%Z; Some 1%Z]
      /\ map trending_order
           (snd (post_posts_reorder plain_table (at_time 9)
                   (as_admin "" (reordering (Some posts) (Some "Trending"))) table))
         = [Some 6%Z; None])
  /\ map featured_order
       (snd (post_posts_reorder plain_table (at_time 9)
               (as_admin "" (reordering (Some posts) None)) table))
     = [Some 2%Z; Some 1%Z].
Proof.
  intros table posts. split; [|split].
  - apply (reorder_selects_column plain_table (at_time 9)
             (as_admin "" (reordering (Some posts) (Some "trending")))
             table posts eq_refl eq_refl).
    reflexivity.
  - apply (reorder_selects_column plain_table (at_time 9)
             (as_admin "" (reordering (Some posts) (Some "Trending")))
             table posts eq_refl eq_refl).
    discriminate.
  - apply (reorder_selects_column plain_table (at_time 9)
             (as_admin "" (reordering (Some posts) None))
             table posts eq_refl eq_refl).
    discriminate.
Defined.

(** ** Time stamps (C8) *)

(** An [UPDATE] leaves a column alone when its assignments do and the
    column is not [updated_at]. *)
Lemma UPDATE_frame {B} (col : post -> B) (T : table_decl) (now : Z) (a : bool)
    (SET : post -> post) (WHERE : post -> bool) (table : list post) :
  (forall t r, col (with_updated_at t r) = col r) ->
  (forall r, col (SET r) = col r) ->
  map col (UPDATE T now a SET WHERE table) = map col table.
Proof.
  intros Hts Hset. unfold UPDATE. rewrite map_map. apply map_ext. intros r.
  destruct (WHERE r); [|reflexivity].
  destruct (_ && _); [rewrite Hts|]; apply Hset.
Qed.

(** Without [ON UPDATE CURRENT_TIMESTAMP], an [UPDATE] that does not
    assign [updated_at] leaves it alone. *)
Lemma UPDATE_plain_updated_at (T : table_decl) (now : Z) (a : bool)
    (SET : post -> post) (WHERE : post -> bool) (table : list post) :
  updated_at_on_update T = false ->
  (forall r, updated_at (SET r) = updated_at r) ->
  map updated_at (UPDATE T now a SET WHERE table) = map updated_at table.
Proof.
  intros Hplain Hset. unfold UPDATE. rewrite map_map. apply map_ext. intros r.
  destruct (WHERE r); [|reflexivity]. rewrite Hplain. simpl. apply Hset.
Qed.

(** No statement of update, status change or reorder writes
    [created_at]. *)
Lemma created_at_kept (P : platform) (T : table_decl) (E : env) (req : request)
    (table : list post) :
  map created_at (snd (put_post P T E req table)) = map created_at table
  /\ map created_at (snd (patch_post_status T E req table)) = map created_at table
  /\ map created_at (snd (post_posts_reorder T E req table)) = map created_at table.
Proof.
  split; [|split].
  - unfold put_post. destruct (negb _); [reflexivity|].
    destruct (_ || _); [reflexivity|].
    destruct (SELECT (has_id _) table); [reflexivity|].
    destruct (SELECT _ table); [|reflexivity]. simpl.
    now apply UPDATE_frame.
  - unfold patch_post_status. destruct (negb _); [reflexivity|]. simpl.
    now apply UPDATE_frame.
  - unfold post_posts_reorder. destruct (negb _); [reflexivity|].
    destruct (b_posts _) as [posts|]; [|reflexivity]. simpl.
    unfold reorder_loop. revert table.
    induction posts as [|e posts IH]; intros table; simpl; [reflexivity|].
    rewrite IH. apply UPDATE_frame; [reflexivity|]. now destruct r.
Qed.

(** Create stores the time of the call in both time stamps and keeps the
    rows that were there. *)
Lemma create_stamps (P : platform) (E : env) (req : request) (table : list post) :
  snd (post_posts P E req table) = table
  \/ exists row, snd (post_posts P E req table) = table ++ [row]
                 /\ created_at row = NOW E /\ updated_at row = NOW E.
Proof.
  unfold post_posts. destruct (negb _); [now left|].
  destruct (_ || _); [now left|].
  destruct (SELECT _ table); [|now left].
  right. eexists. split; [reflexivity|]. simpl. auto.
Qed.

(** Reads leave the table as it is. *)
Lemma reads_keep_table (E : env) (req : request) (table : list post) :
  snd (get_posts E req table) = table
  /\ snd (get_post_by_slug E req table) = table
  /\ snd (get_categories E req table) = table
  /\ snd (get_posts_featured E req table) = table
  /\ snd (get_posts_trending E req table) = table.
Proof.
  repeat split. unfold get_post_by_slug. now destruct (SELECT _ table).
Qed.

(** A successful update stores the time of the call in [updated_at] of
    the post. *)
Lemma update_refreshes_updated_at (P : platform) (T : table_decl) (E : env)
    (req : request) (table : list post) (s : string) (r' : post) :
  fst (put_post P T E req table)
  = ok (updated_ "Blog post updated successfully" s) ->
  In r' (snd (put_post P T E req table)) ->
  id r' = params req ->
  updated_at r' = NOW E.
Proof.
  unfold put_post. destruct (negb _); [discriminate|].
  destruct (_ || _); [discriminate|].
  destruct (SELECT (has_id _) table); [discriminate|].
  destruct (SELECT _ table); [|discriminate]. simpl.
  intros _ Hin Hid. unfold UPDATE in Hin. apply in_map_iff in Hin.
  destruct Hin as [r [Hr Hin]]. destruct (has_id (params req) r) eqn:Hw.
  - rewrite andb_false_r in Hr. simpl in Hr. now subst r'.
  - subst r'. apply has_id_false in Hw. contradiction.
Qed.

(** In a table without [ON UPDATE CURRENT_TIMESTAMP], a status change
    and a reorder leave [updated_at] of every post as it was. *)
Lemma status_and_reorder_keep_updated_at (T : table_decl) (E : env)
    (req : request) (table : list post) :
  updated_at_on_update T = false ->
  map updated_at (snd (patch_post_status T E req table)) = map updated_at table
  /\ map updated_at (snd (post_posts_reorder T E req table)) = map updated_at table.
Proof.
  intros Hplain. split.
  - unfold patch_post_status. destruct (negb _); [reflexivity|]. simpl.
    now apply UPDATE_plain_updated_at.
  - unfold post_posts_reorder. destruct (negb _); [reflexivity|].
    destruct (b_posts _) as [posts|]; [|reflexivity]. simpl.
    unfold reorder_loop. revert table.
    induction posts as [|e posts IH]; intros table; simpl; [reflexivity|].
    rewrite IH. apply UPDATE_plain_updated_at; [exact Hplain|]. now destruct r.
Qed.

(** In a table with [ON UPDATE CURRENT_TIMESTAMP], the database stamps
    the rows that a status change gives a new value in some column, and
    only those. *)
Lemma status_change_under_on_update (T : table_decl) (E : env) (req : request)
    (table : list post) :
  updated_at_on_update T = true ->
  checkAdminPassphrase E req = true ->
  snd (patch_post_status T E req table)
  = map (fun r =>
           if has_id (params req) r then
             if same_row r (status_assignments (req_body req) r) then
               status_assignments (req_body req) r
             else with_updated_at (NOW E) (status_assignments (req_body req) r)
           else r) table.
Proof.
  intros Hauto Ha. unfold patch_post_status. rewrite Ha. simpl.
  unfold UPDATE. apply map_ext. intros r. rewrite Hauto. simpl.
  destruct (has_id _ r); [|reflexivity]. now destruct (same_row _ _).
Qed.

(** Whether a status change and a reorder refresh [updated_at] is
    decided by the declaration of the column, which is not among the
    sources: the handlers do not assign it.  A status change at time 9
    sets the featured flag of a post last written at time 1, and a
    reorder at time 9 gives it a new order value; [updated_at] of the
    post then reads 1 when the column is an ordinary one and 9 when it
    is declared [ON UPDATE CURRENT_TIMESTAMP]. *)
Lemma updated_at_depends_on_declaration (T : table_decl) :
  let table := [stored "a" "first" "draft" false false None None 1] in
  let changed :=
    snd (patch_post_status T (at_time 9)
           (as_admin "a" (flags (Some true) (Some false) (Some 1%Z) None)) table) in
  let reordered :=
    snd (post_posts_reorder T (at_time 9)
           (as_admin "" (reordering
                           (Some [ {| entry_id := "a"; entry_order := Some 3%Z |} ])
                           None)) table) in
  map is_featured changed = [Some true]
  /\ map featured_order reordered = [Some 3%Z]
  /\ map updated_at changed = [if updated_at_on_update T then 9%Z else 1%Z]
  /\ map updated_at reordered = [if updated_at_on_update T then 9%Z else 1%Z].
Proof. destruct T as [[|]]; cbv zeta; repeat split. Qed.

(** C8: a status change and a reorder that write the values a post has
    already leave its [updated_at] as it was, whatever the declaration
    of the column: their statements do not assign it, and a column
    declared [ON UPDATE CURRENT_TIMESTAMP] is stamped only in the rows
    in which a value changes.  Both requests are answered as successful
    updates.  The update handler assigns [updated_at] itself and
    refreshes it in the same situation. *)
Theorem status_and_reorder_do_not_assign_updated_at (P : platform)
    (T : table_decl) :
  let table := [stored "a" "first" "draft" true false (Some 3%Z) None 1] in
  let flagged_again :=
    patch_post_status T (at_time 9)
      (as_admin "a" (flags (Some true) (Some false) (Some 3%Z) None)) table in
  let reordered_again :=
    post_posts_reorder T (at_time 9)
      (as_admin "" (reordering
                      (Some [ {| entry_id := "a"; entry_order := Some 3%Z |} ])
                      None)) table in
  let updated_again :=
    put_post P T (at_time 9)
      (as_admin "a" (with_status (Some (Some "draft"))
                       (fields "first" "text" "news"))) table in
  fst flagged_again = ok (message_ "Post status updated successfully")
  /\ map updated_at (snd flagged_again) = [1%Z]
  /\ fst reordered_again = ok (message_ "Posts reordered successfully")
  /\ map updated_at (snd reordered_again) = [1%Z]
  /\ fst updated_again = ok (updated_ "Blog post updated successfully" "first")
  /\ map updated_at (snd updated_again) = [9%Z].
Proof. destruct T as [[|]]; cbv zeta; repeat split. Qed.

(** ** The sanitiser (C2, C3) *)

Lemma mem_app (x : string) (l1 l2 : list string) :
  mem x (l1 ++ l2) = mem x l1 || mem x l2.
Proof. unfold mem. apply existsb_app. Qed.

Lemma mem_In (x : string) (l : list string) : mem x l = true <-> In x l.
Proof.
  unfold mem. rewrite existsb_exists. split.
  - intros [y [Hin Heq]]. apply String.eqb_eq in Heq. now subst.
  - intros Hin. exists x. split; [exact Hin | apply String.eqb_refl].
Qed.

(** After [setConfig], the second argument of [sanitize] is not read: any
    two configuration objects give the same result. *)
Lemma call_config_not_read (P : platform) (dirty : string) (cfg cfg' : Config) :
  sanitize P (DOMPurify P) dirty cfg = sanitize P (DOMPurify P) dirty cfg'.
Proof. reflexivity. Qed.

(** What [sanitizeContent] returns, in terms of the pass over the parsed
    body. *)
Lemma sanitizeContent_markup (P : platform) (content : string) :
  content <> "" ->
  includes_unit "<" content = true ->
  sanitizeContent P content
  = serializeHTML P (_sanitizeBody P (CONFIG (DOMPurify P)) (parseHTML P content)).
Proof.
  intros Hne Hlt. unfold sanitizeContent, sanitize. simpl SET_CONFIG. cbv iota.
  destruct (String.eqb_spec content "") as [->|_]; [contradiction|].
  now rewrite Hlt.
Qed.

Lemma sanitizeContent_text (P : platform) (content : string) :
  content <> "" ->
  includes_unit "<" content = false ->
  sanitizeContent P content = content.
Proof.
  intros Hne Hlt. unfold sanitizeContent, sanitize. simpl SET_CONFIG. cbv iota.
  destruct (String.eqb_spec content "") as [->|_]; [contradiction|].
  now rewrite Hlt.
Qed.

Lemma get_set_attr_same (k v : string) (a : attribs) :
  get_attr k (set_attr k v a) = Some v.
Proof.
  induction a as [|[k' v'] a IH]; simpl.
  - now rewrite String.eqb_refl.
  - destruct (String.eqb_spec k k') as [->|Hne]; simpl.
    + now rewrite String.eqb_refl.
    + destruct (String.eqb_spec k k'); [contradiction | exact IH].
Qed.

Lemma get_set_attr_other (k k' v : string) (a : attribs) :
  k <> k' -> get_attr k (set_attr k' v a) = get_attr k a.
Proof.
  intros Hne. induction a as [|[k'' v''] a IH]; simpl.
  - destruct (String.eqb_spec k k'); [contradiction | reflexivity].
  - destruct (String.eqb_spec k' k'') as [->|Hne']; simpl.
    + destruct (String.eqb_spec k k''); [contradiction | reflexivity].
    + destruct (String.eqb_spec k k''); [reflexivity | exact IH].
Qed.

(** The function written under [transformTags.iframe] does what the
    specification asks of the sanitiser: an iframe whose [src] the
    validator accepts keeps its [src] and gets the five fixed values,
    any other iframe with a [src] becomes the placeholder paragraph. *)
Lemma iframe_rule_rewrites (a : attribs) (src : string) :
  get_attr "src" a = Some src ->
  (isValidYouTubeUrl src = true ->
   exists a',
     iframe_rule "iframe" a
     = inr {| frame_tagName := "iframe"; frame_attribs := Some a';
              frame_text := None |}
     /\ get_attr "src" a' = Some src
     /\ get_attr "width" a' = Some "100%"
     /\ get_attr "height" a' = Some "400"
     /\ get_attr "frameborder" a' = Some "0"
     /\ get_attr "allow" a'
        = Some "accelerometer; autoplay; clipboard-write; encrypted-media; gyroscope; picture-in-picture"
     /\ get_attr "allowfullscreen" a' = Some "")
  /\ (isValidYouTubeUrl src = false ->
      iframe_rule "iframe" a
      = inr {| frame_tagName := "p"; frame_attribs := None;
               frame_text := Some "[Invalid video embed]" |}).
Proof.
  intros Hsrc. unfold iframe_rule. rewrite Hsrc. split; intros Hv; rewrite Hv; simpl.
  - eexists. split; [reflexivity|].
    repeat split;
      repeat (first [ rewrite get_set_attr_same; reflexivity
                    | rewrite get_set_attr_other by discriminate ]);
      try exact Hsrc.
  - reflexivity.
Qed.

(** The attributes the module adds with [ADD_ATTR] are in the set the
    library works with. *)
Lemma added_attributes_allowed (P : platform) (n : string) :
  In n ["allow"; "allowfullscreen"; "frameborder"; "scrolling"; "src";
        "title"; "width"; "height"] ->
  mem n (allowed_attr (CONFIG (DOMPurify P))) = true.
Proof.
  intros Hin. simpl. unfold addToSet. rewrite mem_app. apply orb_true_iff. right.
  apply mem_In. exact Hin.
Qed.

(** The pass keeps [src], [width] and [height] attributes whose values
    hold no end of a comment and pass the URI pattern, on any tag. *)
Lemma plain_attributes_kept (P : platform) (lcTag : string) (a : attribs) :
  Forall (fun nv => In (fst nv) ["src"; "width"; "height"]
                    /\ trim (snd nv) = snd nv
                    /\ search COMMENT_IN_ATTR (snd nv) = false
                    /\ test module_uri_regexp (strip_whitespace (snd nv)) = true) a ->
  _sanitizeAttributes P (CONFIG (DOMPurify P)) lcTag a = a.
Proof.
  induction 1 as [|[n v] a [Hn [Htrim [Hend Huri]]] Ha IH]; [reflexivity|].
  cbn [fst snd] in Hn, Htrim, Hend, Huri. cbn [_sanitizeAttributes].
  assert (Hname : toLowerCase n = n /\ String.eqb n "value" = false
                  /\ String.eqb n "attributename" = false
                  /\ mem n ["id"; "name"] = false
                  /\ test DATA_ATTR n = false /\ test ARIA_ATTR n = false
                  /\ mem n URI_SAFE_ATTRIBUTES = false).
  { destruct Hn as [<-|[<-|[<-|[]]]]; repeat split. }
  destruct Hname as [Hlc [Hval [Hattr [Hid [Hdata [Haria Hsafe]]]]]].
  rewrite Hlc, Hval, Htrim, Hend, Hattr, IH. cbn [andb orb].
  unfold _isValidAttribute.
  rewrite Hid, Hdata, Haria, Hsafe. cbn [andb].
  rewrite andb_false_r.
  rewrite added_attributes_allowed
    by (destruct Hn as [<-|[<-|[<-|[]]]]; simpl; tauto).
  replace (mem n (forbid_attr (CONFIG (DOMPurify P)))) with false by reflexivity.
  cbn [negb orb].
  replace (is_allowed_uri (CONFIG (DOMPurify P))) with module_uri_regexp
    by reflexivity.
  now rewrite Huri.
Qed.

(** The pass keeps an iframe whose content is empty and whose only
    attributes are such ones, whatever host the [src] names. *)
Lemma iframe_kept (P : platform) (a : attribs) :
  Forall (fun nv => In (fst nv) ["src"; "width"; "height"]
                    /\ trim (snd nv) = snd nv
                    /\ search COMMENT_IN_ATTR (snd nv) = false
                    /\ test module_uri_regexp (strip_whitespace (snd nv)) = true) a ->
  _sanitizeBody P (CONFIG (DOMPurify P)) [iframe_element a] = [iframe_element a].
Proof.
  intros Ha. unfold _sanitizeBody, iframe_element. cbn [flat_map].
  rewrite app_nil_r. cbn [_sanitizeNode flat_map text_reads_as_markup].
  change (toLowerCase "iframe") with "iframe".
  replace (tag_allowed (CONFIG (DOMPurify P)) "iframe") with true by reflexivity.
  cbn [orb]. now rewrite plain_attributes_kept.
Qed.

(** Whatever its attributes, an iframe without content comes out of the
    pass as an iframe: the placeholder paragraph is never produced. *)
Lemma iframe_never_replaced (P : platform) (a : attribs) :
  _sanitizeBody P (CONFIG (DOMPurify P)) [iframe_element a]
  = [iframe_element (_sanitizeAttributes P (CONFIG (DOMPurify P)) "iframe" a)].
Proof. reflexivity. Qed.

(** Had the instance no configuration set, so that the second argument
    of [sanitize] were parsed, the rule under [transformTags] would still
    not be read: with the library's own tag list, which has no iframe in
    it, the iframe is removed together with its content. *)
Lemma call_config_alone_drops_iframes (P : platform) (a : attribs) :
  mem "iframe" (DEFAULT_ALLOWED_TAGS P) = false ->
  _sanitizeBody P (_parseConfig P call_config) [iframe_element a] = [].
Proof.
  intros Hno. unfold _sanitizeBody, iframe_element. cbn [flat_map].
  rewrite app_nil_r. cbn [_sanitizeNode flat_map].
  change (toLowerCase "iframe") with "iframe".
  assert (Htag : tag_allowed (_parseConfig P call_config) "iframe" = false).
  { unfold tag_allowed. simpl allowed_tags. unfold addToSet.
    rewrite !mem_app, Hno. reflexivity. }
  rewrite Htag. reflexivity.
Qed.

(** C2: the iframe with the rejected source, and an iframe with an
    accepted source and a width and height of the author's, come out of
    the pass as they went in: the first is not replaced by the
    placeholder paragraph, the second keeps the author's width.  For
    both strings of the claim the sanitiser answers with the serialised
    result of that pass over what the parser builds. *)
Theorem iframes_pass_unchanged (P : platform) :
  let pass := _sanitizeBody P (CONFIG (DOMPurify P)) in
  let rejected := [("src", "https://evil.com/x")] in
  let accepted := [("src", "https://youtube.com/embed/abc123");
                   ("width", "1"); ("height", "1")] in
  isValidYouTubeUrl "https://evil.com/x" = false
  /\ isValidYouTubeUrl "https://youtube.com/embed/abc123" = true
  /\ pass [iframe_element rejected] = [iframe_element rejected]
  /\ pass [iframe_element rejected]
     <> [Element "p" [] [Text "[Invalid video embed]"]]
  /\ pass [iframe_element accepted] = [iframe_element accepted]
  /\ get_attr "width" accepted <> Some "100%"
  /\ sanitizeContent P (iframe_html "https://evil.com/x")
     = serializeHTML P (pass (parseHTML P (iframe_html "https://evil.com/x")))
  /\ sanitizeContent P (iframe_html "https://youtube.com/embed/abc123")
     = serializeHTML P
         (pass (parseHTML P (iframe_html "https://youtube.com/embed/abc123"))).
Proof.
  cbv zeta.
  assert (Hrej : _sanitizeBody P (CONFIG (DOMPurify P))
                   [iframe_element [("src", "https://evil.com/x")]]
                 = [iframe_element [("src", "https://evil.com/x")]])
    by (apply iframe_kept; repeat constructor; simpl; tauto).
  split; [reflexivity|]. split; [reflexivity|]. split; [exact Hrej|].
  split; [rewrite Hrej; discriminate|].
  split; [apply iframe_kept; repeat constructor; simpl; tauto|].
  split; [discriminate|].
  split; apply sanitizeContent_markup; first [discriminate | reflexivity].
Qed.

(** *** Case folding and the URI pattern *)

Lemma lower_ascii_idem (c : ascii) : lower_ascii (lower_ascii c) = lower_ascii c.
Proof. destruct c as [[] [] [] [] [] [] [] []]; reflexivity. Qed.

Lemma upper_lower_ascii (c : ascii) : upper_ascii (lower_ascii c) = upper_ascii c.
Proof. destruct c as [[] [] [] [] [] [] [] []]; reflexivity. Qed.

Lemma lower_or_upper (c : ascii) : c = lower_ascii c \/ c = upper_ascii c.
Proof.
  destruct c as [[] [] [] [] [] [] [] []];
    first [left; reflexivity | right; reflexivity].
Qed.

Lemma in_class_lower (p : ascii -> bool) (d : ascii) :
  in_class true p (lower_ascii d) = in_class true p d.
Proof.
  unfold in_class. rewrite lower_ascii_idem, upper_lower_ascii.
  assert (H : p d = p (lower_ascii d) \/ p d = p (upper_ascii d))
    by (destruct (lower_or_upper d) as [H|H]; [left | right]; now rewrite <- H).
  destruct H as [H|H]; rewrite H;
    destruct (p (lower_ascii d)), (p (upper_ascii d)); reflexivity.
Qed.

Lemma iterate_ext (body body' : string -> (string -> bool) -> bool)
    (f : string -> string) (k k' : string -> bool) :
  (forall c s, exists d, f (String c s) = String d (f s)) ->
  f "" = "" ->
  (forall s h h', (forall t, h t = h' (f t)) -> body s h = body' (f s) h') ->
  (forall t, k t = k' (f t)) ->
  forall fuel s, iterate body fuel s k = iterate body' (f fuel) (f s) k'.
Proof.
  intros Hcons Hnil Hbody Hk. induction fuel as [|c fuel IH]; intros s.
  - rewrite Hnil. simpl. apply Hbody. intros t. now rewrite Hk.
  - destruct (Hcons c fuel) as [d Hf]. rewrite Hf. simpl.
    apply Hbody. intros t. now rewrite IH, Hk.
Qed.

(** Under the [i] flag a match does not depend on the case of the
    subject. *)
Lemma exec_lower (r : regex) :
  forall (s : string) (k k' : string -> bool),
    (forall t, k t = k' (lower_string t)) ->
    exec true r s k = exec true r (lower_string s) k'.
Proof.
  induction r as [|c|neg p| |a IHa b IHb|a IHa b IHb|a IHa|a IHa];
    intros s k k' Hk; cbn [exec].
  - apply Hk.
  - destruct s as [|d s]; cbn [lower_string]; [reflexivity|].
    unfold same_unit. now rewrite lower_ascii_idem, Hk.
  - destruct s as [|d s]; cbn [lower_string]; [reflexivity|].
    now rewrite in_class_lower, Hk.
  - destruct s as [|d s]; cbn [lower_string]; [apply Hk | reflexivity].
  - apply IHa. intros t. now apply IHb.
  - now rewrite (IHa s k k' Hk), (IHb s k k' Hk).
  - now rewrite (IHa s k k' Hk), Hk.
  - apply (iterate_ext (exec true a) (exec true a) lower_string k k').
    + intros c t. now exists (lower_ascii c).
    + reflexivity.
    + intros t h h' Hh. now apply IHa.
    + exact Hk.
Qed.



Example javascript_url_rejected :
  test module_uri_regexp (strip_whitespace " JavaScript:alert(1)") = false.
Proof. reflexivity. Qed.

(** A subject matched by a pattern that starts with a literal starts
    with that literal. *)
Lemma exec_lit (p : string) :
  forall (s : string) (k : string -> bool),
    exec false (lit p) s k = true ->
    exists r, s = (p ++ r)%string /\ k r = true.
Proof.
  induction p as [|c p IH]; intros s k H; simpl in H.
  - now exists s.
  - destruct s as [|d s]; [discriminate|].
    apply andb_true_iff in H. destruct H as [Hc H].
    unfold same_unit in Hc. apply Ascii.eqb_eq in Hc. subst d.
    destruct (IH s k H) as [r [-> Hk]]. now exists r.
Qed.



(** *** The schemes the URI pattern of the module lets through *)

Lemma exec_lit_or (i : bool) (p : string) :
  forall (s : string) (k k' : string -> bool),
    exec i (lit p) s (fun t => k t || k' t)
    = exec i (lit p) s k || exec i (lit p) s k'.
Proof.
  induction p as [|c p IH]; intros s k k'; cbn [lit exec]; [reflexivity|].
  destruct s as [|d s]; [reflexivity|]. rewrite IH.
  now destruct (same_unit i c d).
Qed.

Lemma exec_lit_app (i : bool) (p q : string) :
  forall (s : string) (k : string -> bool),
    exec i (lit p) s (fun t => exec i (lit q) t k)
    = exec i (lit (p ++ q)) s k.
Proof.
  induction p as [|c p IH]; intros s k; cbn [lit exec append]; [reflexivity|].
  destruct s as [|d s]; [reflexivity|]. now rewrite IH.
Qed.

(** A unit that a scheme is written with, in lower case. *)
Lemma scheme_unit_facts (c : ascii) :
  uri_scheme_unit c = true ->
  lower_ascii c = c /\ Ascii.eqb c ":" = false.
Proof. destruct c as [[] [] [] [] [] [] [] []]; intros H; try discriminate H; split; reflexivity. Qed.

(** A literal written in such units, followed by a colon, matches a
    subject [s:...] exactly when [s] is the literal. *)
Lemma exec_lit_colon (p : string) :
  all_units uri_scheme_unit p = true ->
  forall s r : string,
    all_units uri_scheme_unit s = true ->
    exec true (lit p) (s ++ String ":" r)
         (fun t => exec true (Chr ":") t (fun _ => true))
    = String.eqb p s.
Proof.
  induction p as [|c p IH]; intros Hp s r Hs.
  - destruct s as [|d s]; [reflexivity|].
    cbn [all_units] in Hs. apply andb_true_iff in Hs. destruct Hs as [Hd _].
    destruct (scheme_unit_facts d Hd) as [Hl Hc].
    cbn [lit exec append String.eqb]. unfold same_unit.
    change (lower_ascii ":") with ":"%char.
    rewrite Hl, andb_true_r, Ascii.eqb_sym. exact Hc.
  - cbn [all_units] in Hp. apply andb_true_iff in Hp. destruct Hp as [Hc Hp].
    destruct (scheme_unit_facts c Hc) as [Hlc Hcc].
    destruct s as [|d s].
    + cbn [lit exec append String.eqb]. unfold same_unit.
      change (lower_ascii ":") with ":"%char. now rewrite Hlc, Hcc.
    + cbn [all_units] in Hs. apply andb_true_iff in Hs. destruct Hs as [Hd Hs].
      destruct (scheme_unit_facts d Hd) as [Hld _].
      cbn [lit append String.eqb].
      change (exec true (Cat (Chr c) (lit p)) (String d ?x) ?k)
        with (same_unit true c d && exec true (lit p) x k).
      rewrite (IH Hp s r Hs).
      unfold same_unit. rewrite Hlc, Hld.
      now destruct (Ascii.eqb c d).
Qed.

Lemma exec_lit_ext (i : bool) (p : string) :
  forall (s : string) (k k' : string -> bool),
    (forall t, k t = k' t) -> exec i (lit p) s k = exec i (lit p) s k'.
Proof.
  induction p as [|c p IH]; intros s k k' H; cbn [lit exec]; [apply H|].
  destruct s as [|d s]; [reflexivity|]. now rewrite (IH s k k' H).
Qed.

(** [(?:f|ht)tps?] is one of four literals. *)
Lemma exec_transfer_schemes (i : bool) (s : string) (k : string -> bool) :
  exec i (Cat (Alt (lit "f") (lit "ht")) (Cat (lit "tp") (Opt (Chr "s")))) s k
  = exec i (lit "ftps") s k || exec i (lit "ftp") s k
    || (exec i (lit "https") s k || exec i (lit "http") s k).
Proof.
  set (tail := fun t => exec i (lit "tp") t
                             (fun u => exec i (lit "s") u k || exec i (lit EmptyString) u k)).
  change (exec i (lit "f") s tail || exec i (lit "ht") s tail = 
          exec i (lit "ftps") s k || exec i (lit "ftp") s k
          || (exec i (lit "https") s k || exec i (lit "http") s k)).
  assert (Htail : forall t, tail t = exec i (lit "tps") t k || exec i (lit "tp") t k).
  { intros t. unfold tail. rewrite exec_lit_or.
    rewrite (exec_lit_app i "tp" "s" t k).
    now rewrite (exec_lit_app i "tp" EmptyString t k). }
  rewrite (exec_lit_ext i "f" s _ _ Htail), (exec_lit_ext i "ht" s _ _ Htail).
  rewrite !exec_lit_or.
  rewrite (exec_lit_app i "f" "tps"), (exec_lit_app i "f" "tp").
  rewrite (exec_lit_app i "ht" "tps"), (exec_lit_app i "ht" "tp").
  reflexivity.
Qed.

(** The first alternative of the pattern, on a subject [s:...] whose [s]
    is written in scheme units. *)
Lemma listed_scheme_alternative (s r : string) :
  all_units uri_scheme_unit s = true ->
  exec true
       (Cat (alts [Cat (Alt (lit "f") (lit "ht")) (Cat (lit "tp") (Opt (Chr "s")));
                   lit "mailto"; lit "tel"; lit "callto";
                   lit "cid"; lit "xmpp"; lit "xxx"])
            (Chr ":"))
       (s ++ String ":" r) (fun _ => true)
  = mem s listed_schemes.
Proof.
  intros Hs.
  set (x := (s ++ String ":" r)%string).
  set (k := fun t => exec true (Chr ":") t (fun _ => true)).
  change (exec true (Cat (Alt (lit "f") (lit "ht")) (Cat (lit "tp") (Opt (Chr "s")))) x k
          || (exec true (lit "mailto") x k
          || (exec true (lit "tel") x k
          || (exec true (lit "callto") x k
          || (exec true (lit "cid") x k
          || (exec true (lit "xmpp") x k
          || exec true (lit "xxx") x k)))))
          = mem s listed_schemes).
  rewrite exec_transfer_schemes. unfold x, k.
  rewrite !exec_lit_colon by (exact Hs || reflexivity).
  unfold mem, listed_schemes. cbn [existsb].
  rewrite !(String.eqb_sym _ s).
  destruct (String.eqb s "ftp"), (String.eqb s "ftps"), (String.eqb s "http"),
    (String.eqb s "https"), (String.eqb s "mailto"), (String.eqb s "tel"),
    (String.eqb s "callto"), (String.eqb s "cid"), (String.eqb s "xmpp"),
    (String.eqb s "xxx"); reflexivity.
Qed.

(** The run of scheme units of [run:...] cannot end anywhere the last
    alternative of the pattern would accept: every unit of the run is
    followed by a scheme unit or by the colon. *)
Lemma scheme_run_blocked (r : string) (k : string -> bool) (run : string) :
  all_units uri_scheme_unit run = true ->
  (forall fuel,
     iterate (exec true (Cls false uri_scheme_unit)) fuel
             (run ++ String ":" r)
             (fun t => exec true
                         (Alt (Cls true (fun c => uri_scheme_unit c || Ascii.eqb c ":"))
                              Eos) t k) = false)
  /\ exec true (Alt (Cls true (fun c => uri_scheme_unit c || Ascii.eqb c ":")) Eos)
          (run ++ String ":" r) k = false.
Proof.
  induction run as [|c run IH]; intros Hrun.
  - split; [intros fuel; destruct fuel|]; reflexivity.
  - cbn [all_units] in Hrun. apply andb_true_iff in Hrun.
    destruct Hrun as [Hc Hrun]. destruct (IH Hrun) as [IH1 IH2]. split.
    + intros fuel.
      assert (Hstep : forall body fuel s k,
                iterate body fuel s k
                = body s (fun s' => match fuel with
                                    | String _ f => iterate body f s' k
                                    | EmptyString => false
                                    end || k s'))
        by (intros body f s k0; destruct f; reflexivity).
      rewrite Hstep. cbn [append].
      change (exec true (Cls false uri_scheme_unit) (String c ?t) ?K)
        with (xorb false (in_class true uri_scheme_unit c) && K t).
      cbv beta. rewrite IH2. destruct fuel as [|x fuel]; [now rewrite andb_false_r|].
      rewrite IH1. now rewrite andb_false_r.
    + cbn [append exec]. unfold in_class. rewrite Hc. reflexivity.
Qed.


(** *** What the pass lets through *)


Lemma script_not_allowed : ~ In "script" allowed_names.
Proof.
  intros H. simpl in H.
  repeat (destruct H as [H|H]; [discriminate H|]). exact H.
Qed.

Section Clean.

Variable P : platform.
Hypothesis no_handlers :
  forall a, In a (DEFAULT_ALLOWED_ATTR P) -> String.prefix "on" a = false.

Lemma allowed_tag_name (lcTag : string) :
  tag_allowed (CONFIG (DOMPurify P)) lcTag = true -> In lcTag allowed_names.
Proof.
  unfold tag_allowed. intros H. apply andb_true_iff in H. destruct H as [H _].
  apply mem_In in H. simpl in H. unfold allowed_names, module_tags. simpl.
  repeat (destruct H as [H|H]; [subst lcTag; tauto|]). destruct H.
Qed.






End Clean.




Example sample_markup_sanitized :
  sanitizeContent sample_platform sample_markup = "<b>hi</b>".
Proof. reflexivity. Qed.

(** Content without markup is a fixed point of the sanitiser. *)
Lemma sanitizeContent_text_fixed (P : platform) (content : string) :
  content <> "" ->
  includes_unit "<" content = false ->
  sanitizeContent P (sanitizeContent P content) = sanitizeContent P content.
Proof.
  intros Hne Hlt. rewrite (sanitizeContent_text P content Hne Hlt).
  apply sanitizeContent_text; assumption.
Qed.

(** Text without a [<] does not set off the guard against markup in
    text, whatever the serialiser writes. *)
Lemma plain_text_passes_guard (P : platform) (n : node) :
  search MARKUP_IN_TEXT (textContent n) = false ->
  text_reads_as_markup P n = false.
Proof.
  intros H. destruct n as [d|d|tagName a [|k children]]; try reflexivity.
  unfold text_reads_as_markup. rewrite H. apply andb_false_r.
Qed.

(** The pass replaces a [section] by its children, so a heading nested
    in a heading through a section becomes a heading directly inside a
    heading.  On a platform whose parser does not build that nesting
    from its serialisation but puts the two headings side by side, as
    the parsing rules of HTML have it, sanitising the result again
    changes it. *)
Lemma reparse_changes_nesting (P : platform) :
  parseHTML P "<h1><section><h2>x</h2></section></h1>" = heading_in_section ->
  serializeHTML P heading_in_heading = "<h1><h2>x</h2></h1>" ->
  parseHTML P "<h1><h2>x</h2></h1>" = headings_side_by_side ->
  serializeHTML P headings_side_by_side = "<h1></h1><h2>x</h2>" ->
  sanitizeContent P "<h1><section><h2>x</h2></section></h1>"
  = "<h1><h2>x</h2></h1>"
  /\ sanitizeContent P (sanitizeContent P "<h1><section><h2>x</h2></section></h1>")
     = "<h1></h1><h2>x</h2>".
Proof.
  intros Hp1 Hs1 Hp2 Hs2.
  assert (H1 : sanitizeContent P "<h1><section><h2>x</h2></section></h1>"
               = "<h1><h2>x</h2></h1>").
  { rewrite sanitizeContent_markup; [|discriminate|reflexivity].
    rewrite Hp1, <- Hs1. f_equal.
    unfold _sanitizeBody, heading_in_section. cbn [flat_map _sanitizeNode app].
    rewrite (plain_text_passes_guard P (Element "h2" [] [Text "x"]))
      by reflexivity.
    reflexivity. }
  split; [exact H1|]. rewrite H1.
  rewrite sanitizeContent_markup; [|discriminate|reflexivity].
  rewrite Hp2, <- Hs2. f_equal.
  unfold _sanitizeBody, headings_side_by_side. cbn [flat_map _sanitizeNode app].
  rewrite (plain_text_passes_guard P (Element "h2" [] [Text "x"]))
    by reflexivity.
  reflexivity.
Qed.

(* ================================================================== *)
(** * Part III. Further properties of the module                       *)
(* ================================================================== *)

(** ** The shape of slugs *)

Lemma slug_unit_not_hyphen (c : ascii) : slug_unit c = true -> is_hyphen c = false.
Proof.
  destruct c as [[] [] [] [] [] [] [] []]; intros H;
    first [reflexivity | discriminate H].
Qed.

Lemma hyphenate_hyphenated (s : string) :
  forall b, hyphenated b (hyphenate b s) = true.
Proof.
  induction s as [|c s IH]; intros b; simpl; [reflexivity|].
  destruct (slug_unit c) eqn:Hc.
  - simpl. rewrite (slug_unit_not_hyphen c Hc), Hc. apply IH.
  - destruct b; [apply IH|]. simpl. apply IH.
Qed.

Lemma hyphenated_weaken (s : string) :
  hyphenated true s = true -> hyphenated false s = true.
Proof.
  destruct s as [|c s]; simpl; [reflexivity|].
  destruct (is_hyphen c); [discriminate | auto].
Qed.

Lemma drop_leading_hyphenated (s : string) :
  hyphenated false s = true -> hyphenated true (drop_leading_hyphen s) = true.
Proof.
  destruct s as [|c s]; [reflexivity|].
  destruct (is_hyphen c) eqn:Hc.
  - unfold is_hyphen in Hc. apply Ascii.eqb_eq in Hc. subst c. simpl. auto.
  - intros H. replace (drop_leading_hyphen (String c s)) with (String c s).
    + simpl in *. now rewrite Hc in *.
    + unfold is_hyphen in Hc. apply Ascii.eqb_neq in Hc.
      destruct c as [[] [] [] [] [] [] [] []]; try reflexivity.
      now contradiction Hc.
Qed.

Lemma drop_trailing_hyphenated (s : string) :
  forall b, hyphenated b s = true ->
            hyphenated b (drop_trailing_hyphen s) = true
            /\ ends_with_hyphen (drop_trailing_hyphen s) = false.
Proof.
  induction s as [|c s IH]; intros b H; [now split|].
  destruct s as [|d s].
  - simpl. fold (is_hyphen c). destruct (is_hyphen c) eqn:Hc; [now split|].
    split; [exact H | simpl; exact Hc].
  - change (drop_trailing_hyphen (String c (String d s)))
      with (String c (drop_trailing_hyphen (String d s))).
    cbn [hyphenated] in H. cbn [hyphenated].
    destruct (is_hyphen c) eqn:Hc.
    + apply andb_true_iff in H. destruct H as [Hb H].
      destruct (IH true H) as [IH1 IH2]. rewrite Hb, IH1. split; [reflexivity|].
      destruct (drop_trailing_hyphen (String d s)) as [|e t] eqn:Hd.
      * exfalso. cbn [hyphenated] in H.
        destruct (is_hyphen d) eqn:Hdh; [discriminate H|].
        destruct s as [|d' s]; simpl in Hd.
        -- fold (is_hyphen d) in Hd. rewrite Hdh in Hd. discriminate Hd.
        -- discriminate Hd.
      * exact IH2.
    + apply andb_true_iff in H. destruct H as [Hs H].
      destruct (IH false H) as [IH1 IH2]. rewrite Hs, IH1. split; [reflexivity|].
      destruct (drop_trailing_hyphen (String d s)) as [|e t] eqn:Hd.
      * simpl. exact Hc.
      * exact IH2.
Qed.

(** What the slug computation returns, in the terms of [hyphenated]. *)
Lemma slugify_hyphenated (title : string) :
  hyphenated true (slugify title) = true
  /\ ends_with_hyphen (slugify title) = false.
Proof.
  unfold slugify, strip_hyphens. apply drop_trailing_hyphenated.
  apply drop_leading_hyphenated. apply hyphenate_hyphenated.
Qed.

Lemma hyphenated_units (s : string) :
  forall b, hyphenated b s = true ->
            all_units (fun c => slug_unit c || is_hyphen c) s = true.
Proof.
  induction s as [|c s IH]; intros b H; simpl in *; [reflexivity|].
  destruct (is_hyphen c).
  - apply andb_true_iff in H. rewrite orb_true_r. simpl. now apply (IH true).
  - apply andb_true_iff in H. destruct H as [-> H]. simpl. now apply (IH false).
Qed.

Lemma is_hyphen_dec (c : ascii) :
  (if ascii_dec "-" c then true else false) = is_hyphen c.
Proof.
  unfold is_hyphen. destruct (ascii_dec "-" c) as [<-|Hne]; [reflexivity|].
  symmetry. apply Ascii.eqb_neq. congruence.
Qed.

Lemma prefix_hyphen_pair (c : ascii) (s : string) :
  String.prefix "--" (String c s) = is_hyphen c && starts_with_hyphen s.
Proof.
  cbn [String.prefix]. rewrite <- is_hyphen_dec.
  destruct (ascii_dec "-" c); [|reflexivity]. cbn [andb].
  destruct s as [|d s]; [reflexivity|]. cbn [starts_with_hyphen String.prefix].
  rewrite <- is_hyphen_dec. destruct (ascii_dec "-" d); [|reflexivity].
  now destruct s.
Qed.

Lemma hyphenated_no_pair (s : string) :
  forall b, hyphenated b s = true -> includes "--" s = false.
Proof.
  induction s as [|c s IH]; intros b H; [reflexivity|].
  cbn [includes]. cbn [hyphenated] in H.
  assert (Hrest : includes "--" s = false).
  { destruct (is_hyphen c); apply andb_true_iff in H; destruct H as [_ H];
      eapply IH; exact H. }
  rewrite Hrest, orb_false_r, prefix_hyphen_pair.
  destruct (is_hyphen c); [|reflexivity]. cbn [andb].
  apply andb_true_iff in H. destruct H as [_ H].
  destruct s as [|d s]; [reflexivity|]. cbn [starts_with_hyphen hyphenated] in *.
  destruct (is_hyphen d); [discriminate H | reflexivity].
Qed.

(** X1: a slug is made of lower-case ASCII letters, digits and hyphens. *)
Theorem slug_alphabet (title : string) :
  all_units (fun c => is_lower c || is_digit c || is_hyphen c) (slugify title)
  = true.
Proof.
  destruct (slugify_hyphenated title) as [H _].
  apply (hyphenated_units _ true H).
Qed.

Lemma hyphenated_no_lead (s : string) :
  hyphenated true s = true -> starts_with_hyphen s = false.
Proof.
  destruct s as [|c s]; [reflexivity|]. simpl.
  destruct (is_hyphen c); [discriminate | reflexivity].
Qed.

(** X2: a slug neither starts nor ends with a hyphen and has no two hyphens
    in a row. *)
Theorem slug_hyphens (title : string) :
  starts_with_hyphen (slugify title) = false
  /\ ends_with_hyphen (slugify title) = false
  /\ includes "--" (slugify title) = false.
Proof.
  destruct (slugify_hyphenated title) as [H He]. split; [|split].
  - now apply hyphenated_no_lead.
  - exact He.
  - apply (hyphenated_no_pair _ true H).
Qed.

Lemma toLowerCase_slug_unit (c : ascii) :
  slug_unit c || is_hyphen c = true -> toLowerCase_unit c = c.
Proof.
  destruct c as [[] [] [] [] [] [] [] []]; intros H;
    first [reflexivity | discriminate H].
Qed.

Lemma toLowerCase_fixed (s : string) :
  all_units (fun c => slug_unit c || is_hyphen c) s = true -> toLowerCase s = s.
Proof.
  induction s as [|c s IH]; simpl; intros H; [reflexivity|].
  apply andb_true_iff in H. destruct H as [Hc H].
  now rewrite (toLowerCase_slug_unit c Hc), IH.
Qed.

Lemma hyphenate_fixed (s : string) :
  forall b, hyphenated b s = true -> hyphenate b s = s.
Proof.
  induction s as [|c s IH]; intros b H; simpl in *; [reflexivity|].
  destruct (is_hyphen c) eqn:Hc.
  - apply andb_true_iff in H. destruct H as [Hb H].
    apply negb_true_iff in Hb. subst b.
    unfold is_hyphen in Hc. apply Ascii.eqb_eq in Hc. subst c.
    change (slug_unit "-") with false. cbv iota. now rewrite (IH true H).
  - apply andb_true_iff in H. destruct H as [Hs H].
    rewrite Hs. now rewrite (IH false H).
Qed.

Lemma drop_trailing_fixed (s : string) :
  ends_with_hyphen s = false -> drop_trailing_hyphen s = s.
Proof.
  induction s as [|c s IH]; intros H; [reflexivity|].
  destruct s as [|d s].
  - simpl in *. fold (is_hyphen c). now rewrite H.
  - change (drop_trailing_hyphen (String c (String d s)))
      with (String c (drop_trailing_hyphen (String d s))).
    now rewrite IH.
Qed.

Lemma drop_leading_fixed (s : string) :
  starts_with_hyphen s = false -> drop_leading_hyphen s = s.
Proof.
  destruct s as [|c s]; [reflexivity|]. simpl. unfold is_hyphen. intros H.
  apply Ascii.eqb_neq in H.
  destruct c as [[] [] [] [] [] [] [] []]; try reflexivity. now contradiction H.
Qed.

(** X3: taking the slug of a slug gives the slug back. *)
Theorem slugify_idempotent (title : string) :
  slugify (slugify title) = slugify title.
Proof.
  destruct (slugify_hyphenated title) as [H He].
  pose proof (hyphenated_no_lead _ H) as Hs.
  unfold slugify at 1.
  rewrite (toLowerCase_fixed _ (hyphenated_units _ true H)).
  rewrite (hyphenate_fixed _ false (hyphenated_weaken _ H)).
  unfold strip_hyphens. rewrite (drop_leading_fixed _ Hs).
  now apply drop_trailing_fixed.
Qed.

(** *** Titles with an empty slug *)

Lemma slug_unit_lowered (c : ascii) :
  slug_unit (toLowerCase_unit c) = is_letter c || is_digit c.
Proof. destruct c as [[] [] [] [] [] [] [] []]; reflexivity. Qed.

Lemma hyphenate_keeps_units (s : string) :
  forall b, any_unit slug_unit (hyphenate b s) = any_unit slug_unit s.
Proof.
  induction s as [|c s IH]; intros b; simpl; [reflexivity|].
  destruct (slug_unit c) eqn:Hc; simpl.
  - now rewrite Hc.
  - destruct b; simpl; now rewrite IH.
Qed.

Lemma drop_leading_keeps_units (s : string) :
  any_unit slug_unit (drop_leading_hyphen s) = any_unit slug_unit s.
Proof.
  destruct s as [|c s]; [reflexivity|].
  destruct c as [[] [] [] [] [] [] [] []]; reflexivity.
Qed.

Lemma drop_trailing_keeps_units (s : string) :
  any_unit slug_unit (drop_trailing_hyphen s) = any_unit slug_unit s.
Proof.
  induction s as [|c s IH]; [reflexivity|].
  destruct s as [|d s].
  - simpl. destruct (Ascii.eqb_spec c "-") as [->|_]; reflexivity.
  - change (drop_trailing_hyphen (String c (String d s)))
      with (String c (drop_trailing_hyphen (String d s))).
    cbn [any_unit] in *. now rewrite IH.
Qed.

Lemma hyphenate_true_without_units (s : string) :
  any_unit slug_unit s = false -> hyphenate true s = "".
Proof.
  induction s as [|c s IH]; simpl; intros H; [reflexivity|].
  apply orb_false_iff in H. destruct H as [Hc H]. rewrite Hc. now apply IH.
Qed.

Lemma hyphenate_without_units (s : string) :
  any_unit slug_unit s = false ->
  hyphenate false s = "" \/ hyphenate false s = "-".
Proof.
  destruct s as [|c s]; simpl; intros H; [now left|].
  apply orb_false_iff in H. destruct H as [Hc H]. rewrite Hc.
  right. now rewrite hyphenate_true_without_units.
Qed.

Lemma any_unit_lowered (s : string) :
  any_unit slug_unit (toLowerCase s)
  = any_unit (fun c => is_letter c || is_digit c) s.
Proof.
  induction s as [|c s IH]; simpl; [reflexivity|].
  now rewrite slug_unit_lowered, IH.
Qed.

(** X4: the slug of a title is empty exactly when the title has no ASCII
    letter and no digit in it. *)
Theorem slugify_empty_iff (title : string) :
  slugify title = ""
  <-> any_unit (fun c => is_letter c || is_digit c) title = false.
Proof.
  rewrite <- any_unit_lowered. unfold slugify, strip_hyphens. split.
  - intros H.
    rewrite <- (hyphenate_keeps_units _ false), <- drop_leading_keeps_units,
      <- drop_trailing_keeps_units.
    now rewrite H.
  - intros H. destruct (hyphenate_without_units _ H) as [->| ->]; reflexivity.
Qed.

(** ** The embed validator *)

Lemma exec_chr (c : ascii) (s : string) (k : string -> bool) :
  exec false (Chr c) s k = true -> exists r, s = String c r /\ k r = true.
Proof.
  destruct s as [|d s]; simpl; [discriminate|]. intros H.
  apply andb_true_iff in H. destruct H as [Hc H].
  apply Ascii.eqb_eq in Hc. subst d. now exists s.
Qed.

Lemma iterate_class_first (p : ascii -> bool) (s : string) (k : string -> bool) :
  iterate (exec false (Cls false p)) s s k = true ->
  exists c r, s = String c r /\ p c = true.
Proof.
  destruct s as [|c r]; simpl; [discriminate|]. intros H.
  apply andb_true_iff in H. destruct H as [Hc _]. now exists c, r.
Qed.

Lemma embed_address_shape (url : string) :
  isValidYouTubeUrl url = true ->
  exists p c rest,
    In p embed_prefixes /\ url = (p ++ String c rest)%string
    /\ video_id_unit c = true.
Proof.
  unfold isValidYouTubeUrl, test, youtube_embed. cbn [source ignoreCase].
  change (exec false (Cat (lit "http") ?r) url ?k)
    with (exec false (lit "http") url (fun s' => exec false r s' k)).
  cbn [exec]. intros H.
  apply (exec_lit "http") in H. destruct H as [r1 [-> H]].
  assert (Hrest : forall r,
             exec false (lit "://") r
               (fun s' =>
                  exec false (lit "www.") s'
                    (fun s'' =>
                       exec false (lit "youtube.com/embed/") s''
                         (fun t => iterate
                                     (exec false (Cls false
                                        (fun c => is_letter c || is_digit c
                                                  || Ascii.eqb c "_"
                                                  || Ascii.eqb c "-")))
                                     t t (fun _ => true)))
                  || exec false (lit "youtube.com/embed/") s'
                       (fun t => iterate
                                   (exec false (Cls false
                                      (fun c => is_letter c || is_digit c
                                                || Ascii.eqb c "_"
                                                || Ascii.eqb c "-")))
                                   t t (fun _ => true))) = true ->
             exists w c rest,
               (w = "" \/ w = "www.")
               /\ r = ("://" ++ w ++ "youtube.com/embed/" ++ String c rest)%string
               /\ video_id_unit c = true).
  { intros r Hr. apply (exec_lit "://") in Hr. destruct Hr as [r2 [-> Hr]].
    apply orb_true_iff in Hr. destruct Hr as [Hr|Hr].
    - apply (exec_lit "www.") in Hr. destruct Hr as [r3 [-> Hr]].
      apply (exec_lit "youtube.com/embed/") in Hr. destruct Hr as [r4 [-> Hr]].
      apply iterate_class_first in Hr. destruct Hr as [c [rest [-> Hc]]].
      exists "www.", c, rest. auto.
    - apply (exec_lit "youtube.com/embed/") in Hr. destruct Hr as [r4 [-> Hr]].
      apply iterate_class_first in Hr. destruct Hr as [c [rest [-> Hc]]].
      exists "", c, rest. auto. }
  apply orb_true_iff in H. destruct H as [H|H].
  - apply exec_chr in H. destruct H as [r2 [-> H]].
    destruct (Hrest r2 H) as [w [c [rest [[->| ->] [-> Hc]]]]].
    + exists "https://youtube.com/embed/", c, rest. simpl. tauto.
    + exists "https://www.youtube.com/embed/", c, rest. simpl. tauto.
  - destruct (Hrest r1 H) as [w [c [rest [[->| ->] [-> Hc]]]]].
    + exists "http://youtube.com/embed/", c, rest. simpl. tauto.
    + exists "http://www.youtube.com/embed/", c, rest. simpl. tauto.
Qed.

Lemma embed_address_accepted (p : string) (c : ascii) (rest : string) :
  In p embed_prefixes -> video_id_unit c = true ->
  isValidYouTubeUrl (p ++ String c rest) = true.
Proof.
  intros Hp Hc. unfold video_id_unit in Hc.
  unfold isValidYouTubeUrl, test, youtube_embed. cbn [source ignoreCase].
  destruct Hp as [<-|[<-|[<-|[<-|[]]]]]; cbn; rewrite Hc; cbn;
    now rewrite ?orb_true_r.
Qed.

(** X5: the validator accepts exactly the strings that start with one of the
    four embed prefixes followed by at least one character of a video
    id; it does not look at what comes after. *)
Theorem embed_accepted_iff (url : string) :
  isValidYouTubeUrl url = true
  <-> exists p c rest,
        In p embed_prefixes /\ url = (p ++ String c rest)%string
        /\ video_id_unit c = true.
Proof.
  split; [apply embed_address_shape|].
  intros [p [c [rest [Hp [-> Hc]]]]]. now apply embed_address_accepted.
Qed.

Lemma append_assoc (a b c : string) :
  ((a ++ b) ++ c = a ++ (b ++ c))%string.
Proof. induction a as [|x a IH]; simpl; [reflexivity | now rewrite IH]. Qed.

(** X6: an accepted address stays accepted whatever is appended to it. *)
Theorem embed_accepted_extends (url suffix : string) :
  isValidYouTubeUrl url = true ->
  isValidYouTubeUrl (url ++ suffix) = true.
Proof.
  intros H. apply embed_address_shape in H.
  destruct H as [p [c [rest [Hp [-> Hc]]]]].
  rewrite append_assoc. simpl. now apply embed_address_accepted.
Qed.

Lemma embed_accepted_extends_witness :
  isValidYouTubeUrl
    ("https://youtube.com/embed/abc123" ++ "?autoplay=1&x=<script>") = true.
Proof.
  apply (embed_accepted_extends "https://youtube.com/embed/abc123"
           "?autoplay=1&x=<script>").
  reflexivity.
Defined.

(** ** The iframe rule *)

(** X7: the rule under [transformTags.iframe], case by case: it throws on
    attributes without [src]; with a [src] the validator rejects it
    answers with the placeholder paragraph; with an accepted [src] it
    answers with an iframe that has the five fixed values and, under
    every other name, the value the author gave. *)
Theorem iframe_rule_cases (tagName : string) (a : attribs) :
  match get_attr "src" a with
  | None => iframe_rule tagName a = inl TypeError
  | Some src =>
      if isValidYouTubeUrl src then
        exists a',
          iframe_rule tagName a
          = inr {| frame_tagName := "iframe"; frame_attribs := Some a';
                   frame_text := None |}
          /\ get_attr "width" a' = Some "100%"
          /\ get_attr "height" a' = Some "400"
          /\ get_attr "frameborder" a' = Some "0"
          /\ get_attr "allow" a'
             = Some "accelerometer; autoplay; clipboard-write; encrypted-media; gyroscope; picture-in-picture"
          /\ get_attr "allowfullscreen" a' = Some ""
          /\ forall k, ~ In k forced_attributes -> get_attr k a' = get_attr k a
      else
        iframe_rule tagName a
        = inr {| frame_tagName := "p"; frame_attribs := None;
                 frame_text := Some "[Invalid video embed]" |}
  end.
Proof.
  unfold iframe_rule. destruct (get_attr "src" a) as [src|]; [|reflexivity].
  destruct (isValidYouTubeUrl src); simpl; [|reflexivity].
  eexists. split; [reflexivity|].
  repeat split;
    try (repeat (first [ rewrite get_set_attr_same; reflexivity
                       | rewrite get_set_attr_other by discriminate ])).
  intros k Hk. unfold forced_attributes in Hk. simpl in Hk.
  repeat rewrite get_set_attr_other by (intros ->; tauto). reflexivity.
Qed.

(** ** The admin header *)

(** X8: without the admin header that matches the configured passphrase, the
    five writing handlers answer 403 and leave the table as it is. *)
Theorem writes_need_admin (P : platform) (T : table_decl) (E : env)
    (req : request) (table : list post) :
  checkAdminPassphrase E req = false ->
  post_posts P E req table = (Unauthorized, table)
  /\ put_post P T E req table = (Unauthorized, table)
  /\ delete_post E req table = (Unauthorized, table)
  /\ patch_post_status T E req table = (Unauthorized, table)
  /\ post_posts_reorder T E req table = (Unauthorized, table).
Proof.
  intros H. unfold post_posts, put_post, delete_post, patch_post_status,
    post_posts_reorder. rewrite H. simpl. repeat split.
Qed.

Lemma writes_need_admin_witness :
  let table := [stored "a" "first" "published" true true None None 1] in
  let req := {| admin_access := Some "guess"; params := "a";
                req_body := fields "Title" "text" "news" |} in
  post_posts sample_platform (at_time 9) req table = (Unauthorized, table)
  /\ put_post sample_platform plain_table (at_time 9) req table
     = (Unauthorized, table)
  /\ delete_post (at_time 9) req table = (Unauthorized, table)
  /\ patch_post_status plain_table (at_time 9) req table = (Unauthorized, table)
  /\ post_posts_reorder plain_table (at_time 9) req table = (Unauthorized, table).
Proof.
  intros table req.
  apply (writes_need_admin sample_platform plain_table (at_time 9) req table).
  reflexivity.
Defined.

(** X9: when [ADMIN_PASSPHRASE] is not set, a request without the admin
    header passes the check: the comparison is between two undefined
    values.  Such a request is shown every post, drafts included, and may
    delete. *)
Theorem unset_passphrase_admits_all (E : env) (req : request) (table : list post) :
  ADMIN_PASSPHRASE E = None ->
  admin_access req = None ->
  checkAdminPassphrase E req = true
  /\ (exists rows, get_posts E req table = (ok (posts_ rows), table)
                   /\ Permutation rows table)
  /\ ((exists r, In r table /\ id r = params req) ->
      delete_post E req table
      = (ok (message_ "Blog post deleted successfully"),
         DELETE (has_id (params req)) table)).
Proof.
  intros HE Hreq.
  assert (Hc : checkAdminPassphrase E req = true)
    by (unfold checkAdminPassphrase; now rewrite HE, Hreq).
  split; [exact Hc|]. split.
  - unfold get_posts. rewrite Hc. simpl. eexists. split; [reflexivity|].
    rewrite ORDER_BY_perm. unfold SELECT.
    clear. induction table as [|r t IH]; simpl; [constructor | now constructor].
  - intros [r [Hin Hid]]. unfold delete_post. rewrite Hc. simpl.
    destruct (filter_some (has_id (params req)) table r Hin) as [y [l Hsel]];
      [now apply has_id_true|].
    unfold SELECT. now rewrite Hsel.
Qed.

Lemma unset_passphrase_admits_all_witness :
  let E := {| ADMIN_PASSPHRASE := None; NOW := 9%Z; uuidv4 := "u" |} in
  checkAdminPassphrase E (anonymous "d1") = true
  /\ (exists rows, get_posts E (anonymous "d1") [hidden_draft]
                   = (ok (posts_ rows), [hidden_draft])
                   /\ Permutation rows [hidden_draft])
  /\ ((exists r, In r [hidden_draft] /\ id r = params (anonymous "d1")) ->
      delete_post E (anonymous "d1") [hidden_draft]
      = (ok (message_ "Blog post deleted successfully"),
         DELETE (has_id (params (anonymous "d1"))) [hidden_draft])).
Proof.
  intros E.
  apply (unset_passphrase_admits_all E (anonymous "d1") [hidden_draft]);
    reflexivity.
Defined.

(** ** Delete, create and the lookups *)

(** X10: with the admin header, delete answers [NotFound] and changes nothing
    when no post has the id; otherwise it removes exactly the posts with
    that id, and deleting the same id again answers [NotFound]. *)
Theorem delete_removes_exactly (E : env) (req : request) (table : list post) :
  checkAdminPassphrase E req = true ->
  ((forall r, In r table -> id r <> params req) ->
   delete_post E req table = (NotFound, table))
  /\ ((exists r, In r table /\ id r = params req) ->
      exists table',
        delete_post E req table
        = (ok (message_ "Blog post deleted successfully"), table')
        /\ (forall r, In r table' <-> In r table /\ id r <> params req)
        /\ delete_post E req table' = (NotFound, table')).
Proof.
  intros Ha.
  assert (Hnone : forall t, (forall r, In r t -> id r <> params req) ->
                            delete_post E req t = (NotFound, t)).
  { intros t Ht. unfold delete_post, SELECT. rewrite Ha. simpl.
    rewrite filter_none; [reflexivity|].
    intros r Hr. apply has_id_false. now apply Ht. }
  split; [apply Hnone|].
  intros [r [Hin Hid]]. exists (DELETE (has_id (params req)) table).
  assert (Hmem : forall r0, In r0 (DELETE (has_id (params req)) table)
                            <-> In r0 table /\ id r0 <> params req).
  { intros r0. unfold DELETE. rewrite filter_In, negb_true_iff, has_id_false.
    tauto. }
  split; [|split].
  - unfold delete_post, SELECT. rewrite Ha. simpl.
    destruct (filter_some (has_id (params req)) table r Hin) as [y [l Hsel]];
      [now apply has_id_true|].
    now rewrite Hsel.
  - exact Hmem.
  - apply Hnone. intros r0 Hr0. now apply Hmem in Hr0.
Qed.

Lemma delete_removes_exactly_witness :
  let table := [stored "a" "first" "draft" false false None None 1;
                stored "b" "second" "draft" false false None None 2] in
  (exists table',
      delete_post (at_time 9) (as_admin "a" no_body) table
      = (ok (message_ "Blog post deleted successfully"), table')
      /\ (forall r, In r table' <-> In r table /\ id r <> "a")
      /\ delete_post (at_time 9) (as_admin "a" no_body) table' = (NotFound, table'))
  /\ delete_post (at_time 9) (as_admin "zz" no_body) table = (NotFound, table).
Proof.
  intros table. split.
  - apply (delete_removes_exactly (at_time 9) (as_admin "a" no_body) table eq_refl).
    exists (stored "a" "first" "draft" false false None None 1).
    split; [now left | reflexivity].
  - apply (delete_removes_exactly (at_time 9) (as_admin "zz" no_body) table eq_refl).
    intros r [Hr|[Hr|[]]]; subst r; discriminate.
Defined.

Lemma filter_app_last {A} (f : A -> bool) (l : list A) (x : A) :
  filter f (l ++ [x]) = filter f l ++ (if f x then [x] else []).
Proof. rewrite filter_app. reflexivity. Qed.

(** X11: a post that create has stored is found under the slug of the answer:
    the lookup with the admin header returns the new row, which carries
    the id of the answer, the title as sent, the sanitised content and
    as status the one of the request: [draft] when the request has no
    status, [NULL] when its status is [null]. *)
Theorem created_post_is_found (P : platform) (E : env) (req : request)
    (table : list post) :
  checkAdminPassphrase E req = true ->
  falsy (b_title (req_body req)) || falsy (b_content (req_body req))
  || falsy (b_category (req_body req)) = false ->
  (forall r, In r table -> slug r <> slugify (text (b_title (req_body req)))) ->
  let s := slugify (text (b_title (req_body req))) in
  exists row table',
    post_posts P E req table
    = (ok (created_ "Blog post created successfully" (uuidv4 E) s), table')
    /\ get_post_by_slug E (with_params s req) table' = (ok (post_ row), table')
    /\ id row = uuidv4 E
    /\ title row = text (b_title (req_body req))
    /\ content row = sanitizeContent P (text (b_content (req_body req)))
    /\ status row = match b_status (req_body req) with
                    | None => Some "draft"
                    | Some None => None
                    | Some (Some sent) => Some sent
                    end.
Proof.
  intros Ha Hreq Hfresh s.
  assert (Hnone : filter (has_slug s) table = []).
  { apply filter_none. intros r Hr. apply has_slug_false. now apply Hfresh. }
  unfold post_posts. rewrite Ha, Hreq. simpl. fold s. unfold SELECT.
  rewrite Hnone. eexists. eexists. split; [reflexivity|].
  split.
  - unfold get_post_by_slug, SELECT, INSERT.
    change (checkAdminPassphrase E (with_params s req))
      with (checkAdminPassphrase E req).
    rewrite Ha. simpl negb. cbv iota. cbn [params with_params].
    rewrite filter_app_last.
    replace (filter (fun r => has_slug s r && true) table) with (@nil post).
    + unfold has_slug at 1. cbn [slug]. rewrite String.eqb_refl. reflexivity.
    + symmetry. apply filter_none. intros r Hr. rewrite andb_true_r.
      apply has_slug_false. now apply Hfresh.
  - simpl. repeat split. now destruct (b_status (req_body req)) as [[sent|]|].
Qed.

Lemma created_post_is_found_witness :
  let req := as_admin "" (with_status (Some None)
                            (fields "Hello, World!" "text" "news")) in
  exists row table',
    post_posts sample_platform (at_time 9) req []
    = (ok (created_ "Blog post created successfully" "uuid-1" "hello-world"),
       table')
    /\ get_post_by_slug (at_time 9) (with_params "hello-world" req) table'
       = (ok (post_ row), table')
    /\ id row = "uuid-1"
    /\ title row = "Hello, World!"
    /\ content row = sanitizeContent sample_platform "text"
    /\ status row = None.
Proof.
  intros req.
  apply (created_post_is_found sample_platform (at_time 9) req []);
    [reflexivity | reflexivity |].
  intros r [].
Defined.

(** X12: a post created without a status is a draft: callers without the
    admin header get the same listing as before the create, and
    [NotFound] under the new slug. *)
Theorem created_draft_is_hidden (P : platform) (E : env) (req anon : request)
    (table : list post) :
  checkAdminPassphrase E req = true ->
  falsy (b_title (req_body req)) || falsy (b_content (req_body req))
  || falsy (b_category (req_body req)) = false ->
  (forall r, In r table -> slug r <> slugify (text (b_title (req_body req)))) ->
  b_status (req_body req) = None ->
  checkAdminPassphrase E anon = false ->
  let table' := snd (post_posts P E req table) in
  table' <> table
  /\ fst (get_posts E anon table') = fst (get_posts E anon table)
  /\ get_post_by_slug E
       (with_params (slugify (text (b_title (req_body req)))) anon) table'
     = (NotFound, table').
Proof.
  intros Ha Hreq Hfresh Hst Hanon table'.
  assert (Hnone : filter (has_slug (slugify (text (b_title (req_body req))))) table = []).
  { apply filter_none. intros r Hr. apply has_slug_false. now apply Hfresh. }
  unfold table', post_posts. rewrite Ha, Hreq. simpl. unfold SELECT.
  rewrite Hnone, Hst. simpl. unfold INSERT. split; [|split].
  - intros H. apply (f_equal (@List.length post)) in H.
    rewrite List.length_app in H. simpl in H. lia.
  - unfold get_posts, SELECT. rewrite Hanon. simpl.
    rewrite filter_app_last. simpl. now rewrite app_nil_r.
  - unfold get_post_by_slug, SELECT.
    change (checkAdminPassphrase E (with_params ?s anon))
      with (checkAdminPassphrase E anon).
    rewrite Hanon. simpl negb. cbv iota. cbn [params with_params].
    rewrite filter_app_last. cbn [published status option_eqb].
    replace (String.eqb "draft" "published") with false by reflexivity.
    rewrite andb_false_r, app_nil_r.
    rewrite filter_none; [reflexivity|].
    intros r Hr. apply andb_false_iff. left. apply has_slug_false.
    now apply Hfresh.
Qed.

Lemma created_draft_is_hidden_witness :
  let table := [stored "a" "first" "published" false false None None 1] in
  let req := as_admin "" (fields "Hello, World!" "text" "news") in
  let table' := snd (post_posts sample_platform (at_time 9) req table) in
  table' <> table
  /\ fst (get_posts (at_time 9) (anonymous "") table')
     = fst (get_posts (at_time 9) (anonymous "") table)
  /\ get_post_by_slug (at_time 9)
       (with_params (slugify (text (b_title (req_body req)))) (anonymous ""))
       table'
     = (NotFound, table').
Proof.
  intros table req.
  apply (created_draft_is_hidden sample_platform (at_time 9) req (anonymous "")
           table); try reflexivity.
  intros r [Hr|[]]; subst r; discriminate.
Defined.

(** ** The listings *)

(** X13: the post listing returns the posts the caller may see, all of them
    with the admin header and the published ones without, with the most
    recently created first. *)
Theorem listing_newest_first (E : env) (req : request) (table : list post) :
  exists rows,
    get_posts E req table = (ok (posts_ rows), table)
    /\ Permutation rows
         (filter (fun r => checkAdminPassphrase E req || published r) table)
    /\ StronglySorted (fun p q => (created_at q <= created_at p)%Z) rows.
Proof.
  unfold get_posts, SELECT. eexists. split; [reflexivity|]. split.
  - rewrite ORDER_BY_perm. destruct (checkAdminPassphrase E req); reflexivity.
  - assert (H : StronglySorted (fun a b => created_at_desc a b = true)
                  (ORDER_BY created_at_desc
                     (filter (fun r => if negb (checkAdminPassphrase E req)
                                       then published r else true) table))).
    { apply ORDER_BY_strongly_sorted; unfold created_at_desc.
      - intros a b. rewrite !Z.leb_le. lia.
      - intros a b c. rewrite !Z.leb_le. lia. }
    induction H as [|a l Hs IH Hall]; constructor; auto.
    eapply Forall_impl; [|exact Hall]. intros b. unfold created_at_desc.
    now rewrite Z.leb_le.
Qed.

(** X14: the category listing names each category of the posts the caller may
    see, once. *)
Theorem categories_distinct_and_complete (E : env) (req : request)
    (table : list post) :
  exists names,
    get_categories E req table = (ok (categories_ names), table)
    /\ NoDup names
    /\ forall c, In c names <->
         exists r, In r table
                   /\ (checkAdminPassphrase E req = true \/ published r = true)
                   /\ category r = c.
Proof.
  unfold get_categories, SELECT. eexists. split; [reflexivity|]. split.
  - eapply Permutation_NoDup; [symmetry; apply ORDER_BY_perm|]. apply NoDup_nodup.
  - intros c. split.
    + intros Hc. apply (Permutation_in _ (ORDER_BY_perm _ String.leb _)) in Hc.
      apply nodup_In in Hc. apply in_map_iff in Hc. destruct Hc as [r [Hcat Hr]].
      apply filter_In in Hr. destruct Hr as [Hr Hv]. exists r.
      split; [exact Hr|]. split; [|exact Hcat].
      destruct (checkAdminPassphrase E req); [now left | now right].
    + intros [r [Hr [Hv Hcat]]].
      apply (Permutation_in _ (Permutation_sym (ORDER_BY_perm _ String.leb _))).
      apply nodup_In. apply in_map_iff. exists r. split; [exact Hcat|].
      apply filter_In. split; [exact Hr|].
      destruct (checkAdminPassphrase E req); [reflexivity|].
      destruct Hv as [Hv|Hv]; [discriminate Hv | exact Hv].
Qed.

(** ** What update, status change and reorder leave alone *)

Lemma Forall2_map_right {A} (R : A -> A -> Prop) (g : A -> A) (l : list A) :
  (forall x, R x (g x)) -> Forall2 R l (map g l).
Proof. intros H. induction l; simpl; constructor; auto. Qed.

Lemma Forall2_same {A} (R : A -> A -> Prop) (l : list A) :
  (forall x, R x x) -> Forall2 R l l.
Proof. intros H. induction l; constructor; auto. Qed.

(** X15: update, whatever it answers, leaves every post with another id as it
    is and keeps, in the post it writes, the id, the creation time, both
    flags and both order values. *)
Theorem update_frame (P : platform) (T : table_decl) (E : env) (req : request)
    (table : list post) :
  Forall2
    (fun r r' =>
       id r' = id r /\ created_at r' = created_at r
       /\ is_featured r' = is_featured r /\ is_trending r' = is_trending r
       /\ featured_order r' = featured_order r
       /\ trending_order r' = trending_order r
       /\ (id r <> params req -> r' = r))
    table (snd (put_post P T E req table)).
Proof.
  assert (Hsame : Forall2
            (fun r r' =>
               id r' = id r /\ created_at r' = created_at r
               /\ is_featured r' = is_featured r /\ is_trending r' = is_trending r
               /\ featured_order r' = featured_order r
               /\ trending_order r' = trending_order r
               /\ (id r <> params req -> r' = r)) table table)
    by (apply Forall2_same; intros x; repeat split).
  unfold put_post. destruct (negb _); [exact Hsame|].
  destruct (_ || _); [exact Hsame|].
  destruct (SELECT (has_id _) table); [exact Hsame|].
  destruct (SELECT _ table); [|exact Hsame]. simpl.
  unfold UPDATE. apply Forall2_map_right. intros r.
  rewrite andb_false_r. destruct (has_id (params req) r) eqn:Hid.
  - simpl. repeat split. intros Hne. apply has_id_true in Hid. contradiction.
  - repeat split.
Qed.

(** X16: an update that sends no status stores none: the post it writes is no
    longer published, whatever it was before. *)
Theorem update_without_status_unpublishes (P : platform) (T : table_decl)
    (E : env) (req : request) (table : list post) (s : string) (r' : post) :
  fst (put_post P T E req table)
  = ok (updated_ "Blog post updated successfully" s) ->
  b_status (req_body req) = None ->
  In r' (snd (put_post P T E req table)) ->
  id r' = params req ->
  status r' = None /\ published r' = false.
Proof.
  unfold put_post. destruct (negb _); [discriminate|].
  destruct (_ || _); [discriminate|].
  destruct (SELECT (has_id _) table); [discriminate|].
  destruct (SELECT _ table); [|discriminate]. simpl.
  intros _ Hst Hin Hid. unfold UPDATE in Hin. apply in_map_iff in Hin.
  destruct Hin as [r [Hr Hin]]. destruct (has_id (params req) r) eqn:Hw.
  - rewrite andb_false_r in Hr. simpl in Hr. subst r'. unfold published.
    simpl. now rewrite Hst.
  - subst r'. apply has_id_false in Hw. contradiction.
Qed.

Lemma update_without_status_unpublishes_witness :
  let table := [stored "a" "first" "published" false false None None 1] in
  let req := as_admin "a" (fields "First" "text" "news") in
  let r' := put_assignments (at_time 9) (req_body req) "first"
              (sanitizeContent sample_platform "text")
              (stored "a" "first" "published" false false None None 1) in
  published (stored "a" "first" "published" false false None None 1) = true
  /\ status r' = None /\ published r' = false.
Proof.
  intros table req r'. split; [reflexivity|].
  apply (update_without_status_unpublishes sample_platform plain_table
           (at_time 9) req table "first" r').
  - reflexivity.
  - reflexivity.
  - now left.
  - reflexivity.
Defined.

(** X17: with the admin header, a status change writes the two flags and the
    two order values of the request, a missing one and [null] as [NULL],
    into every post with the id; every other column of those posts
    stays as it is, apart from [updated_at], which stays or becomes the
    time of the request; the other posts stay as they are. *)
Theorem status_change_overwrites (T : table_decl) (E : env) (req : request)
    (table : list post) :
  checkAdminPassphrase E req = true ->
  Forall2
    (fun r r' =>
       if has_id (params req) r then
         is_featured r' = match b_is_featured (req_body req) with
                          | Some (Some flag) => Some flag
                          | _ => None
                          end
         /\ is_trending r' = match b_is_trending (req_body req) with
                             | Some (Some flag) => Some flag
                             | _ => None
                             end
         /\ featured_order r' = b_featured_order (req_body req)
         /\ trending_order r' = b_trending_order (req_body req)
         /\ id r' = id r /\ title r' = title r /\ slug r' = slug r
         /\ content r' = content r /\ category r' = category r
         /\ meta_title r' = meta_title r
         /\ meta_description r' = meta_description r
         /\ keywords r' = keywords r
         /\ featured_image r' = featured_image r
         /\ status r' = status r /\ author r' = author r
         /\ created_at r' = created_at r
         /\ (updated_at r' = updated_at r \/ updated_at r' = NOW E)
       else r' = r)
    table (snd (patch_post_status T E req table)).
Proof.
  intros Ha. unfold patch_post_status. rewrite Ha. simpl.
  unfold UPDATE. apply Forall2_map_right. intros r.
  destruct (has_id (params req) r); [|reflexivity].
  assert (Hf : forall x : option (option bool),
             bound x = match x with Some (Some flag) => Some flag | _ => None end)
    by (intros [[flag|]|]; reflexivity).
  destruct (_ && _); simpl; rewrite !Hf; repeat split; auto.
Qed.

Lemma status_change_overwrites_witness :
  let table := [stored "a" "first" "published" true true (Some 1%Z) (Some 2%Z) 1;
                stored "b" "second" "published" true true (Some 3%Z) None 2] in
  Forall2
    (fun r r' =>
       if has_id "a" r then
         is_featured r' = None /\ is_trending r' = Some false
         /\ featured_order r' = None /\ trending_order r' = None
         /\ id r' = id r /\ title r' = title r /\ slug r' = slug r
         /\ content r' = content r /\ category r' = category r
         /\ meta_title r' = meta_title r
         /\ meta_description r' = meta_description r
         /\ keywords r' = keywords r
         /\ featured_image r' = featured_image r
         /\ status r' = status r /\ author r' = author r
         /\ created_at r' = created_at r
         /\ (updated_at r' = updated_at r \/ updated_at r' = 9%Z)
       else r' = r)
    table
    (snd (patch_post_status auto_table (at_time 9)
            (as_admin "a" (flags None (Some false) None None)) table)).
Proof.
  intros table.
  apply (status_change_overwrites auto_table (at_time 9)
           (as_admin "a" (flags None (Some false) None None)) table).
  reflexivity.
Defined.

Lemma reorder_steps_keep (T : table_decl) (E : env) (f : order_column)
    (posts : list entry) (r : post) :
  let r' := fold_left (reorder_step T E f) posts r in
  id r' = id r /\ title r' = title r /\ slug r' = slug r
  /\ content r' = content r /\ category r' = category r
  /\ status r' = status r /\ created_at r' = created_at r
  /\ is_featured r' = is_featured r /\ is_trending r' = is_trending r.
Proof.
  induction posts as [|e posts IH] using rev_ind; [repeat split|].
  cbv zeta in *. rewrite fold_left_app. cbn [fold_left].
  remember (fold_left (reorder_step T E f) posts r) as x eqn:Hx.
  destruct IH as [H1 [H2 [H3 [H4 [H5 [H6 [H7 [H8 H9]]]]]]]].
  unfold reorder_step.
  destruct (has_id _ x); [|repeat split; assumption].
  destruct (_ && _); simpl; repeat split; assumption.
Qed.

(** X18: a reorder request, whatever it answers, keeps the posts in place and
    changes in none of them anything but the two order values and
    [updated_at]. *)
Theorem reorder_frame (T : table_decl) (E : env) (req : request)
    (table : list post) :
  Forall2
    (fun r r' =>
       id r' = id r /\ title r' = title r /\ slug r' = slug r
       /\ content r' = content r /\ category r' = category r
       /\ status r' = status r /\ created_at r' = created_at r
       /\ is_featured r' = is_featured r /\ is_trending r' = is_trending r)
    table (snd (post_posts_reorder T E req table)).
Proof.
  unfold post_posts_reorder.
  destruct (negb _); [apply Forall2_same; intros x; repeat split|].
  destruct (b_posts _) as [posts|]; [|apply Forall2_same; intros x; repeat split].
  simpl. rewrite reorder_loop_rows. apply Forall2_map_right. intros r.
  apply reorder_steps_keep.
Qed.

(** ** Slugs stay unique *)

Lemma unique_slugs_frame (table table' : list post) :
  Forall2 (fun r r' => id r' = id r /\ slug r' = slug r) table table' ->
  unique_slugs table -> unique_slugs table'.
Proof.
  intros HF Hu.
  assert (Hback : forall r', In r' table' ->
                    exists r, In r table /\ id r' = id r /\ slug r' = slug r).
  { clear Hu. induction HF as [|r r' t t' [Hi Hs] _ IH]; intros x Hx; [destruct Hx|].
    destruct Hx as [<-|Hx].
    - exists r. split; [now left | auto].
    - destruct (IH x Hx) as [y [Hy Hxy]]. exists y. split; [now right | exact Hxy]. }
  intros r1' r2' H1 H2 Hs.
  destruct (Hback r1' H1) as [r1 [Hr1 [Hi1 Hs1]]].
  destruct (Hback r2' H2) as [r2 [Hr2 [Hi2 Hs2]]].
  rewrite Hi1, Hi2. apply Hu; congruence.
Qed.

(** X19: no request makes two posts with different ids share a slug: each of
    the five writing handlers takes a table with unique slugs to a table
    with unique slugs. *)
Theorem unique_slugs_preserved (P : platform) (T : table_decl) (E : env)
    (req : request) (table : list post) :
  unique_slugs table ->
  unique_slugs (snd (post_posts P E req table))
  /\ unique_slugs (snd (put_post P T E req table))
  /\ unique_slugs (snd (delete_post E req table))
  /\ unique_slugs (snd (patch_post_status T E req table))
  /\ unique_slugs (snd (post_posts_reorder T E req table)).
Proof.
  intros Hu. split; [now apply create_keeps_unique_slugs|].
  split; [now apply update_keeps_unique_slugs|].
  split; [now apply delete_keeps_unique_slugs|]. split.
  - apply (unique_slugs_frame table); [|exact Hu].
    unfold patch_post_status. destruct (negb _); simpl.
    + apply Forall2_same. auto.
    + unfold UPDATE. apply Forall2_map_right. intros r.
      destruct (has_id _ r); [|auto]. destruct (_ && _); simpl; auto.
  - apply (unique_slugs_frame table); [|exact Hu].
    unfold post_posts_reorder. destruct (negb _); [apply Forall2_same; auto|].
    destruct (b_posts _) as [posts|]; [|apply Forall2_same; auto].
    simpl. rewrite reorder_loop_rows. apply Forall2_map_right. intros r.
    pose proof (reorder_steps_keep T E (orderField (b_type (req_body req)))
                  posts r) as H.
    cbv zeta in H. tauto.
Qed.

Lemma unique_slugs_preserved_witness :
  let table := [stored "a" "first" "draft" false false None None 1] in
  let req := as_admin "a" (fields "Second" "text" "news") in
  unique_slugs (snd (post_posts sample_platform (at_time 9) req table))
  /\ unique_slugs (snd (put_post sample_platform plain_table (at_time 9) req table))
  /\ unique_slugs (snd (delete_post (at_time 9) req table))
  /\ unique_slugs (snd (patch_post_status plain_table (at_time 9) req table))
  /\ unique_slugs (snd (post_posts_reorder plain_table (at_time 9) req table)).
Proof.
  intros table req.
  apply (unique_slugs_preserved sample_platform plain_table (at_time 9) req table).
  intros r1 r2 [H1|[]] [H2|[]] _. now subst.
Defined.

(** ** Content without markup *)

(** X20: create stores content that has no ['<'] in it exactly as it was
    sent. *)
Theorem plain_content_stored_verbatim (P : platform) (E : env) (req : request)
    (table : list post) :
  checkAdminPassphrase E req = true ->
  falsy (b_title (req_body req)) || falsy (b_content (req_body req))
  || falsy (b_category (req_body req)) = false ->
  (forall r, In r table -> slug r <> slugify (text (b_title (req_body req)))) ->
  includes_unit "<" (text (b_content (req_body req))) = false ->
  exists row,
    snd (post_posts P E req table) = table ++ [row]
    /\ content row = text (b_content (req_body req)).
Proof.
  intros Ha Hreq Hfresh Hplain.
  destruct (create_fresh P E req table Ha Hreq Hfresh)
    as [row [Hrun [_ [_ [Hc _]]]]].
  exists row. split; [now rewrite Hrun|].
  rewrite Hc. apply sanitizeContent_text; [|exact Hplain].
  intros Hempty. apply orb_false_iff in Hreq. destruct Hreq as [Hreq _].
  apply orb_false_iff in Hreq. destruct Hreq as [_ Hcontent].
  unfold falsy, text, from_option in *.
  destruct (b_content (req_body req)) as [c|]; [|discriminate Hcontent].
  subst c. discriminate Hcontent.
Qed.

Lemma plain_content_stored_verbatim_witness :
  exists row,
    snd (post_posts sample_platform (at_time 9)
           (as_admin "" (fields "Hello" "a & b > c" "news")) [])
    = [] ++ [row]
    /\ content row = "a & b > c".
Proof.
  apply (plain_content_stored_verbatim sample_platform (at_time 9)
           (as_admin "" (fields "Hello" "a & b > c" "news")) []);
    try reflexivity.
  intros r [].
Defined.

(** ** The sanitiser's configuration *)

(** X21: an element whose content the library never keeps ([script], [style],
    [title], ...) and which the module does not allow disappears with
    everything inside it.  [iframe] is the one such name the module
    allows. *)
Theorem forbidden_content_dropped (P : platform) (tagName : string)
    (a : attribs) (children : list node) :
  In (toLowerCase tagName) FORBID_CONTENTS ->
  toLowerCase tagName <> "iframe" ->
  _sanitizeNode P (CONFIG (DOMPurify P)) (Element tagName a children) = [].
Proof.
  intros Hin Hne. cbn [_sanitizeNode].
  replace (custom_elements (CONFIG (DOMPurify P))) with no_custom_elements
    by reflexivity.
  cbn [check tagNameCheck no_custom_elements]. rewrite andb_false_r, orb_false_r.
  destruct (text_reads_as_markup _ _); [reflexivity|].
  destruct (tag_allowed _ _) eqn:Htag.
  - exfalso. apply allowed_tag_name in Htag.
    unfold FORBID_CONTENTS in Hin. simpl in Hin.
    repeat (destruct Hin as [Hin|Hin];
            [rewrite <- Hin in *; first [now apply Hne
              | simpl in Htag;
                repeat (destruct Htag as [Htag|Htag]; [discriminate Htag|]);
                exact Htag]|]).
    exact Hin.
  - apply mem_In in Hin. now rewrite Hin.
Qed.

Lemma forbidden_content_dropped_witness :
  _sanitizeNode sample_platform (CONFIG (DOMPurify sample_platform))
    (Element "SCRIPT" [] [Text "alert(1)"]) = [].
Proof.
  apply (forbidden_content_dropped sample_platform "SCRIPT" [] [Text "alert(1)"]).
  - simpl. tauto.
  - discriminate.
Defined.

(** ** The URI pattern of the module *)

(** X22: the module's URI pattern on a value [scheme:rest] whose scheme starts
    with a letter and is written in letters, [+], [.] and [-]: the value
    passes exactly when the scheme, in lower case, is one of the ten the
    pattern names. *)
Theorem uri_scheme_gate (scheme rest : string) :
  starts_with_letter scheme = true ->
  all_units uri_scheme_unit (lower_string scheme) = true ->
  test module_uri_regexp (scheme ++ String ":" rest)
  = mem (lower_string scheme) listed_schemes.
Proof.
  intros Hfirst Hunits. unfold test. cbn [ignoreCase module_uri_regexp source].
  rewrite (exec_lower _ (scheme ++ String ":" rest) (fun _ => true) (fun _ => true))
    by reflexivity.
  assert (Happ : forall a b, lower_string (a ++ b)
                             = (lower_string a ++ lower_string b)%string)
    by (intros a b; induction a as [|c a IH]; simpl; [reflexivity | now rewrite IH]).
  rewrite Happ. cbn [lower_string]. change (lower_ascii ":") with ":"%char.
  assert (Hlow : starts_with_letter scheme = true ->
                 exists c s, lower_string scheme = String c s /\ is_lower c = true).
  { destruct scheme as [|c s]; [discriminate|]. cbn [starts_with_letter lower_string].
    intros H. exists (lower_ascii c), (lower_string s). split; [reflexivity|].
    revert H. destruct c as [[] [] [] [] [] [] [] []]; intros H;
      first [reflexivity | discriminate H]. }
  destruct (Hlow Hfirst) as [c [s [Hs Hc]]]. clear Hlow Happ.
  set (x := lower_string scheme) in *.
  set (r := lower_string rest).
  match goal with
  | |- exec true (Alt ?a ?b) ?y ?k = _ =>
      change (exec true a y k || exec true b y k = mem x listed_schemes)
  end.
  rewrite (listed_scheme_alternative x r Hunits).
  replace (exec true uri_without_scheme (x ++ String ":" r) (fun _ => true))
    with false; [now rewrite orb_false_r|].
  symmetry. unfold uri_without_scheme.
  match goal with
  | |- exec true (Alt ?a (Cat (Plus ?b) ?d)) ?y ?k = _ =>
      change (exec true a y k
              || iterate (exec true b) y y (fun t => exec true d t k) = false)
  end.
  rewrite (proj1 (scheme_run_blocked r (fun _ => true) x Hunits)).
  rewrite Hs. cbn [append exec]. unfold in_class. now rewrite Hc.
Qed.

Lemma uri_scheme_gate_witness :
  test module_uri_regexp ("JavaScript" ++ String ":" "alert(1)")
  = mem (lower_string "JavaScript") listed_schemes.
Proof.
  apply (uri_scheme_gate "JavaScript" "alert(1)"); reflexivity.
Defined.

(** ** The order of the routes *)


(** X24: a [GET] of [/posts/featured] or of [/posts/trending] is answered
    by the slug lookup: with 404 when no post has the slug [featured],
    respectively [trending], whatever posts carry the flags. *)
Theorem featured_path_is_a_slug_lookup (P : platform) (T : table_decl)
    (E : env) (req : request) (table : list post) (name : string) :
  name = "featured" \/ name = "trending" ->
  (forall r, In r table -> slug r <> name) ->
  serve P T E GET ["posts"; name] req table = Some (NotFound, table).
Proof.
  intros Hname Hslug.
  assert (Hd : dispatch GET ["posts"; name] = Some (h_get_post_by_slug, Some name))
    by reflexivity.
  unfold serve. rewrite Hd. cbn [run from_option]. unfold get_post_by_slug, SELECT.
  rewrite filter_none; [reflexivity|].
  intros r Hr. cbn [params with_params].
  rewrite (proj2 (has_slug_false name r) (Hslug r Hr)). reflexivity.
Qed.

Lemma featured_path_is_a_slug_lookup_witness :
  serve sample_platform plain_table (at_time 9) GET ["posts"; "featured"]
        (anonymous "") shelf
  = Some (NotFound, shelf).
Proof.
  apply (featured_path_is_a_slug_lookup sample_platform plain_table (at_time 9)
           (anonymous "") shelf "featured").
  - now left.
  - intros r [<-|[<-|[<-|[]]]]; discriminate.
Defined.

(** ** The monitor router *)

Section MonitorRouter.

Import Monitor.

Lemma COUNT_le {A} (WHERE : A -> bool) (table : list A) :
  COUNT WHERE table <= COUNT (fun _ => true) table.
Proof.
  unfold COUNT. induction table as [|x l IH]; simpl; [lia|].
  destruct (WHERE x); simpl; lia.
Qed.

Lemma COUNT_all {A} (table : list A) :
  COUNT (fun _ => true) table = List.length table.
Proof.
  unfold COUNT. induction table as [|x l IH]; simpl; [reflexivity | now rewrite IH].
Qed.

(** X25: the statistics are refused without the passphrase; with it, the
    three totals are the sizes of the three tables and each of the other
    three numbers is at most the total it is shown with. *)
Theorem stats_are_bounded (E : env) (req : request) (db : database) :
  (checkAdminPassphrase E req = false /\ get_stats E req db = Unauthorized)
  \/ (checkAdminPassphrase E req = true
      /\ exists s,
           get_stats E req db = ok (statistics_ s)
           /\ users_total s = List.length (users db)
           /\ tempEmails_total s = List.length (temp_emails db)
           /\ receivedEmails_total s = List.length (received_emails db)
           /\ users_today s <= users_total s
           /\ tempEmails_active s <= tempEmails_total s
           /\ receivedEmails_today s <= receivedEmails_total s).
Proof.
  unfold get_stats. destruct (checkAdminPassphrase E req); simpl.
  - right. split; [reflexivity|]. eexists. split; [reflexivity|]. simpl.
    repeat split; try apply COUNT_all; apply COUNT_le.
  - left. split; reflexivity.
Qed.

Lemma StronglySorted_app_inv {A} (R : A -> A -> Prop) (l1 l2 : list A) :
  StronglySorted R (l1 ++ l2) ->
  StronglySorted R l1 /\ forall a b, In a l1 -> In b l2 -> R a b.
Proof.
  induction l1 as [|x l1 IH]; simpl; intros H.
  - split; [constructor | intros a b []].
  - apply StronglySorted_inv in H. destruct H as [Hs Hx].
    destruct (IH Hs) as [H1 H2]. split.
    + constructor; [exact H1|]. rewrite Forall_forall in *.
      intros y Hy. apply Hx. apply in_or_app. now left.
    + intros a b [<-|Ha] Hb.
      * rewrite Forall_forall in Hx. apply Hx. apply in_or_app. now right.
      * now apply H2.
Qed.

Lemma StronglySorted_weaken {A} (R R' : A -> A -> Prop) (l : list A) :
  (forall a b, R a b -> R' a b) -> StronglySorted R l -> StronglySorted R' l.
Proof.
  intros H. induction 1 as [|x l Hs IH Hx]; constructor; [exact IH|].
  eapply Forall_impl; [|exact Hx]. intros b. apply H.
Qed.

Lemma limit_of_sorted {A} (le : A -> A -> bool) (n : nat) (l : list A)
    (le_total : forall a b, le a b = true \/ le b a = true)
    (le_trans : forall a b c, le a b = true -> le b c = true -> le a c = true) :
  let shown := firstn n (ORDER_BY le l) in
  let rest := skipn n (ORDER_BY le l) in
  List.length shown = Nat.min n (List.length l)
  /\ Permutation (shown ++ rest) l
  /\ StronglySorted (fun a b => le a b = true) shown
  /\ forall a b, In a shown -> In b rest -> le a b = true.
Proof.
  intros shown rest. unfold shown, rest.
  pose proof (ORDER_BY_strongly_sorted A le le_total le_trans l) as Hs.
  rewrite <- (firstn_skipn n (ORDER_BY le l)) in Hs.
  apply StronglySorted_app_inv in Hs. destruct Hs as [H1 H2].
  split; [|split; [|split]]; try assumption.
  - rewrite List.length_firstn.
    now rewrite (Permutation_length (ORDER_BY_perm A le l)).
  - rewrite firstn_skipn. apply ORDER_BY_perm.
Qed.

(** X26: with the passphrase, [/recent-users] shows at most fifty users, newest
    first, each with the number of addresses it owns, and no user it
    leaves out is newer than one it shows. *)
Theorem recent_users_newest (E : env) (req : request) (db : database) :
  checkAdminPassphrase E req = true ->
  exists shown rest,
    get_recent_users E req db = ok (recent_users_ shown)
    /\ List.length shown = Nat.min 50 (List.length (users db))
    /\ Permutation (shown ++ rest) (map (recent_row db) (users db))
    /\ StronglySorted (fun a b => (ru_created_at b <= ru_created_at a)%Z) shown
    /\ forall a b, In a shown -> In b rest ->
                   (ru_created_at b <= ru_created_at a)%Z.
Proof.
  intros Hadmin. unfold get_recent_users. rewrite Hadmin. cbn [negb].
  set (le := fun a b : recent_user => (ru_created_at b <=? ru_created_at a)%Z).
  set (l := map (recent_row db) (users db)).
  assert (le_total : forall a b, le a b = true \/ le b a = true)
    by (intros a b; unfold le; rewrite !Z.leb_le; lia).
  assert (le_trans : forall a b c, le a b = true -> le b c = true -> le a c = true)
    by (intros a b c; unfold le; rewrite !Z.leb_le; lia).
  destruct (limit_of_sorted le 50 l le_total le_trans) as [H1 [H2 [H3 H4]]].
  exists (firstn 50 (ORDER_BY le l)), (skipn 50 (ORDER_BY le l)).
  split; [reflexivity|]. split; [|split; [exact H2|split]].
  - rewrite H1. unfold l. now rewrite List.length_map.
  - eapply StronglySorted_weaken; [|exact H3].
    intros a b H. unfold le in H. now apply Z.leb_le.
  - intros a b Ha Hb. apply Z.leb_le. now apply H4.
Qed.

Lemma recent_users_newest_witness :
  exists shown rest,
    get_recent_users (at_time 10) (as_admin None) busy_address
    = ok (recent_users_ shown)
    /\ List.length shown = Nat.min 50 (List.length (users busy_address))
    /\ Permutation (shown ++ rest)
                   (map (recent_row busy_address) (users busy_address))
    /\ StronglySorted (fun a b => (ru_created_at b <= ru_created_at a)%Z) shown
    /\ forall a b, In a shown -> In b rest ->
                   (ru_created_at b <= ru_created_at a)%Z.
Proof.
  apply (recent_users_newest (at_time 10) (as_admin None) busy_address).
  reflexivity.
Defined.

End MonitorRouter.

(** *** The joins of [/top-users] *)

Section MonitorJoins.

Import Monitor.

Lemma count_addresses_app
    (a b : list (option temp_email * option received_email)) :
  count_addresses (a ++ b) = count_addresses a + count_addresses b.
Proof. unfold count_addresses. now rewrite filter_app, List.length_app. Qed.

Lemma joined_mails_length (db : database) (t : temp_email) :
  List.length (joined_mails db t) = Nat.max 1 (List.length (mails_of db t)).
Proof.
  unfold joined_mails. destruct (mails_of db t) as [|m ms]; [reflexivity|].
  rewrite List.length_map. simpl. reflexivity.
Qed.

Lemma count_addresses_joined (db : database) (t : temp_email) :
  count_addresses
    (map (fun tm => (Some (fst tm), snd tm)) (joined_mails db t))
  = Nat.max 1 (List.length (mails_of db t)).
Proof.
  rewrite <- joined_mails_length. unfold count_addresses.
  induction (joined_mails db t) as [|x l IH]; simpl; [reflexivity | now rewrite IH].
Qed.

Lemma count_addresses_rows (db : database) (ts : list temp_email) :
  count_addresses
    (flat_map (fun t => map (fun tm => (Some (fst tm), snd tm))
                            (joined_mails db t)) ts)
  = list_sum (map (fun t => Nat.max 1 (List.length (mails_of db t))) ts).
Proof.
  induction ts as [|t ts IH]; [reflexivity|].
  cbn [flat_map map list_sum fold_right].
  now rewrite count_addresses_app, count_addresses_joined, IH.
Qed.

Lemma joined_rows_count (db : database) (u : user) :
  count_addresses (joined_rows db u) = counted_addresses db u.
Proof.
  unfold joined_rows, counted_addresses.
  destruct (filter (owned_by u) (temp_emails db)) as [|t ts]; [reflexivity|].
  apply count_addresses_rows.
Qed.

Lemma nodup_length_le (l : list string) :
  List.length (nodup string_dec l) <= List.length l.
Proof.
  induction l as [|x l IH]; simpl; [lia|].
  destruct (in_dec string_dec x l); simpl; lia.
Qed.

Lemma mails_within_addresses
    (rows : list (option temp_email * option received_email)) :
  Forall (fun row => fst row = None -> snd row = None) rows ->
  List.length
    (flat_map (fun row => match snd row with Some m => [re_id m] | None => [] end)
              rows)
  <= count_addresses rows.
Proof.
  unfold count_addresses.
  induction 1 as [|[t m] rows Hx _ IH]; simpl in *; [lia|].
  destruct t as [t|].
  - destruct m; simpl; lia.
  - rewrite (Hx eq_refl). simpl. exact IH.
Qed.

Lemma joined_rows_shape (db : database) (u : user) :
  Forall (fun row => fst row = None -> snd row = None) (joined_rows db u).
Proof.
  unfold joined_rows.
  destruct (filter (owned_by u) (temp_emails db)) as [|t ts].
  - constructor; [reflexivity | constructor].
  - apply Forall_forall. intros row Hrow. apply in_flat_map in Hrow.
    destruct Hrow as [t' [_ Hrow]]. apply in_map_iff in Hrow.
    destruct Hrow as [tm [<- _]]. discriminate.
Qed.

Lemma same_group_refl (u : user) : same_group u u = true.
Proof. unfold same_group. now rewrite !String.eqb_refl. Qed.

Lemma same_group_id (u v : user) :
  same_group u v = true -> user_id u = user_id v.
Proof.
  unfold same_group. intros H. apply andb_true_iff in H.
  now apply String.eqb_eq.
Qed.

Lemma group_of_unique (us : list user) (u : user) :
  NoDup (map user_id us) -> In u us -> filter (same_group u) us = [u].
Proof.
  induction us as [|v us IH]; intros Hn Hin; [destruct Hin|].
  cbn [map] in Hn. apply NoDup_cons_iff in Hn. destruct Hn as [Hv Hn].
  cbn [filter]. destruct Hin as [->|Hin].
  - rewrite same_group_refl. f_equal. apply filter_none.
    intros w Hw. destruct (same_group u w) eqn:Hg; [|reflexivity].
    exfalso. apply Hv. rewrite (same_group_id _ _ Hg). now apply in_map.
  - destruct (same_group u v) eqn:Hg.
    + exfalso. apply Hv. rewrite <- (same_group_id _ _ Hg). now apply in_map.
    + now apply IH.
Qed.

Lemma group_heads_unique (us seen : list user) :
  NoDup (map user_id us) ->
  (forall u s, In u us -> In s seen -> user_id u <> user_id s) ->
  group_heads seen us = us.
Proof.
  revert seen. induction us as [|u us IH]; intros seen Hn Hs; [reflexivity|].
  cbn [map] in Hn. apply NoDup_cons_iff in Hn. destruct Hn as [Hu Hn].
  cbn [group_heads].
  destruct (existsb (same_group u) seen) eqn:He.
  - apply existsb_exists in He. destruct He as [s [Hin Hg]].
    exfalso. apply (Hs u s); [now left | exact Hin | now apply same_group_id].
  - f_equal. apply IH; [exact Hn|].
    intros v s Hv [<-|Hin].
    + intros Heq. apply Hu. rewrite <- Heq. now apply in_map.
    + apply Hs; [now right | exact Hin].
Qed.

Lemma In_firstn {A} (n : nat) (l : list A) (x : A) :
  In x (firstn n l) -> In x l.
Proof.
  intros H. rewrite <- (firstn_skipn n l). apply in_or_app. now left.
Qed.

(** X27: when no two users share an id, [/top-users] shows at most twenty
    users, highest [email_count] first, and the [email_count] of a user
    is, summed over the addresses the user owns, the number of mails the
    address has received, or one for an address that has received none;
    [received_count] is never more. *)
Theorem top_users_count_joined_rows (E : env) (req : request) (db : database) :
  checkAdminPassphrase E req = true ->
  NoDup (map user_id (users db)) ->
  exists rows,
    get_top_users E req db = ok (top_users_ rows)
    /\ List.length rows = Nat.min 20 (List.length (users db))
    /\ StronglySorted (fun a b => tu_email_count b <= tu_email_count a) rows
    /\ forall row, In row rows ->
         exists u, In u (users db)
           /\ tu_id row = user_id u /\ tu_email row = user_email u
           /\ tu_email_count row = counted_addresses db u
           /\ tu_received_count row <= tu_email_count row.
Proof.
  intros Hadmin Hn. unfold get_top_users. rewrite Hadmin. cbn [negb].
  rewrite (group_heads_unique (users db) [] Hn) by (intros u s _ []).
  set (le := fun a b : top_user => (tu_email_count b <=? tu_email_count a)%nat).
  set (l := map (top_row db) (users db)).
  assert (le_total : forall a b, le a b = true \/ le b a = true)
    by (intros a b; unfold le; rewrite !Nat.leb_le; lia).
  assert (le_trans : forall a b c, le a b = true -> le b c = true -> le a c = true)
    by (intros a b c; unfold le; rewrite !Nat.leb_le; lia).
  destruct (limit_of_sorted le 20 l le_total le_trans) as [H1 [H2 [H3 _]]].
  exists (firstn 20 (ORDER_BY le l)).
  split; [reflexivity|]. split; [|split].
  - rewrite H1. unfold l. now rewrite List.length_map.
  - eapply StronglySorted_weaken; [|exact H3].
    intros a b H. unfold le in H. now apply Nat.leb_le.
  - intros row Hrow. apply In_firstn in Hrow.
    apply (Permutation_in _ (ORDER_BY_perm _ le l)) in Hrow.
    unfold l in Hrow. apply in_map_iff in Hrow. destruct Hrow as [u [<- Hu]].
    exists u. split; [exact Hu|]. split; [reflexivity|]. split; [reflexivity|].
    unfold top_row, group_rows. cbn [tu_email_count tu_received_count].
    rewrite (group_of_unique _ u Hn Hu). cbn [flat_map]. rewrite app_nil_r.
    split; [apply joined_rows_count|].
    unfold count_distinct_mails.
    etransitivity; [apply nodup_length_le|].
    apply mails_within_addresses, joined_rows_shape.
Qed.

Lemma top_users_count_joined_rows_witness :
  exists rows,
    get_top_users (at_time 10) (as_admin None) busy_address
    = ok (top_users_ rows)
    /\ List.length rows = Nat.min 20 (List.length (users busy_address))
    /\ StronglySorted (fun a b => tu_email_count b <= tu_email_count a) rows
    /\ forall row, In row rows ->
         exists u, In u (users busy_address)
           /\ tu_id row = user_id u /\ tu_email row = user_email u
           /\ tu_email_count row = counted_addresses busy_address u
           /\ tu_received_count row <= tu_email_count row.
Proof.
  apply (top_users_count_joined_rows (at_time 10) (as_admin None) busy_address).
  - reflexivity.
  - repeat constructor. intros [].
Defined.

(** *** Looking an address up *)

Lemma first_joined_row {A B} (g : A -> list B) (l : list A) :
  (forall x, g x <> []) ->
  match flat_map g l with
  | [] => l = []
  | y :: _ => exists x l' ys, l = x :: l' /\ g x = y :: ys
  end.
Proof.
  intros Hg. destruct l as [|x l']; [reflexivity|]. cbn [flat_map].
  destruct (g x) as [|y ys] eqn:Hx; [now destruct (Hg x)|].
  simpl. now exists x, l', ys.
Qed.

(** X28: [/lookup-temp-email], case by case: refused without the passphrase;
    400 without a non-empty [email]; 404 when no address has that name;
    otherwise the answer is about the first address with that name: its
    name, times and whether it expires after now, and as owner a
    non-empty string, which is the fixed text or the e-mail of the first
    user whose id is the address's [user_id]. *)
Theorem lookup_temp_email_cases (E : env) (req : request) (db : database) :
  let answer := get_lookup_temp_email E req db in
  if negb (checkAdminPassphrase E req) then answer = Unauthorized
  else if falsy (query_email req) then
    answer = {| http_status := 400;
                payload := error_ "Email parameter is required" |}
  else
    match filter (fun t => String.eqb (te_email t)
                             (from_option "" (query_email req)))
                 (temp_emails db) with
    | [] => answer = {| http_status := 404;
                        payload := error_ "Temporary email not found" |}
    | t :: _ =>
        exists owner,
          answer = ok (lookup_ {| tempEmail := from_option "" (query_email req);
                                  ownerEmail := Some owner;
                                  lk_created_at := te_created_at t;
                                  lk_expires_at := expires_at t;
                                  isActive := Z.ltb (NOW E) (expires_at t) |})
          /\ owner <> ""
          /\ match filter (fun u => owned_by u t) (users db) with
             | u :: _ => if String.eqb (user_email u) "" then owner = no_owner
                         else owner = user_email u
             | [] => owner = no_owner
             end
    end.
Proof.
  intros answer. unfold answer, get_lookup_temp_email.
  destruct (negb (checkAdminPassphrase E req)); [reflexivity|].
  destruct (falsy (query_email req)); [reflexivity|].
  unfold lookup_rows.
  set (email := from_option "" (query_email req)).
  match goal with |- context [flat_map ?f _] => set (g := f) end.
  assert (Hg : forall t, g t <> []).
  { intros t. unfold g.
    destruct (filter (fun u => owned_by u t) (users db)); discriminate. }
  pose proof (first_joined_row g
                (filter (fun t => String.eqb (te_email t) email) (temp_emails db))
                Hg) as H.
  destruct (flat_map g _) as [|row rows].
  - now rewrite H.
  - destruct H as [t [l' [ys [Hl Hrow]]]]. rewrite Hl.
    assert (Ht : te_email t = email).
    { apply String.eqb_eq.
      assert (Hin : In t (filter (fun t => String.eqb (te_email t) email)
                                 (temp_emails db)))
        by (rewrite Hl; now left).
      apply filter_In in Hin. exact (proj2 Hin). }
    unfold g in Hrow.
    destruct (filter (fun u => owned_by u t) (users db)) as [|u us].
    + injection Hrow as <- _. exists no_owner. cbn. rewrite Ht.
      split; [reflexivity|]. split; [discriminate | reflexivity].
    + cbn [map] in Hrow. injection Hrow as <- _.
      cbn [tempEmail ownerEmail lk_created_at lk_expires_at isActive falsy].
      rewrite Ht.
      destruct (String.eqb (user_email u) "") eqn:Hu.
      * exists no_owner.
        split; [reflexivity|]. split; [discriminate | reflexivity].
      * exists (user_email u). apply String.eqb_neq in Hu.
        split; [reflexivity|]. split; [exact Hu | reflexivity].
Qed.

End MonitorJoins.
